(** * heft-config-file: the configuration-file resolution engine

    A shallow embedding of [libraries/heft-config-file/src/ConfigurationFile.ts]:
    the JSON data model with its out-of-band provenance annotation, the
    deep merge of a parent configuration with a child ([_mergeObjects]),
    and the cached, cycle-checked loader that follows [extends].

    How the source is rendered.
    - A JavaScript value is a tree ([value]).  The hidden, symbol-keyed
      annotation of an object or array is the first argument of [VObj] and
      [VArr].  The source shares objects by reference; once a file has been
      annotated and its path properties rewritten nothing mutates them
      again, so an alias is rendered as a copy of the same tree.
    - A [throw] is [Throw e]; an [await] on a promise that can never settle
      is [Stuck Hang]; a recursion that ran out of its fuel is
      [Stuck OutOfFuel].  Calls run one after the other: a call starts when
      the one before it has completed.
    - Property names are assumed not to name a member that plain objects
      inherit from [Object.prototype] ([constructor], [toString], ...), nor
      [length] on arrays and strings, and an object's own names are listed in
      the order the object enumerates them.  A merged object lists its names
      in the order they were written to it, whereas JavaScript lists the
      names that are array indices first, in ascending order: the order of
      such names is not rendered.
    - Strings are byte strings, so that a string has one indexed property
      per byte where the source has one per UTF-16 code unit; [toLowerCase]
      lowers the letters A to Z. *)

From Stdlib Require Import ZArith Ascii String.
From stdpp Require Import gmap strings list pretty.

Local Open Scope string_scope.
Set Warnings "-register-all,-clear-no-such-hyp".

(** ** Values *)

(** [IConfigurationFileFieldAnnotation]: where a node was loaded from, and
    the values its properties had before later rewriting. *)
Record IConfigurationFileFieldAnnotation (V : Type) := mkAnnotation {
  configurationFilePath : option string;
  originalValues : list (string * V)
}.
Arguments mkAnnotation {V} _ _.
Arguments configurationFilePath {V} _.
Arguments originalValues {V} _.

(** A number matters to the engine only through its truthiness, so the
    integers stand for the numbers of JSON. *)
Inductive value : Type :=
| VUndefined
| VNull
| VBool (b : bool)
| VNum (n : Z)
| VStr (s : string)
| VArr (ann : option (IConfigurationFileFieldAnnotation value)) (items : list value)
| VObj (ann : option (IConfigurationFileFieldAnnotation value))
       (props : list (string * value)).

Abbreviation annotation := (IConfigurationFileFieldAnnotation value).

(** The failures the engine raises, one constructor per [throw] site, plus
    the failures handed over by its collaborators. *)
Inductive error : Type :=
| FileDoesNotExist (message : string)
| ReadFailure (message : string)
| LoopDetected (path : string)
| ParseFailure (path cause : string)
| BrokenExtends (path : string) (reference : value)
| SchemaMismatch (cause : string)
| DirectiveWithoutTarget (propertyName : string)
| DirectiveNotAString (propertyName : string) (raw : value)
| DirectiveTargetNotObject (propertyName : string)
| DirectiveUnknownBehavior (propertyName raw : string)
| AppendOnNonArray (propertyName : string)
| MergeOnNull (propertyName : string)
| MergeOnPrimitive (propertyName : string)
| MergeOnNonKeyedObject (propertyName : string)
| CustomWithoutFunction
| TypeErrorOnNullish
| CollaboratorFailure (message : string).

(** [FileSystem.isNotExistError]: true of the error a read raises for a
    missing file or folder, whatever its message has been rewritten to. *)
Definition isNotExistError (e : error) : bool :=
  match e with
  | FileDoesNotExist _ => true
  | _ => false
  end.

Inductive stuck : Type := Hang | OutOfFuel.

Inductive completion (A : Type) : Type :=
| Return (a : A)
| Throw (e : error)
| Stuck (s : stuck).
Arguments Return {A} _.
Arguments Throw {A} _.
Arguments Stuck {A} _.

Definition bind {A B : Type} (c : completion A) (k : A -> completion B) : completion B :=
  match c with
  | Return a => k a
  | Throw e => Throw e
  | Stuck s => Stuck s
  end.

Notation "'do' x <- c ; k" := (bind c (fun x => k))
  (at level 10, x pattern, c at level 100, k at level 200).

(** ** JavaScript primitives used by the merge *)

Fixpoint assoc {A : Type} (name : string) (l : list (string * A)) : option A :=
  match l with
  | [] => None
  | (k, v) :: rest => if String.eqb k name then Some v else assoc name rest
  end.

(** [obj[name] = v] on a list of own properties: overwrite in place, or add
    at the end. *)
Fixpoint setProp {A : Type} (l : list (string * A)) (name : string) (v : A)
  : list (string * A) :=
  match l with
  | [] => [(name, v)]
  | (k, w) :: rest =>
      if String.eqb k name then (k, v) :: rest else (k, w) :: setProp rest name v
  end.

(** The object spread [{ ...a, ...b }]. *)
Definition spread {A : Type} (a b : list (string * A)) : list (string * A) :=
  fold_left (fun acc kv => setProp acc (fst kv) (snd kv)) b a.

Definition indexKey (i : nat) : string := pretty i.

Fixpoint arrayEntriesFrom (i : nat) (items : list value) : list (string * value) :=
  match items with
  | [] => []
  | v :: rest => (indexKey i, v) :: arrayEntriesFrom (S i) rest
  end.

Definition arrayEntries (items : list value) : list (string * value) :=
  arrayEntriesFrom 0 items.

Fixpoint stringEntriesFrom (i : nat) (s : string) : list (string * value) :=
  match s with
  | EmptyString => []
  | String c rest => (indexKey i, VStr (String c EmptyString)) :: stringEntriesFrom (S i) rest
  end.

(** The own enumerable string-keyed properties of [v || {}]. *)
Definition ownEntries (v : value) : list (string * value) :=
  match v with
  | VObj _ props => props
  | VArr _ items => arrayEntries items
  | VStr s => stringEntriesFrom 0 s
  | _ => []
  end.

(** [Object.keys(v || {})]. *)
Definition ownKeys (v : value) : list string := map fst (ownEntries v).

(** [(v || {})[name]]. *)
Definition getProp (v : value) (name : string) : value :=
  match assoc name (ownEntries v) with
  | Some x => x
  | None => VUndefined
  end.

Definition isUndefined (v : value) : bool :=
  match v with VUndefined => true | _ => false end.

Definition isNull (v : value) : bool :=
  match v with VNull => true | _ => false end.

Definition isArray (v : value) : bool :=
  match v with VArr _ _ => true | _ => false end.

(** [typeof v === 'object'], which holds of [null] too. *)
Definition typeofObject (v : value) : bool :=
  match v with
  | VNull | VArr _ _ | VObj _ _ => true
  | _ => false
  end.

Definition truthy (v : value) : bool :=
  match v with
  | VUndefined | VNull => false
  | VBool b => b
  | VNum n => negb (Z.eqb n 0)
  | VStr s => negb (String.eqb s "")
  | VArr _ _ | VObj _ _ => true
  end.

Definition annotationOf (v : value) : option annotation :=
  match v with
  | VArr a _ | VObj a _ => a
  | _ => None
  end.

Definition lowerAscii (c : ascii) : ascii :=
  let n := nat_of_ascii c in
  if (65 <=? n)%nat && (n <=? 90)%nat then ascii_of_nat (n + 32) else c.

Fixpoint toLowerCase (s : string) : string :=
  match s with
  | EmptyString => EmptyString
  | String c rest => String (lowerAscii c) (toLowerCase rest)
  end.

(** ** Inheritance declarations *)

Module InheritanceType.
Inductive t : Type := append | merge | replace | custom.
End InheritanceType.

(** What a call into a collaborator or into caller-supplied code does: it
    throws or it returns. *)
Definition called {A : Type} (r : error + A) : completion A :=
  match r with
  | inl e => Throw e
  | inr a => Return a
  end.

Definition PropertyInheritanceCustomFunction : Type :=
  value -> value -> error + value.

(** [IPropertyInheritance], with the [inheritanceFunction] that
    [ICustomPropertyInheritance] adds; [None] when it is missing or not a
    function. *)
Record IPropertyInheritance : Type := mkInheritance {
  inheritanceType : InheritanceType.t;
  inheritanceFunction : option PropertyInheritanceCustomFunction
}.

Definition plainInheritance (t : InheritanceType.t) : IPropertyInheritance :=
  mkInheritance t None.

Definition IPropertiesInheritance : Type := list (string * IPropertyInheritance).

(** ** Provenance accessors *)

Definition getObjectSourceFilePath (obj : value) : completion (option string) :=
  match obj with
  | VUndefined | VNull => Throw TypeErrorOnNullish
  | _ =>
      match annotationOf obj with
      | Some a => Return (configurationFilePath a)
      | None => Return None
      end
  end.

Definition getPropertyOriginalValue (parentObject : value) (propertyName : string)
  : completion value :=
  match parentObject with
  | VUndefined | VNull => Throw TypeErrorOnNullish
  | _ =>
      match annotationOf parentObject with
      | Some a =>
          match assoc propertyName (originalValues a) with
          | Some v => Return v
          | None => Return VUndefined
          end
      | None => Return VUndefined
      end
  end.

(** ** The annotator *)

(** [originalValues: { ...obj }] copies the own properties of [obj], the
    elements of an array under their indices.  The parser hands over values
    that carry no annotation yet. *)
Definition _annotateProperty (resolvedConfigurationFilePath : string) (obj : value) : value :=
  match obj with
  | VArr _ items =>
      VArr (Some (mkAnnotation (Some resolvedConfigurationFilePath) (arrayEntries items))) items
  | VObj _ props =>
      VObj (Some (mkAnnotation (Some resolvedConfigurationFilePath) props)) props
  | _ => obj
  end.

(** The source annotates a node and then its children; the node's
    [originalValues] hold references to those children, so once the walk is
    over they show the annotated children.  The tree is therefore built
    bottom-up. *)
Fixpoint _annotateProperties (resolvedConfigurationFilePath : string) (obj : value) : value :=
  match obj with
  | VArr a items =>
      _annotateProperty resolvedConfigurationFilePath
        (VArr a (map (_annotateProperties resolvedConfigurationFilePath) items))
  | VObj a props =>
      _annotateProperty resolvedConfigurationFilePath
        (VObj a (map (fun kv =>
                        (fst kv, _annotateProperties resolvedConfigurationFilePath (snd kv)))
                     props))
  | _ => obj
  end.

(** ** Merge directives *)

(** The part of [s] before its first dot, and the rest from that dot on. *)
Fixpoint splitAtDot (s : string) : string * string :=
  match s with
  | EmptyString => (EmptyString, EmptyString)
  | String c rest =>
      if Ascii.eqb c "."%char then (EmptyString, s)
      else let (a, b) := splitAtDot rest in (String c a, b)
  end.

(** [propertyName.match(CONFIGURATION_FILE_MERGE_BEHAVIOR_FIELD_REGEX)],
    for the pattern [/^\$([^\.]+)\.mergeBehavior$/]: the captured group. *)
Definition matchMergeBehaviorField (propertyName : string) : option string :=
  match propertyName with
  | String c rest =>
      if Ascii.eqb c "$"%char then
        let (target, suffix) := splitAtDot rest in
        if negb (String.eqb target "") && String.eqb suffix ".mergeBehavior"
        then Some target else None
      else None
  | EmptyString => None
  end.

Definition inSet (name : string) (s : list string) : bool :=
  existsb (String.eqb name) s.

(** [ignoreProperties && ignoreProperties.has(propertyName)]. *)
Definition isIgnored (ignoreProperties : option (gset string)) (propertyName : string) : bool :=
  match ignoreProperties with
  | Some s => bool_decide (propertyName ∈ s)
  | None => false
  end.

(** First pass of [_mergeObjects]: gather and strip the merge behavior
    annotations of [currentObject].  [names] is what is left to visit of
    [currentObjectPropertyNames]. *)
Fixpoint gatherMergeBehaviors (currentObject : value) (ignoreProperties : option (gset string))
    (currentObjectPropertyNames names : list string)
    (mergeBehaviorMap : gmap string IPropertyInheritance)
    (filteredObjectPropertyNames : list string)
  : completion (gmap string IPropertyInheritance * list string) :=
  match names with
  | [] => Return (mergeBehaviorMap, filteredObjectPropertyNames)
  | propertyName :: rest =>
      let continue m f :=
        gatherMergeBehaviors currentObject ignoreProperties currentObjectPropertyNames rest m f in
      if isIgnored ignoreProperties propertyName
      then continue mergeBehaviorMap filteredObjectPropertyNames
      else
        match matchMergeBehaviorField propertyName with
        | Some mergeTargetPropertyName =>
            let mergeBehaviorRaw := getProp currentObject propertyName in
            if negb (inSet mergeTargetPropertyName currentObjectPropertyNames)
            then Throw (DirectiveWithoutTarget propertyName)
            else
              match mergeBehaviorRaw with
              | VStr raw =>
                  if negb (typeofObject (getProp currentObject mergeTargetPropertyName))
                  then Throw (DirectiveTargetNotObject propertyName)
                  else
                    let lowered := toLowerCase raw in
                    if String.eqb lowered "append" then
                      continue (<[mergeTargetPropertyName :=
                                    plainInheritance InheritanceType.append]> mergeBehaviorMap)
                               filteredObjectPropertyNames
                    else if String.eqb lowered "merge" then
                      continue (<[mergeTargetPropertyName :=
                                    plainInheritance InheritanceType.merge]> mergeBehaviorMap)
                               filteredObjectPropertyNames
                    else if String.eqb lowered "replace" then
                      continue (<[mergeTargetPropertyName :=
                                    plainInheritance InheritanceType.replace]> mergeBehaviorMap)
                               filteredObjectPropertyNames
                    else Throw (DirectiveUnknownBehavior propertyName raw)
              | _ => Throw (DirectiveNotAString propertyName mergeBehaviorRaw)
              end
        | None =>
            continue mergeBehaviorMap (filteredObjectPropertyNames ++ [propertyName])%list
        end
  end.

(** [new Set<string>([...a])]: first occurrences, in order. *)
Fixpoint setOf (seen : list string) (l : list string) : list string :=
  match l with
  | [] => []
  | x :: rest => if inSet x seen then setOf seen rest else x :: setOf (x :: seen) rest
  end.

(** ** The merger *)

(** The closures [usePropertyValue] and [useParentPropertyValue] of the
    merge loop.  The result pairs the entry written to
    [resultAnnotation.originalValues] with [newValue]. *)
Definition usePropertyValue (currentObject : value) (propertyName : string)
    (propertyValue : value) : completion (option value * value) :=
  do original <- getPropertyOriginalValue currentObject propertyName;
  Return (Some original, propertyValue).

Definition useParentPropertyValue (parentObject : value) (propertyName : string)
    (parentPropertyValue : value) : completion (option value * value) :=
  do original <- getPropertyOriginalValue parentObject propertyName;
  Return (Some original, parentPropertyValue).

(** The inheritance in force for one property: the file's own directive,
    else the declared one, else [append] for two arrays and [replace]
    otherwise. *)
Definition effectiveInheritance (mergeBehaviorMap : gmap string IPropertyInheritance)
    (configuredPropertyInheritance : option IPropertiesInheritance)
    (propertyName : string) (propertyValue parentPropertyValue : value)
  : IPropertyInheritance :=
  match mergeBehaviorMap !! propertyName with
  | Some directive => directive
  | None =>
      let bothAreArrays := isArray propertyValue && isArray parentPropertyValue in
      let defaultInheritanceType :=
        if bothAreArrays then plainInheritance InheritanceType.append
        else plainInheritance InheritanceType.replace in
      match configuredPropertyInheritance with
      | Some configured =>
          match assoc propertyName configured with
          | Some declared => declared
          | None => defaultInheritanceType
          end
      | None => defaultInheritanceType
      end
  end.

(** The body of the merge loop for one property.  [recurse parent child] is
    the nested call [this._mergeObjects(parent, child, path)].  The
    [default] branch of the source's [switch] has no counterpart: the
    inheritance type is one of the four. *)
Definition mergeProperty (recurse : value -> value -> completion value)
    (parentObject currentObject : value) (propertyInheritance : IPropertyInheritance)
    (propertyName : string) : completion (option value * value) :=
  let propertyValue := getProp currentObject propertyName in
  let parentPropertyValue := getProp parentObject propertyName in
  if negb (isUndefined propertyValue) && isUndefined parentPropertyValue then
    usePropertyValue currentObject propertyName propertyValue
  else if negb (isUndefined parentPropertyValue) && isUndefined propertyValue then
    useParentPropertyValue parentObject propertyName parentPropertyValue
  else
    match inheritanceType propertyInheritance with
    | InheritanceType.replace =>
        if negb (isUndefined propertyValue) then
          usePropertyValue currentObject propertyName propertyValue
        else useParentPropertyValue parentObject propertyName parentPropertyValue
    | InheritanceType.append =>
        if negb (isUndefined propertyValue) && isUndefined parentPropertyValue then
          usePropertyValue currentObject propertyName propertyValue
        else if isUndefined propertyValue && negb (isUndefined parentPropertyValue) then
          useParentPropertyValue parentObject propertyName parentPropertyValue
        else
          match propertyValue, parentPropertyValue with
          | VArr childAnnotation childItems, VArr parentAnnotation parentItems =>
              match parentAnnotation, childAnnotation with
              | Some pa, Some ca =>
                  Return (None,
                          VArr (Some (mkAnnotation None
                                        (spread (originalValues pa) (originalValues ca))))
                               (parentItems ++ childItems)%list)
              | _, _ => Throw TypeErrorOnNullish
              end
          | _, _ => Throw (AppendOnNonArray propertyName)
          end
    | InheritanceType.merge =>
        if isNull parentPropertyValue || isNull propertyValue then
          Throw (MergeOnNull propertyName)
        else if negb (isUndefined propertyValue) && isUndefined parentPropertyValue then
          usePropertyValue currentObject propertyName propertyValue
        else if isUndefined propertyValue && negb (isUndefined parentPropertyValue) then
          useParentPropertyValue parentObject propertyName parentPropertyValue
        else if (truthy propertyValue && negb (typeofObject propertyValue))
                || (truthy parentPropertyValue && negb (typeofObject parentPropertyValue)) then
          Throw (MergeOnPrimitive propertyName)
        else if isArray propertyValue || isArray parentPropertyValue then
          Throw (MergeOnNonKeyedObject propertyName)
        else
          do merged <- recurse parentPropertyValue propertyValue;
          Return (None, merged)
    | InheritanceType.custom =>
        match inheritanceFunction propertyInheritance with
        | None => Throw CustomWithoutFunction
        | Some inheritanceFunction =>
            do combined <- called (inheritanceFunction propertyValue parentPropertyValue);
            Return (None, combined)
        end
    end.

(** The merge loop over [propertyNames], threading the [originalValues] of
    the result annotation and the properties of the result. *)
Fixpoint mergeProperties (recurse : value -> value -> completion value)
    (parentObject currentObject : value)
    (mergeBehaviorMap : gmap string IPropertyInheritance)
    (configuredPropertyInheritance : option IPropertiesInheritance)
    (propertyNames : list string)
    (resultOriginalValues resultProps : list (string * value))
  : completion (list (string * value) * list (string * value)) :=
  match propertyNames with
  | [] => Return (resultOriginalValues, resultProps)
  | propertyName :: rest =>
      let propertyInheritance :=
        effectiveInheritance mergeBehaviorMap configuredPropertyInheritance propertyName
          (getProp currentObject propertyName) (getProp parentObject propertyName) in
      do resolved <- mergeProperty recurse parentObject currentObject propertyInheritance
                       propertyName;
      mergeProperties recurse parentObject currentObject mergeBehaviorMap
        configuredPropertyInheritance rest
        match fst resolved with
        | Some original => setProp resultOriginalValues propertyName original
        | None => resultOriginalValues
        end
        (setProp resultProps propertyName (snd resolved))
  end.

(** One activation of [_mergeObjects]. *)
Definition mergeObjectsStep (recurse : value -> value -> completion value)
    (parentObject currentObject : value) (resolvedConfigurationFilePath : string)
    (configuredPropertyInheritance : option IPropertiesInheritance)
    (ignoreProperties : option (gset string)) : completion value :=
  let currentObjectPropertyNames := ownKeys currentObject in
  do gathered <- gatherMergeBehaviors currentObject ignoreProperties
                   currentObjectPropertyNames currentObjectPropertyNames ∅ [];
  let propertyNames := setOf [] (ownKeys parentObject ++ snd gathered)%list in
  do merged <- mergeProperties recurse parentObject currentObject (fst gathered)
                 configuredPropertyInheritance propertyNames [] [];
  Return (VObj (Some (mkAnnotation (Some resolvedConfigurationFilePath) (fst merged)))
               (snd merged)).

Fixpoint mergeObjectsFuel (fuel : nat) (parentObject currentObject : value)
    (resolvedConfigurationFilePath : string)
    (configuredPropertyInheritance : option IPropertiesInheritance)
    (ignoreProperties : option (gset string)) : completion value :=
  match fuel with
  | O => Stuck OutOfFuel
  | S fuel' =>
      mergeObjectsStep
        (fun parent child =>
           mergeObjectsFuel fuel' parent child resolvedConfigurationFilePath None None)
        parentObject currentObject resolvedConfigurationFilePath
        configuredPropertyInheritance ignoreProperties
  end.

(** Nesting depth of a value; the recursion of [_mergeObjects] descends into
    the child one level per call. *)
Fixpoint height (v : value) : nat :=
  match v with
  | VArr _ items => S (list_max (map height items))
  | VObj _ props => S (list_max (map (fun kv => height (snd kv)) props))
  | _ => O
  end.

Definition _mergeObjects (parentObject currentObject : value)
    (resolvedConfigurationFilePath : string)
    (configuredPropertyInheritance : option IPropertiesInheritance)
    (ignoreProperties : option (gset string)) : completion value :=
  mergeObjectsFuel (2 + height currentObject) parentObject currentObject
    resolvedConfigurationFilePath configuredPropertyInheritance ignoreProperties.

(** The names the merge loop runs over, once the first pass has gone
    through. *)
Definition mergePropertyNames (parentObject currentObject : value)
    (ignoreProperties : option (gset string)) : completion (list string) :=
  let currentObjectPropertyNames := ownKeys currentObject in
  do gathered <- gatherMergeBehaviors currentObject ignoreProperties
                   currentObjectPropertyNames currentObjectPropertyNames ∅ [];
  Return (setOf [] (ownKeys parentObject ++ snd gathered)%list).

(** The directives the first pass has recorded. *)
Definition mergeBehaviorMapOf (currentObject : value)
    (ignoreProperties : option (gset string))
  : completion (gmap string IPropertyInheritance) :=
  let currentObjectPropertyNames := ownKeys currentObject in
  do gathered <- gatherMergeBehaviors currentObject ignoreProperties
                   currentObjectPropertyNames currentObjectPropertyNames ∅ [];
  Return (fst gathered).

(** A child value the merge inheritance hands to the nested call: neither
    null nor an array, and an object if it is truthy. *)
Definition passesMergeChecks (v : value) : Prop :=
  isNull v = false /\ isArray v = false /\ (truthy v = true -> typeofObject v = true).

(** The failures of the first pass: a malformed merge directive. *)
Definition isMergeDirectiveError (e : error) : bool :=
  match e with
  | DirectiveWithoutTarget _ | DirectiveNotAString _ _
  | DirectiveTargetNotObject _ | DirectiveUnknownBehavior _ _ => true
  | _ => false
  end.

Fixpoint hasDot (s : string) : bool :=
  match s with
  | EmptyString => false
  | String c rest => Ascii.eqb c "."%char || hasDot rest
  end.

(** The behavior a directive names, if it names one. *)
Definition behaviorOf (raw : string) : option InheritanceType.t :=
  let lowered := toLowerCase raw in
  if String.eqb lowered "append" then Some InheritanceType.append
  else if String.eqb lowered "merge" then Some InheritanceType.merge
  else if String.eqb lowered "replace" then Some InheritanceType.replace
  else None.

(** What makes the directive [propertyName], which targets [target],
    malformed in [currentObject]. *)
Definition malformedDirective (currentObject : value) (propertyName target : string) : bool :=
  negb (inSet target (ownKeys currentObject))
  || match getProp currentObject propertyName with
     | VStr raw =>
         negb (typeofObject (getProp currentObject target))
         || match behaviorOf raw with Some _ => false | None => true end
     | _ => true
     end.

(** The names of the child that take part in the merge: neither ignored
    nor a merge directive. *)
Definition isMergedName (ignoreProperties : option (gset string)) (name : string) : bool :=
  negb (isIgnored ignoreProperties name)
  && match matchMergeBehaviorField name with Some _ => false | None => true end.

(** What the annotation of [holder] recorded for [name]. *)
Definition recordedOriginal (holder : value) (name : string) : value :=
  match annotationOf holder with
  | Some a =>
      match assoc name (originalValues a) with
      | Some v => v
      | None => VUndefined
      end
  | None => VUndefined
  end.

(** ** The loader *)

(** What the file system holds at a path; a path it does not map is a file
    that does not exist. *)
Inductive fileEntry : Type :=
| FileText (text : string)
| FileUnreadable (message : string).

(** The collaborators of the loader, each specified only at its interface:
    [JsonFile.parseString] (the cause of the failure, or the parsed text),
    [nodeJsPath.resolve] and [nodeJsPath.dirname], [Import.resolveModule]
    (module path, base folder), the loop that hands every entry of
    [_jsonPathMetadata] to the JSONPath engine and rewrites the selected
    nodes through [_resolvePathProperty] (file path, annotated document), and
    [JsonSchema.validateObject], which answers with the mismatch if any. *)
Record Collaborators : Type := {
  parseString : string -> string + value;
  resolve : string -> string -> string;
  dirname : string -> string;
  resolveModule : value -> string -> error + string;
  rewriteJsonPaths : string -> value -> error + value;
  validateObject : value -> string -> option string
}.

(** The part of [RigConfig] the loader consults.  A rig that was found is
    taken to answer with its profile folder. *)
Record RigConfig : Type := {
  rigFound : bool;
  getResolvedProfileFolderAsync : string
}.

(** The declaration a [ConfigurationFile] is constructed from. *)
Record ConfigurationFile : Type := {
  projectRelativeFilePath : string;
  _propertyInheritanceTypes : IPropertiesInheritance
}.

(** A promise held by [_configPromiseCache]. *)
Inductive promise : Type :=
| Pending
| Fulfilled (v : value)
| Rejected (e : error).

(** The state that outlives a call: the promise cache of the instance, and
    the paths handed to [FileSystem.readFileAsync] so far, latest first. *)
Record state : Type := mkState {
  _configPromiseCache : gmap string promise;
  readLog : list string
}.

Definition initialState : state := mkState ∅ [].

Definition cacheSet (path : string) (p : promise) (st : state) : state :=
  mkState (<[path := p]> (_configPromiseCache st)) (readLog st).

Definition recordRead (path : string) (st : state) : state :=
  mkState (_configPromiseCache st) (path :: readLog st).

(** [await] on a promise of the cache.  Within one call chain a promise that
    is still pending belongs to a load further up the chain, which is itself
    waiting for this one. *)
Definition await (p : promise) : completion value :=
  match p with
  | Pending => Stuck Hang
  | Fulfilled v => Return v
  | Rejected e => Throw e
  end.

(** The promise of a load settles with what the load did. *)
Definition settle (path : string) (r : completion value) (st : state) : state :=
  match r with
  | Return v => cacheSet path (Fulfilled v) st
  | Throw e => cacheSet path (Rejected e) st
  | Stuck _ => st
  end.

(** What a load leaves behind: its completion, the state, and the set of
    visited paths, which every load of one chain shares. *)
Definition effect (A : Type) : Type := (completion A * state * gset string)%type.

Definition loader : Type :=
  string -> gset string -> option RigConfig -> state -> effect value.

Section Loader.
Context (E : Collaborators) (C : ConfigurationFile) (fs : gmap string fileEntry).

Definition _getConfigurationFilePathForProject (projectPath : string) : string :=
  resolve E projectPath (projectRelativeFilePath C).

Definition _mergeConfigurationFiles (parentConfiguration configurationJson : value)
    (resolvedConfigurationFilePath : string) : completion value :=
  _mergeObjects parentConfiguration configurationJson resolvedConfigurationFilePath
    (Some (_propertyInheritanceTypes C)) (Some {["extends"; "$schema"]}).

(** [loadWithCache] stands for [_loadConfigurationFileInnerWithCacheAsync],
    which this function and the next call back into. *)
Definition _tryLoadConfigurationFileInRigAsync (loadWithCache : loader)
    (rigConfig : RigConfig) (visitedConfigurationFilePaths : gset string) (st : state)
  : effect value :=
  if rigFound rigConfig then
    let rigProfileFolder := getResolvedProfileFolderAsync rigConfig in
    match loadWithCache (resolve E rigProfileFolder (projectRelativeFilePath C))
            visitedConfigurationFilePaths None st with
    | (Throw e, st', visited') =>
        if negb (isNotExistError e) then (Throw e, st', visited')
        else (Return VUndefined, st', visited')
    | other => other
    end
  else (Return VUndefined, st, visitedConfigurationFilePaths).

(** The tail of [_loadConfigurationFileInnerAsync]: merge with the parent
    and validate. *)
Definition mergeAndValidate (parentConfiguration configurationJson : value)
    (resolvedConfigurationFilePath : string) : completion value :=
  do result <- _mergeConfigurationFiles parentConfiguration configurationJson
                 resolvedConfigurationFilePath;
  match validateObject E result resolvedConfigurationFilePath with
  | Some cause => Throw (SchemaMismatch cause)
  | None => Return result
  end.

Definition _loadConfigurationFileInnerAsync (loadWithCache : loader)
    (resolvedConfigurationFilePath : string) (visitedConfigurationFilePaths : gset string)
    (rigConfig : option RigConfig) (st0 : state) : effect value :=
  let st := recordRead resolvedConfigurationFilePath st0 in
  match fs !! resolvedConfigurationFilePath with
  | None =>
      let e := FileDoesNotExist ("File does not exist: " ++ resolvedConfigurationFilePath) in
      match rigConfig with
      | Some rig =>
          match _tryLoadConfigurationFileInRigAsync loadWithCache rig
                  visitedConfigurationFilePaths st with
          | (Return rigResult, st', visited') =>
              if truthy rigResult then (Return rigResult, st', visited')
              else (Throw e, st', visited')
          | other => other
          end
      | None => (Throw e, st, visitedConfigurationFilePaths)
      end
  | Some (FileUnreadable message) =>
      (Throw (ReadFailure message), st, visitedConfigurationFilePaths)
  | Some (FileText fileText) =>
      match parseString E fileText with
      | inl cause =>
          (Throw (ParseFailure resolvedConfigurationFilePath cause), st,
           visitedConfigurationFilePaths)
      | inr parsed =>
          match rewriteJsonPaths E resolvedConfigurationFilePath
                  (_annotateProperties resolvedConfigurationFilePath parsed) with
          | inl e => (Throw e, st, visitedConfigurationFilePaths)
          | inr configurationJson =>
              if isUndefined configurationJson || isNull configurationJson then
                (Throw TypeErrorOnNullish, st, visitedConfigurationFilePaths)
              else
                let extends := getProp configurationJson "extends" in
                if truthy extends then
                  match resolveModule E extends (dirname E resolvedConfigurationFilePath) with
                  | inl e =>
                      (Throw (if isNotExistError e
                              then BrokenExtends resolvedConfigurationFilePath extends
                              else e),
                       st, visitedConfigurationFilePaths)
                  | inr resolvedParentConfigPath =>
                      match loadWithCache resolvedParentConfigPath
                              visitedConfigurationFilePaths None st with
                      | (Return parentConfiguration, st', visited') =>
                          (mergeAndValidate parentConfiguration configurationJson
                             resolvedConfigurationFilePath, st', visited')
                      | (Throw e, st', visited') =>
                          (Throw (if isNotExistError e
                                  then BrokenExtends resolvedConfigurationFilePath extends
                                  else e),
                           st', visited')
                      | other => other
                      end
                  end
                else
                  (mergeAndValidate VUndefined configurationJson
                     resolvedConfigurationFilePath, st, visitedConfigurationFilePaths)
          end
      end
  end.

(** One activation of [_loadConfigurationFileInnerWithCacheAsync].  On a
    cache miss the promise of the new load is cached before the loop check;
    the load itself runs when its promise is awaited.  Should the check
    throw on a miss, the load that was started still runs to its end and
    settles its promise. *)
Definition loadWithCacheStep (loadWithCache : loader)
    (resolvedConfigurationFilePath : string) (visitedConfigurationFilePaths : gset string)
    (rigConfig : option RigConfig) (st : state) : effect value :=
  match _configPromiseCache st !! resolvedConfigurationFilePath with
  | Some cacheEntryPromise =>
      if decide (resolvedConfigurationFilePath ∈ visitedConfigurationFilePaths) then
        (Throw (LoopDetected resolvedConfigurationFilePath), st, visitedConfigurationFilePaths)
      else
        (await cacheEntryPromise, st,
         {[resolvedConfigurationFilePath]} ∪ visitedConfigurationFilePaths)
  | None =>
      let st1 := cacheSet resolvedConfigurationFilePath Pending st in
      if decide (resolvedConfigurationFilePath ∈ visitedConfigurationFilePaths) then
        match _loadConfigurationFileInnerAsync loadWithCache resolvedConfigurationFilePath
                visitedConfigurationFilePaths rigConfig st1 with
        | (r, st2, visited2) =>
            (Throw (LoopDetected resolvedConfigurationFilePath),
             settle resolvedConfigurationFilePath r st2, visited2)
        end
      else
        match _loadConfigurationFileInnerAsync loadWithCache resolvedConfigurationFilePath
                ({[resolvedConfigurationFilePath]} ∪ visitedConfigurationFilePaths)
                rigConfig st1 with
        | (r, st2, visited2) => (r, settle resolvedConfigurationFilePath r st2, visited2)
        end
  end.

Fixpoint _loadConfigurationFileInnerWithCacheAsync (fuel : nat) : loader :=
  match fuel with
  | O => fun _ visited _ st => (Stuck OutOfFuel, st, visited)
  | S fuel' => loadWithCacheStep (_loadConfigurationFileInnerWithCacheAsync fuel')
  end.

(** Every nested load is of a file that exists and is not yet cached, apart
    from the requested file and its fallback. *)
Definition loadFuel : nat := 2 + size fs.

Definition loadConfigurationFileForProjectAsync (projectPath : string)
    (rigConfig : option RigConfig) (st : state) : completion value * state :=
  let projectConfigurationFilePath := _getConfigurationFilePathForProject projectPath in
  match _loadConfigurationFileInnerWithCacheAsync loadFuel projectConfigurationFilePath
          ∅ rigConfig st with
  | (r, st', _) => (r, st')
  end.

Definition tryLoadConfigurationFileForProjectAsync (projectPath : string)
    (rigConfig : option RigConfig) (st : state) : completion value * state :=
  match loadConfigurationFileForProjectAsync projectPath rigConfig st with
  | (Throw e, st') =>
      if isNotExistError e then (Return VUndefined, st') else (Throw e, st')
  | other => other
  end.

End Loader.


(** ** Invariants of the promise cache *)

(** Between two calls every promise of the cache has settled. *)
Definition settledState (st : state) : Prop :=
  forall path, _configPromiseCache st !! path <> Some Pending.

(** During a call, the loads that are still pending are loads of visited
    paths. *)
Definition pendingWithin (st : state) (visited : gset string) : Prop :=
  forall path, _configPromiseCache st !! path = Some Pending -> path ∈ visited.

(** The files no load has been started for. *)
Definition uncachedFiles (fs : gmap string fileEntry) (st : state) : nat :=
  size (dom fs ∖ dom (_configPromiseCache st)).

(** What is asked of the loader a load calls back into: started within its
    budget on a state whose pending loads are all visited, it completes and
    leaves no pending load that was not there before. *)
Definition completesWithin (fs : gmap string fileEntry) (recurse : loader) (budget : nat)
  : Prop :=
  forall path visited st,
    pendingWithin st visited ->
    uncachedFiles fs st < budget ->
    forall r st' visited',
      recurse path visited None st = (r, st', visited') ->
      (forall s, r <> Stuck s)
      /\ (forall p, _configPromiseCache st' !! p = Some Pending ->
                     _configPromiseCache st !! p = Some Pending).

(** [p] extends [q]: the file at [p] reads, parses, is rewritten to a
    document with a truthy [extends], and that reference resolves to [q]. *)
Definition extendsTo (E : Collaborators) (fs : gmap string fileEntry) (p q : string) : Prop :=
  exists text parsed configurationJson,
    fs !! p = Some (FileText text)
    /\ parseString E text = inr parsed
    /\ rewriteJsonPaths E p (_annotateProperties p parsed) = inr configurationJson
    /\ isUndefined configurationJson || isNull configurationJson = false
    /\ truthy (getProp configurationJson "extends") = true
    /\ resolveModule E (getProp configurationJson "extends") (dirname E p) = inr q.

(** An [extends] chain from [p] through [chain] to [target]. *)
Fixpoint extendsChain (E : Collaborators) (fs : gmap string fileEntry)
    (p : string) (chain : list string) (target : string) : Prop :=
  match chain with
  | [] => extendsTo E fs p target
  | q :: rest => extendsTo E fs p q /\ extendsChain E fs q rest target
  end.

(** ** What is assumed of caller-supplied code *)

(** The failures of the JSONPath rewriting and of the custom inheritance
    functions are not the failure of a read of a missing file. *)
Definition rewriteNeverMissesFile (E : Collaborators) : Prop :=
  forall path json e, rewriteJsonPaths E path json = inl e -> isNotExistError e = false.

Definition customNeverMissesFile (configured : option IPropertiesInheritance) : Prop :=
  forall entries name inheritance f propertyValue parentPropertyValue e,
    configured = Some entries ->
    assoc name entries = Some inheritance ->
    inheritanceFunction inheritance = Some f ->
    f propertyValue parentPropertyValue = inl e ->
    isNotExistError e = false.

(** The fallback of a call has nothing to offer: there is no rig, or none
    was found, or the rig has no such file. *)
Definition fallbackIsMissing (E : Collaborators) (C : ConfigurationFile)
    (fs : gmap string fileEntry) (path : string) (rigConfig : option RigConfig) : Prop :=
  match rigConfig with
  | None => True
  | Some rig =>
      rigFound rig = false
      \/ (resolve E (getResolvedProfileFolderAsync rig) (projectRelativeFilePath C) <> path
          /\ fs !! resolve E (getResolvedProfileFolderAsync rig) (projectRelativeFilePath C)
             = None)
  end.

(** ** What the specification asks of an appended array *)

Definition itemsOf (v : value) : list value :=
  match v with
  | VArr _ items => items
  | _ => []
  end.

(** Looked up by the position an element has in the merged array,
    [getPropertyOriginalValue] answers with what the element's own array
    recorded for it. *)
Definition recoversSourcePerElement (parentArray childArray merged : value) : Prop :=
  forall i : nat,
    (i < length (itemsOf parentArray) ->
     getPropertyOriginalValue merged (indexKey i)
     = getPropertyOriginalValue parentArray (indexKey i))
    /\ (i < length (itemsOf childArray) ->
        getPropertyOriginalValue merged (indexKey (length (itemsOf parentArray) + i))
        = getPropertyOriginalValue childArray (indexKey i)).

(** ** Sample documents *)

Module Sample.

(** A JSON object and a JSON array as the parser hands them over. *)
Definition object (props : list (string * value)) : value := VObj None props.
Definition array (items : list value) : value := VArr None items.

Definition ignoreProperties : option (gset string) := Some {["extends"; "$schema"]}.

Definition parentList : value :=
  _annotateProperties "/parent.json" (object [("list", array [VNum 1; VNum 2])]).
Definition childList : value :=
  _annotateProperties "/child.json" (object [("list", array [VNum 3; VNum 4])]).
Definition appendList : option IPropertiesInheritance :=
  Some [("list", plainInheritance InheritanceType.append)].


(** A child that says nothing of the list. *)
Definition childWithoutList : value :=
  _annotateProperties "/child.json" (object [("other", VBool true)]).

(** The declaration of a tool whose [settings] property merges. *)
Definition mergeSettings : option IPropertiesInheritance :=
  Some [("settings", plainInheritance InheritanceType.merge)].
Definition parentSettings : value :=
  _annotateProperties "/parent.json"
    (object [("settings", object [("a", VNum 1); ("b", VNum 2)])]).
Definition childSettings : value :=
  _annotateProperties "/child.json"
    (object [("settings", object [("b", VNum 3); ("c", VNum 4)])]).
(** A child that gives the number 0 where an object is expected. *)
Definition childSettingsZero : value :=
  _annotateProperties "/child.json" (object [("settings", VNum 0)]).

(** The directive example of the specification. *)
Definition parentTags : value :=
  _annotateProperties "/parent.json" (object [("tags", array [VStr "b"])]).
Definition childTags : value :=
  _annotateProperties "/child.json"
    (object [("tags", array [VStr "a"]); ("$tags.mergeBehavior", VStr "append")]).
(** The same directive in capitals, on a property declared to replace. *)
Definition childTagsCapitals : value :=
  _annotateProperties "/child.json"
    (object [("tags", array [VStr "a"]); ("$tags.mergeBehavior", VStr "APPEND")]).
Definition replaceTags : option IPropertiesInheritance :=
  Some [("tags", plainInheritance InheritanceType.replace)].

(** A directive whose target is null. *)
Definition parentOptions : value :=
  _annotateProperties "/parent.json" (object [("options", object [("a", VNum 1)])]).
Definition childOptionsNull : value :=
  _annotateProperties "/child.json"
    (object [("options", VNull); ("$options.mergeBehavior", VStr "replace")]).

(** The documents behind the texts of the files below. *)
Definition extendsB : value := object [("extends", VStr "/cfg/b.json"); ("x", VNum 1)].
Definition extendsTool : value := object [("extends", VStr "/proj/tool.json"); ("y", VNum 2)].
Definition extendsMissing : value :=
  object [("extends", VStr "/cfg/missing.json"); ("x", VNum 1)].
Definition withSchema : value := object [("$schema", VStr "tool.schema.json"); ("y", VNum 1)].
Definition plain : value := object [("y", VNum 1)].

(** Collaborators over a handful of files.  A file's text stands for the
    document it parses to; a module reference is the absolute path it
    resolves to; nothing is rewritten and every document fits the schema. *)
Definition documentOf (text : string) : string + value :=
  if String.eqb text "extends-b" then inr extendsB
  else if String.eqb text "extends-tool" then inr extendsTool
  else if String.eqb text "extends-missing" then inr extendsMissing
  else if String.eqb text "with-schema" then inr withSchema
  else if String.eqb text "plain" then inr plain
  else inl "Unexpected token".

Definition collaborators : Collaborators := {|
  parseString := documentOf;
  resolve := fun folder relative => folder ++ "/" ++ relative;
  dirname := fun _ => "/cfg";
  resolveModule := fun modulePath _ =>
    match modulePath with
    | VStr path => inr path
    | _ => inl (CollaboratorFailure "The module path is not a string")
    end;
  rewriteJsonPaths := fun _ json => inr json;
  validateObject := fun _ _ => None
|}.

Definition tool : ConfigurationFile := {|
  projectRelativeFilePath := "tool.json";
  _propertyInheritanceTypes := []
|}.

Definition toolPath : string := "/proj/tool.json".

(** File systems: a file that extends nothing, one that carries a
    [$schema], two files that extend each other, a file whose parent is
    missing, no file at all, and the file in a rig profile only. *)
Definition plainFiles : gmap string fileEntry := {[ toolPath := FileText "plain" ]}.
Definition schemaFiles : gmap string fileEntry := {[ toolPath := FileText "with-schema" ]}.
Definition loopFiles : gmap string fileEntry :=
  <[ toolPath := FileText "extends-b" ]> {[ "/cfg/b.json" := FileText "extends-tool" ]}.
Definition orphanFiles : gmap string fileEntry :=
  {[ toolPath := FileText "extends-missing" ]}.
Definition noFiles : gmap string fileEntry := ∅.
Definition rigFiles : gmap string fileEntry :=
  {[ "/rig/profiles/default/tool.json" := FileText "plain" ]}.

Definition rig : RigConfig := {|
  rigFound := true;
  getResolvedProfileFolderAsync := "/rig/profiles/default"
|}.
(** A rig whose profile folder is the project folder itself. *)
Definition rigOnProject : RigConfig := {|
  rigFound := true;
  getResolvedProfileFolderAsync := "/proj"
|}.

End Sample.

(** ** Path resolution *)

Module PathResolutionMethod.
Inductive t : Type :=
| resolvePathRelativeToConfigurationFile
| resolvePathRelativeToProjectRoot
| NodeResolve
| custom.
End PathResolutionMethod.

(** [IJsonPathMetadata].  A custom resolver is caller-supplied code: it
    throws or it returns. *)
Record IJsonPathMetadata : Type := {
  customResolver : option (string -> string -> string -> error + string);
  pathResolutionMethod : option PathResolutionMethod.t
}.

(** The failures of [_resolvePathProperty]: its own two [throw] sites, and
    what [Import.resolveModule] or the custom resolver raised. *)
Inductive pathResolutionError : Type :=
| NoPackageRoot (configurationFilePath : string)
| CustomResolverMissing
| Raised (e : error).

(** [tryGetPackageFolderFor] stands for the method of that name of
    [_packageJsonLookup].  The [default] branch of the source's [switch] has
    no counterpart: the method is one of the four.  The property value is a
    string, as the signature has it. *)
Definition _resolvePathProperty (E : Collaborators)
    (tryGetPackageFolderFor : string -> option string)
    (configurationFilePath propertyName propertyValue : string)
    (metadata : IJsonPathMetadata) : pathResolutionError + string :=
  match pathResolutionMethod metadata with
  | None => inr propertyValue
  | Some PathResolutionMethod.resolvePathRelativeToConfigurationFile =>
      inr (resolve E (dirname E configurationFilePath) propertyValue)
  | Some PathResolutionMethod.resolvePathRelativeToProjectRoot =>
      match tryGetPackageFolderFor configurationFilePath with
      | Some packageRoot =>
          if String.eqb packageRoot "" then inl (NoPackageRoot configurationFilePath)
          else inr (resolve E packageRoot propertyValue)
      | None => inl (NoPackageRoot configurationFilePath)
      end
  | Some PathResolutionMethod.NodeResolve =>
      match resolveModule E (VStr propertyValue) (dirname E configurationFilePath) with
      | inl e => inl (Raised e)
      | inr resolvedPath => inr resolvedPath
      end
  | Some PathResolutionMethod.custom =>
      match customResolver metadata with
      | None => inl CustomResolverMissing
      | Some resolver =>
          match resolver configurationFilePath propertyName propertyValue with
          | inl e => inl (Raised e)
          | inr resolvedPath => inr resolvedPath
          end
      end
  end.

(** ** Nodes of a document *)

(** What [_annotateProperty] annotates: [obj && typeof obj === 'object']. *)
Definition isAnnotatable (v : value) : bool := truthy v && typeofObject v.

(** The values reached from [root] through own properties, [root]
    included. *)
Inductive nodeOf (root : value) : value -> Prop :=
| nodeOf_root : nodeOf root root
| nodeOf_property (v : value) (name : string) :
    nodeOf root v -> nodeOf root (getProp v name).

(** ** What a call leaves in the instance *)

(** No path has been handed to [FileSystem.readFileAsync] twice, and every
    path that was read has its promise in the cache. *)
Definition readsOnce (st : state) : Prop :=
  NoDup (readLog st)
  /\ forall path, path ∈ readLog st -> is_Some (_configPromiseCache st !! path).

(** Every configuration the cache holds satisfies [Q]. *)
Definition cacheHolds (Q : value -> Prop) (st : state) : Prop :=
  forall path v, _configPromiseCache st !! path = Some (Fulfilled v) -> Q v.

(** No own property of [v] is named [extends] or [$schema], or is a merge
    directive. *)
Definition hasNoMetaKeys (v : value) : Prop :=
  forall k, k ∈ ownKeys v -> isMergedName (Some {["extends"; "$schema"]}) k = true.

(** The schema validator has accepted [v] for some file. *)
Definition passedValidation (E : Collaborators) (v : value) : Prop :=
  exists path, validateObject E v path = None.

(** [v] reports a file as its source. *)
Definition reportsSourceFile (v : value) : Prop :=
  exists path, getObjectSourceFilePath v = Return (Some path).

(** The values of the enum [InheritanceType]. *)
Definition inheritanceTypeName (t : InheritanceType.t) : string :=
  match t with
  | InheritanceType.append => "append"
  | InheritanceType.merge => "merge"
  | InheritanceType.replace => "replace"
  | InheritanceType.custom => "custom"
  end.

(** The child's merge directives are all well formed. *)
Definition directivesWellFormed (currentObject : value) (ignoreProperties : option (gset string))
  : Prop :=
  forall propertyName target,
    propertyName ∈ ownKeys currentObject ->
    isIgnored ignoreProperties propertyName = false ->
    matchMergeBehaviorField propertyName = Some target ->
    malformedDirective currentObject propertyName target = false.

(** ** Further sample data *)

Module Scenario.

(** A custom inheritance that keeps the parent's value. *)
Definition keepParent : PropertyInheritanceCustomFunction :=
  fun _ parentValue => inr parentValue.
Definition customSettings : option IPropertiesInheritance :=
  Some [("settings", mkInheritance InheritanceType.custom (Some keepParent))].

(** The project file extends [/cfg/b.json], which the instance has loaded
    already, or has failed to load. *)
Definition childFiles : gmap string fileEntry :=
  {[ Sample.toolPath := FileText "extends-b" ]}.
Definition loadedParent : value := _annotateProperties "/cfg/b.json" Sample.plain.
Definition parentLoaded : state :=
  cacheSet "/cfg/b.json" (Fulfilled loadedParent) initialState.
Definition parentFailed : state :=
  cacheSet "/cfg/b.json" (Rejected (SchemaMismatch "y is not a string")) initialState.

(** A project file and the file it extends. *)
Definition familyFiles : gmap string fileEntry :=
  <[ Sample.toolPath := FileText "extends-b" ]> {[ "/cfg/b.json" := FileText "plain" ]}.

(** Collaborators whose path rewriting runs a custom resolver that looks
    for a file of its own and does not find it: the failure it raises is
    that of a missing file. *)
Definition resolverMissesFile : Collaborators := {|
  parseString := parseString Sample.collaborators;
  resolve := resolve Sample.collaborators;
  dirname := dirname Sample.collaborators;
  resolveModule := resolveModule Sample.collaborators;
  rewriteJsonPaths := fun _ _ =>
    inl (FileDoesNotExist "ENOENT: no such file or directory, open /proj/lib");
  validateObject := validateObject Sample.collaborators
|}.

(** The file of one project extends the file of a second project, which
    has no file of its own; the rig has the file. *)
Definition extendsSibling : value :=
  Sample.object [("extends", VStr "/proj2/tool.json"); ("x", VNum 1)].
Definition siblingCollaborators : Collaborators := {|
  parseString := fun text =>
    if String.eqb text "extends-sibling" then inr extendsSibling
    else parseString Sample.collaborators text;
  resolve := resolve Sample.collaborators;
  dirname := dirname Sample.collaborators;
  resolveModule := resolveModule Sample.collaborators;
  rewriteJsonPaths := rewriteJsonPaths Sample.collaborators;
  validateObject := validateObject Sample.collaborators
|}.
Definition siblingFiles : gmap string fileEntry :=
  <[ "/proj1/tool.json" := FileText "extends-sibling" ]>
    {[ "/rig/profiles/default/tool.json" := FileText "plain" ]}.

(** A third file of a chain, with a list of its own. *)
Definition grandchildList : value :=
  _annotateProperties "/grandchild.json" (Sample.object [("list", Sample.array [VNum 5])]).

(** A project file that says no more than which file it extends. *)
Definition onlyExtends : value :=
  _annotateProperties "/child.json" (Sample.object [("extends", VStr "/parent.json")]).

(** A path property resolved as a module, with a resolver that is of no
    use to that method. *)
Definition asModule : IJsonPathMetadata := {|
  customResolver := Some (fun _ _ _ => inl (CollaboratorFailure "No resolver"));
  pathResolutionMethod := Some PathResolutionMethod.NodeResolve
|}.
Definition asModuleBare : IJsonPathMetadata := {|
  customResolver := None;
  pathResolutionMethod := Some PathResolutionMethod.NodeResolve
|}.

End Scenario.

(** ** Properties of the association lists *)

Lemma assoc_setProp_eq {A : Type} (l : list (string * A)) (name : string) (v : A) :
  assoc name (setProp l name v) = Some v.
Proof.
  induction l as [| [k w] rest IH]; simpl.
  - by rewrite String.eqb_refl.
  - destruct (String.eqb k name) eqn:Hk; simpl; rewrite Hk; [done | apply IH].
Qed.

Lemma assoc_setProp_ne {A : Type} (l : list (string * A)) (name other : string) (v : A) :
  other <> name -> assoc other (setProp l name v) = assoc other l.
Proof.
  intros Hne. induction l as [| [k w] rest IH]; simpl.
  - destruct (String.eqb name other) eqn:Hk; [| done].
    apply String.eqb_eq in Hk. congruence.
  - destruct (String.eqb k name) eqn:Hk; simpl.
    + apply String.eqb_eq in Hk. subst k.
      destruct (String.eqb name other) eqn:Ho; [| done].
      apply String.eqb_eq in Ho. congruence.
    + destruct (String.eqb k other); [done | apply IH].
Qed.

Lemma bind_Return {A B : Type} (c : completion A) (k : A -> completion B) (b : B) :
  bind c k = Return b -> exists a, c = Return a /\ k a = Return b.
Proof. destruct c; simpl; [eauto | done | done]. Qed.

(** ** Properties of the merge loop *)

Section MergeLoop.
Context (recurse : value -> value -> completion value)
        (parentObject currentObject : value)
        (mergeBehaviorMap : gmap string IPropertyInheritance)
        (configured : option IPropertiesInheritance).

Lemma mergeProperties_other (names : list string) :
  forall ov props ov' props',
    mergeProperties recurse parentObject currentObject mergeBehaviorMap configured
      names ov props = Return (ov', props') ->
    forall name, name ∉ names ->
      assoc name props' = assoc name props /\ assoc name ov' = assoc name ov.
Proof.
  induction names as [| n rest IH]; intros ov props ov' props' Hrun name Hnot; simpl in Hrun.
  - by inversion Hrun.
  - apply bind_Return in Hrun as [[o v] [_ Hrest]]. simpl in Hrest.
    apply not_elem_of_cons in Hnot as [Hne Hnot].
    destruct (IH _ _ _ _ Hrest name Hnot) as [Hp Ho].
    rewrite Hp, Ho. split.
    + by apply assoc_setProp_ne.
    + destruct o; [by apply assoc_setProp_ne | done].
Qed.

Lemma mergeProperties_lookup (names : list string) :
  forall ov props ov' props',
    mergeProperties recurse parentObject currentObject mergeBehaviorMap configured
      names ov props = Return (ov', props') ->
    forall name, name ∈ names ->
      exists o v,
        mergeProperty recurse parentObject currentObject
          (effectiveInheritance mergeBehaviorMap configured name
             (getProp currentObject name) (getProp parentObject name)) name
          = Return (o, v)
        /\ assoc name props' = Some v
        /\ assoc name ov' = match o with Some x => Some x | None => assoc name ov end.
Proof.
  induction names as [| n rest IH]; intros ov props ov' props' Hrun name Hin; simpl in Hrun.
  - by apply elem_of_nil in Hin.
  - apply bind_Return in Hrun as [[o v] [Hone Hrest]]. simpl in Hrest.
    destruct (decide (name ∈ rest)) as [Hlater | Hnot].
    + destruct (IH _ _ _ _ Hrest name Hlater) as (o' & v' & Hm & Hp & Ho).
      exists o', v'. split; [done |]. split; [done |].
      rewrite Ho. destruct o' as [x |]; [done |].
      destruct (decide (name = n)) as [-> | Hne].
      * rewrite Hone in Hm. by inversion Hm.
      * destruct o; [by apply assoc_setProp_ne | done].
    + apply elem_of_cons in Hin as [-> | Hin]; [| done].
      destruct (mergeProperties_other _ _ _ _ _ Hrest n Hnot) as [Hp Ho].
      exists o, v. split; [done |]. rewrite Hp, Ho, assoc_setProp_eq.
      split; [done |]. destruct o; [by rewrite assoc_setProp_eq | done].
Qed.

End MergeLoop.

Lemma getPropertyOriginalValue_of_holder (v : value) (name : string) :
  getProp v name <> VUndefined ->
  exists original, getPropertyOriginalValue v name = Return original.
Proof.
  intros Hdef. destruct v as [| | b | n | s | a items | a props]; simpl;
    try (exfalso; apply Hdef; reflexivity); eauto.
  - destruct a as [a |]; [| eauto]. destruct (assoc name (originalValues a)); eauto.
  - destruct a as [a |]; [| eauto]. destruct (assoc name (originalValues a)); eauto.
Qed.

Lemma isUndefined_false (v : value) : isUndefined v = false <-> v <> VUndefined.
Proof. destruct v; simpl; split; congruence. Qed.

Lemma isUndefined_true (v : value) : isUndefined v = true <-> v = VUndefined.
Proof. destruct v; simpl; split; congruence. Qed.

(** What one activation of [_mergeObjects] says about a name of its loop. *)
Lemma mergeObjects_property (parentObject currentObject : value) (path : string)
    (configured : option IPropertiesInheritance) (ignore : option (gset string))
    (names : list string) (mergeBehaviorMap : gmap string IPropertyInheritance)
    (result : value) (name : string) :
  mergePropertyNames parentObject currentObject ignore = Return names ->
  mergeBehaviorMapOf currentObject ignore = Return mergeBehaviorMap ->
  _mergeObjects parentObject currentObject path configured ignore = Return result ->
  name ∈ names ->
  exists recurse o v,
    mergeProperty recurse parentObject currentObject
      (effectiveInheritance mergeBehaviorMap configured name
         (getProp currentObject name) (getProp parentObject name)) name = Return (o, v)
    /\ getProp result name = v
    /\ getPropertyOriginalValue result name
       = Return match o with Some x => x | None => VUndefined end.
Proof.
  unfold mergePropertyNames, mergeBehaviorMapOf, _mergeObjects.
  intros Hnames Hmap Hrun Hin. simpl in Hrun. unfold mergeObjectsStep in Hrun.
  apply bind_Return in Hnames as [g [Hg Hn]]. rewrite Hg in Hmap, Hrun. simpl in *.
  inversion Hn; subst names; clear Hn. inversion Hmap; subst mergeBehaviorMap; clear Hmap.
  apply bind_Return in Hrun as [[ov props] [Hloop Hres]]. simpl in Hres.
  inversion Hres; subst result; clear Hres.
  destruct (mergeProperties_lookup _ _ _ _ _ _ _ _ _ _ Hloop name Hin)
    as (o & v & Hm & Hp & Ho).
  eexists _, o, v. split; [exact Hm |]. unfold getProp. simpl. rewrite Hp, Ho.
  by destruct o.
Qed.

(** ** C6: one side defined *)

(** C6.  For a property of which exactly one of the child's and the
    parent's value is defined, the body of the merge loop returns the
    defined side's value together with that side's recorded original value,
    whatever the inheritance (a custom inheritance function included, whose
    result is never consulted) and whatever the nested merge would do; and
    a merge that goes through holds that value and that original value at
    the property. *)
Theorem one_side_defined_wins :
  forall (parentObject currentObject : value) (path : string)
         (configured : option IPropertiesInheritance) (ignore : option (gset string))
         (propertyName : string),
    isUndefined (getProp currentObject propertyName)
      <> isUndefined (getProp parentObject propertyName) ->
    let winner :=
      if isUndefined (getProp parentObject propertyName) then currentObject
      else parentObject in
    (exists original,
        getPropertyOriginalValue winner propertyName = Return original
        /\ forall recurse inheritance,
             mergeProperty recurse parentObject currentObject inheritance propertyName
             = Return (Some original, getProp winner propertyName))
    /\ (forall names result,
          mergePropertyNames parentObject currentObject ignore = Return names ->
          propertyName ∈ names ->
          _mergeObjects parentObject currentObject path configured ignore = Return result ->
          getProp result propertyName = getProp winner propertyName
          /\ getPropertyOriginalValue result propertyName
             = getPropertyOriginalValue winner propertyName).
Proof.
  intros parentObject currentObject path configured ignore propertyName Hone winner.
  assert (Hbody : exists original,
             getPropertyOriginalValue winner propertyName = Return original
             /\ forall recurse inheritance,
                  mergeProperty recurse parentObject currentObject inheritance propertyName
                  = Return (Some original, getProp winner propertyName)).
  { subst winner. unfold mergeProperty.
    destruct (isUndefined (getProp parentObject propertyName)) eqn:Hp;
      destruct (isUndefined (getProp currentObject propertyName)) eqn:Hc;
      try congruence; simpl.
    - apply isUndefined_false in Hc.
      destruct (getPropertyOriginalValue_of_holder _ _ Hc) as [original Ho].
      exists original. split; [done |]. intros _ _.
      unfold usePropertyValue. by rewrite Ho.
    - apply isUndefined_false in Hp.
      destruct (getPropertyOriginalValue_of_holder _ _ Hp) as [original Ho].
      exists original. split; [done |]. intros _ _.
      unfold useParentPropertyValue. by rewrite Ho. }
  split; [exact Hbody |].
  intros names result Hnames Hin Hrun.
  destruct Hbody as (original & Horig & Hbody).
  destruct (mergeBehaviorMapOf currentObject ignore) as [m | e | s] eqn:Hmap.
  - destruct (mergeObjects_property _ _ _ _ _ _ _ _ _ Hnames Hmap Hrun Hin)
      as (recurse & o & v & Hm & Hv & Ho).
    rewrite Hbody in Hm. inversion Hm; subst o v. by rewrite Horig.
  - unfold mergePropertyNames in Hnames. unfold mergeBehaviorMapOf in Hmap.
    destruct (gatherMergeBehaviors _ _ _ _ _ _); simpl in *; congruence.
  - unfold mergePropertyNames in Hnames. unfold mergeBehaviorMapOf in Hmap.
    destruct (gatherMergeBehaviors _ _ _ _ _ _); simpl in *; congruence.
Qed.

(** ** C10: an explicit null is a defined value *)

Lemma replace_takes_defined_child (recurse : value -> value -> completion value)
    (parentObject currentObject : value) (inheritance : IPropertyInheritance)
    (propertyName : string) :
  inheritanceType inheritance = InheritanceType.replace ->
  getProp currentObject propertyName <> VUndefined ->
  mergeProperty recurse parentObject currentObject inheritance propertyName
  = usePropertyValue currentObject propertyName (getProp currentObject propertyName).
Proof.
  intros Hreplace Hdef. apply isUndefined_false in Hdef.
  unfold mergeProperty. rewrite Hreplace, Hdef. simpl.
  by destruct (isUndefined (getProp parentObject propertyName)).
Qed.


(** ** C3: the append inheritance *)

Lemma spread_snoc {A : Type} (a b : list (string * A)) (k : string) (v : A) :
  spread a (b ++ [(k, v)]) = setProp (spread a b) k v.
Proof. unfold spread. by rewrite fold_left_app. Qed.

Lemma assoc_app {A : Type} (l1 l2 : list (string * A)) (name : string) :
  assoc name (l1 ++ l2)
  = match assoc name l1 with Some v => Some v | None => assoc name l2 end.
Proof.
  induction l1 as [| [k w] rest IH]; simpl; [done |].
  destruct (String.eqb k name); [done | apply IH].
Qed.

Lemma assoc_None_not_key {A : Type} (l : list (string * A)) (name : string) :
  assoc name l = None <-> name ∉ map fst l.
Proof.
  induction l as [| [k w] rest IH]; simpl.
  - split; [intros _; apply not_elem_of_nil | done].
  - rewrite not_elem_of_cons. destruct (String.eqb k name) eqn:Hk.
    + apply String.eqb_eq in Hk. split; [done | intros [Hne _]; congruence].
    + apply String.eqb_neq in Hk. rewrite IH. split; [intros H; split; congruence | tauto].
Qed.

(** In a spread the entries of the second object win. *)
Lemma assoc_spread {A : Type} (a b : list (string * A)) (name : string) :
  NoDup (map fst b) ->
  assoc name (spread a b)
  = match assoc name b with Some v => Some v | None => assoc name a end.
Proof.
  induction b as [| [k v] rest IH] using rev_ind; intros Hnodup; [done |].
  rewrite spread_snoc, assoc_app. rewrite map_app in Hnodup. simpl in Hnodup.
  apply NoDup_app in Hnodup as (Hrest & Hfresh & _).
  destruct (decide (name = k)) as [-> | Hne].
  - rewrite assoc_setProp_eq. simpl. rewrite String.eqb_refl.
    assert (Hk : assoc k rest = None).
    { apply assoc_None_not_key. intros Hin. apply (Hfresh k Hin). constructor. }
    by rewrite Hk.
  - rewrite assoc_setProp_ne by done. rewrite (IH Hrest). simpl.
    destruct (String.eqb k name) eqn:Hk; [apply String.eqb_eq in Hk; congruence |].
    by destruct (assoc name rest).
Qed.

(** C3, as the code has it.  Under the append inheritance, for a parent and a child
    value that are both annotated arrays, the merged value is the parent's
    elements followed by the child's; its annotation names no source file
    and its original values are the parent's overlaid by the child's, so
    that a lookup by key answers with the child's recorded original value
    where the child has the key and with the parent's otherwise. *)
Theorem append_concatenates_and_overlays :
  forall (recurse : value -> value -> completion value)
         (parentObject currentObject : value) (inheritance : IPropertyInheritance)
         (propertyName : string)
         (parentAnnotation childAnnotation : annotation) (parentItems childItems : list value),
    inheritanceType inheritance = InheritanceType.append ->
    getProp parentObject propertyName = VArr (Some parentAnnotation) parentItems ->
    getProp currentObject propertyName = VArr (Some childAnnotation) childItems ->
    NoDup (map fst (originalValues childAnnotation)) ->
    let merged :=
      VArr (Some (mkAnnotation None
                    (spread (originalValues parentAnnotation)
                            (originalValues childAnnotation))))
           (parentItems ++ childItems)%list in
    mergeProperty recurse parentObject currentObject inheritance propertyName
    = Return (None, merged)
    /\ getObjectSourceFilePath merged = Return None
    /\ forall key,
         getPropertyOriginalValue merged key
         = Return match assoc key (originalValues childAnnotation) with
                  | Some v => v
                  | None =>
                      match assoc key (originalValues parentAnnotation) with
                      | Some v => v
                      | None => VUndefined
                      end
                  end.
Proof.
  intros recurse parentObject currentObject inheritance propertyName
         parentAnnotation childAnnotation parentItems childItems
         Happend Hparent Hchild Hnodup merged.
  split; [| split].
  - unfold mergeProperty. by rewrite Happend, Hparent, Hchild.
  - done.
  - intros key. subst merged. simpl. rewrite (assoc_spread _ _ _ Hnodup).
    destruct (assoc key (originalValues childAnnotation)); [done |].
    by destruct (assoc key (originalValues parentAnnotation)).
Qed.

(** C3, the lookup by position.  Parent [[1,2]] and child [[3,4]] append to
    [[1,2,3,4]], but the merged array answers 3 at index 0, where the
    element is the parent's 1: the lookup does not follow the elements. *)
Lemma append_lookup_does_not_follow_elements :
  exists result,
    _mergeObjects Sample.parentList Sample.childList "/child.json"
      Sample.appendList Sample.ignoreProperties = Return result
    /\ itemsOf (getProp result "list") = [VNum 1; VNum 2; VNum 3; VNum 4]
    /\ getPropertyOriginalValue (getProp result "list") "0" = Return (VNum 3)
    /\ ~ recoversSourcePerElement (getProp Sample.parentList "list")
           (getProp Sample.childList "list") (getProp result "list").
Proof.
  eexists. split; [vm_compute; reflexivity |]. split; [reflexivity |].
  split; [reflexivity |].
  intros Hclaim. destruct (Hclaim 0) as [Hparent _].
  assert (Hlt : 0 < length (itemsOf (getProp Sample.parentList "list"))) by (vm_compute; lia).
  specialize (Hparent Hlt). vm_compute in Hparent. discriminate Hparent.
Qed.

(** C3 on the arrays [[1,2]] and [[3,4]]. *)
Lemma append_concatenates_and_overlays_witness :
  let merged :=
    VArr (Some (mkAnnotation None [("0", VNum 3); ("1", VNum 4)]))
         [VNum 1; VNum 2; VNum 3; VNum 4] in
  mergeProperty (fun _ _ => Stuck Hang) Sample.parentList Sample.childList
    (plainInheritance InheritanceType.append) "list" = Return (None, merged)
  /\ getObjectSourceFilePath merged = Return None
  /\ getPropertyOriginalValue merged "0" = Return (VNum 3)
  /\ getPropertyOriginalValue merged "2" = Return VUndefined.
Proof.
  destruct (append_concatenates_and_overlays (fun _ _ => Stuck Hang)
              Sample.parentList Sample.childList (plainInheritance InheritanceType.append)
              "list"
              (mkAnnotation (Some "/parent.json") [("0", VNum 1); ("1", VNum 2)])
              (mkAnnotation (Some "/child.json") [("0", VNum 3); ("1", VNum 4)])
              [VNum 1; VNum 2] [VNum 3; VNum 4])
    as (Hmerged & Hsource & Hlookup).
  - reflexivity.
  - reflexivity.
  - reflexivity.
  - apply (bool_decide_unpack _). vm_compute. exact I.
  - split; [exact Hmerged |]. split; [exact Hsource |].
    split; [exact (Hlookup "0") | exact (Hlookup "2")].
Defined.

(** ** The recursion of the merge *)

Lemma getPropertyOriginalValue_not_stuck (v : value) (name : string) (s : stuck) :
  getPropertyOriginalValue v name <> Stuck s.
Proof.
  destruct v as [| | b | n | t | a items | a props]; simpl; try discriminate;
    destruct a as [a |]; try discriminate;
    destruct (assoc name (originalValues a)); discriminate.
Qed.

Lemma passesMergeChecks_shape (v : value) :
  passesMergeChecks v ->
  typeofObject v = true -> exists a props, v = VObj a props.
Proof.
  intros (Hnull & Harr & _) Hobj. destruct v; simpl in *; try discriminate. eauto.
Qed.

(** The body of the loop either does not consult the nested call at all,
    or is the nested call on the two values, under the merge inheritance. *)
Lemma mergeProperty_recursion (parentObject currentObject : value)
    (inheritance : IPropertyInheritance) (name : string) :
  (exists r, (forall s, r <> Stuck s)
             /\ forall recurse,
                  mergeProperty recurse parentObject currentObject inheritance name = r)
  \/ (inheritanceType inheritance = InheritanceType.merge
      /\ passesMergeChecks (getProp currentObject name)
      /\ forall recurse,
           mergeProperty recurse parentObject currentObject inheritance name
           = do merged <- recurse (getProp parentObject name) (getProp currentObject name);
             Return (None, merged)).
Proof.
  assert (Huse : forall v, exists r, (forall s, r <> Stuck s)
                   /\ usePropertyValue currentObject name v = r).
  { intros v. unfold usePropertyValue.
    destruct (getPropertyOriginalValue currentObject name) as [o | e | s0] eqn:Ho; simpl.
    - eexists. split; [| reflexivity]. discriminate.
    - eexists. split; [| reflexivity]. discriminate.
    - exfalso. by apply (getPropertyOriginalValue_not_stuck currentObject name s0). }
  assert (Hparent : forall v, exists r, (forall s, r <> Stuck s)
                      /\ useParentPropertyValue parentObject name v = r).
  { intros v. unfold useParentPropertyValue.
    destruct (getPropertyOriginalValue parentObject name) as [o | e | s0] eqn:Ho; simpl.
    - eexists. split; [| reflexivity]. discriminate.
    - eexists. split; [| reflexivity]. discriminate.
    - exfalso. by apply (getPropertyOriginalValue_not_stuck parentObject name s0). }
  unfold mergeProperty.
  set (cv := getProp currentObject name). set (pv := getProp parentObject name).
  destruct (Huse cv) as (ru & Hru & Eu). destruct (Hparent pv) as (rp & Hrp & Ep).
  destruct (negb (isUndefined cv) && isUndefined pv) eqn:H1;
    [left; exists ru; split; [done | by intros _] |].
  destruct (negb (isUndefined pv) && isUndefined cv) eqn:H2;
    [left; exists rp; split; [done | by intros _] |].
  destruct (inheritanceType inheritance) eqn:Hty.
  - (* append *)
    left. destruct (isUndefined cv && negb (isUndefined pv)) eqn:H3;
      [exists rp; split; [done | by intros _] |].
    destruct cv as [| | | | | ca citems |]; try (eexists; split; [| by intros _]; done).
    destruct pv as [| | | | | pa pitems |]; try (eexists; split; [| by intros _]; done).
    destruct pa, ca; eexists; (split; [| by intros _]); done.
  - (* merge *)
    destruct (isNull pv || isNull cv) eqn:H3;
      [left; eexists; split; [| by intros _]; done |].
    destruct (isUndefined cv && negb (isUndefined pv)) eqn:H4;
      [left; exists rp; split; [done | by intros _] |].
    destruct ((truthy cv && negb (typeofObject cv))
              || (truthy pv && negb (typeofObject pv))) eqn:H5;
      [left; eexists; split; [| by intros _]; done |].
    destruct (isArray cv || isArray pv) eqn:H6;
      [left; eexists; split; [| by intros _]; done |].
    right. split; [done |]. split; [| by intros ?].
    apply orb_false_iff in H3 as [_ H3]. apply orb_false_iff in H5 as [H5 _].
    apply orb_false_iff in H6 as [H6 _]. repeat split; [done | done |].
    intros Ht. rewrite Ht in H5. simpl in H5. by apply negb_false_iff in H5.
  - (* replace *)
    left. destruct (negb (isUndefined cv));
      [exists ru | exists rp]; (split; [done | by intros _]).
  - (* custom *)
    left. destruct (inheritanceFunction inheritance) as [f |];
      [| eexists; split; [| by intros _]; done].
    destruct (f cv pv); simpl; eexists; (split; [| by intros _]); done.
Qed.

Lemma mergeProperties_agree (recurse1 recurse2 : value -> value -> completion value)
    (parentObject currentObject : value)
    (mergeBehaviorMap : gmap string IPropertyInheritance)
    (configured : option IPropertiesInheritance) (names : list string) :
  (forall name,
      name ∈ names ->
      inheritanceType
        (effectiveInheritance mergeBehaviorMap configured name
           (getProp currentObject name) (getProp parentObject name))
      = InheritanceType.merge ->
      passesMergeChecks (getProp currentObject name) ->
      recurse1 (getProp parentObject name) (getProp currentObject name)
      = recurse2 (getProp parentObject name) (getProp currentObject name)) ->
  forall ov props,
    mergeProperties recurse1 parentObject currentObject mergeBehaviorMap configured
      names ov props
    = mergeProperties recurse2 parentObject currentObject mergeBehaviorMap configured
        names ov props.
Proof.
  induction names as [| n rest IH]; intros Hagree ov props; simpl; [done |].
  assert (Hhead : mergeProperty recurse1 parentObject currentObject
                    (effectiveInheritance mergeBehaviorMap configured n
                       (getProp currentObject n) (getProp parentObject n)) n
                  = mergeProperty recurse2 parentObject currentObject
                      (effectiveInheritance mergeBehaviorMap configured n
                         (getProp currentObject n) (getProp parentObject n)) n).
  { destruct (mergeProperty_recursion parentObject currentObject
                (effectiveInheritance mergeBehaviorMap configured n
                   (getProp currentObject n) (getProp parentObject n)) n)
      as [(r & _ & Hr) | (Hty & Hpass & Hr)].
    - by rewrite !Hr.
    - rewrite !Hr. rewrite (Hagree n); [done | by left | done | done]. }
  rewrite Hhead.
  destruct (mergeProperty recurse2 _ _ _ _) as [[o v] | e | s]; simpl; [| done | done].
  apply IH. intros name Hin. apply Hagree. by right.
Qed.

Lemma mergeProperties_not_stuck (recurse : value -> value -> completion value)
    (parentObject currentObject : value)
    (mergeBehaviorMap : gmap string IPropertyInheritance)
    (configured : option IPropertiesInheritance) (names : list string) :
  (forall name,
      name ∈ names ->
      inheritanceType
        (effectiveInheritance mergeBehaviorMap configured name
           (getProp currentObject name) (getProp parentObject name))
      = InheritanceType.merge ->
      passesMergeChecks (getProp currentObject name) ->
      forall s, recurse (getProp parentObject name) (getProp currentObject name) <> Stuck s) ->
  forall ov props s,
    mergeProperties recurse parentObject currentObject mergeBehaviorMap configured
      names ov props <> Stuck s.
Proof.
  induction names as [| n rest IH]; intros Hok ov props s; simpl; [done |].
  destruct (mergeProperty recurse parentObject currentObject _ n) as [[o v] | e | s0] eqn:Hm;
    simpl; [| done |].
  - apply IH. intros name Hin. apply Hok. by right.
  - exfalso.
    destruct (mergeProperty_recursion parentObject currentObject
                (effectiveInheritance mergeBehaviorMap configured n
                   (getProp currentObject n) (getProp parentObject n)) n)
      as [(r & Hns & Hr) | (Hty & Hpass & Hr)].
    + rewrite Hr in Hm. by apply (Hns s0).
    + rewrite Hr in Hm.
      destruct (recurse (getProp parentObject n) (getProp currentObject n))
        as [x | e | s1] eqn:Hrec;
        simpl in Hm; try discriminate.
      apply (Hok n ltac:(by left) Hty Hpass s1 Hrec).
Qed.

Lemma gatherMergeBehaviors_not_stuck (currentObject : value) (ignore : option (gset string))
    (all names : list string) :
  forall m f s, gatherMergeBehaviors currentObject ignore all names m f <> Stuck s.
Proof.
  induction names as [| n rest IH]; intros m f s; simpl; [done |].
  destruct (isIgnored ignore n); [apply IH |].
  destruct (matchMergeBehaviorField n) as [target |]; [| apply IH].
  destruct (negb (inSet target all)); [done |].
  destruct (getProp currentObject n); try done.
  destruct (negb (typeofObject (getProp currentObject target))); [done |].
  repeat (case_match; try apply IH); done.
Qed.

(** A directive is only ever recorded for a property whose [typeof] is
    ['object']. *)
Lemma gatherMergeBehaviors_targets (currentObject : value) (ignore : option (gset string))
    (all names : list string) :
  forall m f m' f',
    gatherMergeBehaviors currentObject ignore all names m f = Return (m', f') ->
    forall target i,
      m' !! target = Some i ->
      m !! target = Some i \/ typeofObject (getProp currentObject target) = true.
Proof.
  induction names as [| n rest IH]; intros m f m' f' Hrun target i Hi; simpl in Hrun.
  - inversion Hrun; subst. by left.
  - destruct (isIgnored ignore n); [eauto |].
    destruct (matchMergeBehaviorField n) as [t |]; [| eauto].
    destruct (negb (inSet t all)); [done |].
    destruct (getProp currentObject n); try done.
    destruct (negb (typeofObject (getProp currentObject t))) eqn:Hobj; [done |].
    apply negb_false_iff in Hobj.
    assert (Hstep : forall inh,
               <[t := inh]> m !! target = Some i ->
               m !! target = Some i \/ typeofObject (getProp currentObject target) = true).
    { intros inh. destruct (decide (t = target)) as [-> | Hne]; [by right |].
      rewrite lookup_insert_ne by done. by left. }
    repeat case_match; try done;
      (destruct (IH _ _ _ _ Hrun target i Hi) as [Hold | Hnew]; [eapply Hstep, Hold | by right]).
Qed.

Lemma list_max_bound (l : list nat) (x : nat) : x ∈ l -> x <= list_max l.
Proof.
  induction l as [| y rest IH]; intros Hin; [by apply elem_of_nil in Hin |].
  simpl. apply elem_of_cons in Hin as [-> | Hin]; [lia |]. specialize (IH Hin). lia.
Qed.

Lemma assoc_Some_elem {A : Type} (l : list (string * A)) (name : string) (v : A) :
  assoc name l = Some v -> (name, v) ∈ l.
Proof.
  induction l as [| [k w] rest IH]; simpl; [done |].
  destruct (String.eqb k name) eqn:Hk.
  - apply String.eqb_eq in Hk. intros [= ->]. subst. by left.
  - intros H. right. by apply IH.
Qed.

Lemma arrayEntriesFrom_values (items : list value) :
  forall i, map snd (arrayEntriesFrom i items) = items.
Proof. induction items as [| v rest IH]; intros i; simpl; [done | by rewrite IH]. Qed.

Lemma stringEntriesFrom_height (s : string) :
  forall i name v, assoc name (stringEntriesFrom i s) = Some v -> height v = 0.
Proof.
  induction s as [| c rest IH]; intros i name v; simpl; [done |].
  destruct (String.eqb (indexKey i) name); [by intros [= <-] | apply IH].
Qed.

(** A property is nested one level deeper than its holder. *)
Lemma height_getProp (v : value) (name : string) :
  height (getProp v name) <= pred (height v).
Proof.
  unfold getProp. destruct (assoc name (ownEntries v)) as [x |] eqn:Hx; [| simpl; lia].
  destruct v as [| | b | n | s | a items | a props]; simpl in *; try discriminate.
  - rewrite (stringEntriesFrom_height _ _ _ _ Hx). lia.
  - apply list_max_bound. apply assoc_Some_elem in Hx.
    apply list_elem_of_fmap. exists x. split; [done |].
    rewrite <- (arrayEntriesFrom_values items 0). apply list_elem_of_fmap.
    by exists (name, x).
  - apply list_max_bound. apply assoc_Some_elem in Hx.
    apply list_elem_of_fmap. by exists (name, x).
Qed.

(** Below the document root the merge inheritance can only come from a
    directive, so the nested call is on an object of the child. *)
Lemma nested_merge_is_on_object (parentObject currentObject : value)
    (ignore : option (gset string)) (gathered : gmap string IPropertyInheritance * list string)
    (name : string) :
  gatherMergeBehaviors currentObject ignore (ownKeys currentObject) (ownKeys currentObject)
    ∅ [] = Return gathered ->
  inheritanceType
    (effectiveInheritance (fst gathered) None name
       (getProp currentObject name) (getProp parentObject name)) = InheritanceType.merge ->
  passesMergeChecks (getProp currentObject name) ->
  height (getProp currentObject name) < height currentObject.
Proof.
  intros Hg Hty Hpass. unfold effectiveInheritance in Hty.
  destruct (fst gathered !! name) as [i |] eqn:Hi.
  - destruct gathered as [m f].
    destruct (gatherMergeBehaviors_targets _ _ _ _ _ _ _ _ Hg name i Hi) as [Hold | Hobj];
      [done |].
    destruct (passesMergeChecks_shape _ Hpass Hobj) as (a & props & Hv).
    pose proof (height_getProp currentObject name) as Hh. rewrite Hv in *. simpl in *. lia.
  - simpl in Hty. by destruct (isArray (getProp currentObject name)
                               && isArray (getProp parentObject name)).
Qed.

(** Fuel above the depth of the child is enough for a nested merge: more
    fuel changes nothing, and the merge is never stuck. *)
Lemma nested_merge_fuel (n : nat) :
  forall currentObject,
    height currentObject < n ->
    forall parentObject path,
      (forall m, height currentObject < m ->
                 mergeObjectsFuel n parentObject currentObject path None None
                 = mergeObjectsFuel m parentObject currentObject path None None)
      /\ (forall s, mergeObjectsFuel n parentObject currentObject path None None <> Stuck s).
Proof.
  induction n as [| n IH]; intros currentObject Hn parentObject path; [lia |].
  split.
  - intros [| m] Hm; [lia |]. simpl. unfold mergeObjectsStep.
    destruct (gatherMergeBehaviors currentObject None _ _ ∅ []) as [g | e | s] eqn:Hg;
      simpl; [| done | done].
    rewrite (mergeProperties_agree _
               (fun parent child => mergeObjectsFuel m parent child path None None)); [done |].
    intros name _ Hty Hpass.
    pose proof (nested_merge_is_on_object parentObject _ _ _ _ Hg Hty Hpass) as Hlt.
    apply IH; lia.
  - intros s. simpl. unfold mergeObjectsStep.
    destruct (gatherMergeBehaviors currentObject None _ _ ∅ []) as [g | e | s0] eqn:Hg;
      simpl; [| done | by apply gatherMergeBehaviors_not_stuck in Hg].
    destruct (mergeProperties _ _ _ _ _ _ _ _) as [r | e | s0] eqn:Hloop; simpl; try done.
    exfalso. revert Hloop. apply mergeProperties_not_stuck.
    intros name _ Hty Hpass.
    pose proof (nested_merge_is_on_object parentObject _ _ _ _ Hg Hty Hpass) as Hlt.
    apply IH; lia.
Qed.

(** The fuel [_mergeObjects] runs on is enough. *)
Lemma mergeObjects_fuel (parentObject currentObject : value) (path : string)
    (configured : option IPropertiesInheritance) (ignore : option (gset string)) :
  (forall n, 2 + height currentObject <= n ->
             mergeObjectsFuel n parentObject currentObject path configured ignore
             = _mergeObjects parentObject currentObject path configured ignore)
  /\ (forall s, _mergeObjects parentObject currentObject path configured ignore <> Stuck s).
Proof.
  unfold _mergeObjects. split.
  - intros [| n] Hn; [lia |]. simpl. unfold mergeObjectsStep.
    destruct (gatherMergeBehaviors currentObject ignore _ _ ∅ []) as [g | e | s] eqn:Hg;
      simpl; [| done | done].
    rewrite (mergeProperties_agree _
               (fun parent child =>
                  mergeObjectsFuel (S (height currentObject)) parent child path None None));
      [done |].
    intros name _ _ _. pose proof (height_getProp currentObject name) as Hh.
    apply nested_merge_fuel; lia.
  - intros s. simpl. unfold mergeObjectsStep.
    destruct (gatherMergeBehaviors currentObject ignore _ _ ∅ []) as [g | e | s0] eqn:Hg;
      simpl; [| done | by apply gatherMergeBehaviors_not_stuck in Hg].
    destruct (mergeProperties _ _ _ _ _ _ _ _) as [r | e | s0] eqn:Hloop; simpl; try done.
    exfalso. revert Hloop. apply mergeProperties_not_stuck.
    intros name _ _ _. pose proof (height_getProp currentObject name) as Hh.
    by apply (nested_merge_fuel (S (height currentObject)) (getProp currentObject name)
                ltac:(lia) (getProp parentObject name) path).
Qed.

(** The nested call of one activation is [_mergeObjects] on the two values. *)
Lemma mergeObjects_unfold (parentObject currentObject : value) (path : string)
    (configured : option IPropertiesInheritance) (ignore : option (gset string)) :
  _mergeObjects parentObject currentObject path configured ignore
  = mergeObjectsStep (fun parent child => _mergeObjects parent child path None None)
      parentObject currentObject path configured ignore.
Proof.
  unfold _mergeObjects at 1. change (2 + height currentObject) with (S (S (height currentObject))).
  cbn [mergeObjectsFuel]. unfold mergeObjectsStep.
  destruct (gatherMergeBehaviors currentObject ignore _ _ ∅ []) as [g | e | s] eqn:Hg;
    simpl bind; [| done | done].
  rewrite (mergeProperties_agree _
             (fun parent child => _mergeObjects parent child path None None)); [done |].
  intros name _ _ _. pose proof (height_getProp currentObject name) as Hh.
  unfold _mergeObjects.
  apply (nested_merge_fuel (S (height currentObject)) (getProp currentObject name)
           ltac:(lia) (getProp parentObject name) path). lia.
Qed.

(** ** C7: the merge inheritance *)

(** With both sides defined, the merge inheritance throws on a null, on a
    truthy primitive and on an array, and on two keyed objects it is the
    merge of the two. *)
Lemma merge_inheritance_checks (recurse : value -> value -> completion value)
    (parentObject currentObject : value) (inheritance : IPropertyInheritance)
    (propertyName : string) :
  inheritanceType inheritance = InheritanceType.merge ->
  getProp currentObject propertyName <> VUndefined ->
  getProp parentObject propertyName <> VUndefined ->
  let propertyValue := getProp currentObject propertyName in
  let parentPropertyValue := getProp parentObject propertyName in
  (isNull propertyValue || isNull parentPropertyValue = true ->
   mergeProperty recurse parentObject currentObject inheritance propertyName
   = Throw (MergeOnNull propertyName))
  /\ (isNull propertyValue || isNull parentPropertyValue = false ->
      (truthy propertyValue && negb (typeofObject propertyValue))
      || (truthy parentPropertyValue && negb (typeofObject parentPropertyValue)) = true ->
      mergeProperty recurse parentObject currentObject inheritance propertyName
      = Throw (MergeOnPrimitive propertyName))
  /\ (isArray propertyValue || isArray parentPropertyValue = true ->
      exists e, mergeProperty recurse parentObject currentObject inheritance propertyName
                = Throw e)
  /\ (forall a props pa pprops,
        propertyValue = VObj a props -> parentPropertyValue = VObj pa pprops ->
        mergeProperty recurse parentObject currentObject inheritance propertyName
        = do merged <- recurse parentPropertyValue propertyValue; Return (None, merged)).
Proof.
  intros Hmerge Hc Hp propertyValue parentPropertyValue.
  apply isUndefined_false in Hc, Hp.
  subst propertyValue parentPropertyValue.
  unfold mergeProperty. rewrite Hmerge, Hc, Hp. simpl.
  repeat split.
  - intros Hnull. rewrite orb_comm in Hnull. by rewrite Hnull.
  - intros Hnull Hprim. rewrite orb_comm in Hnull. by rewrite Hnull, Hprim.
  - intros Harr. destruct (isNull _ || isNull _); [eauto |].
    destruct (_ && _ || _ && _); [eauto |]. rewrite Harr. eauto.
  - intros a props pa pprops Hcv Hpv. by rewrite Hcv, Hpv.
Qed.

(** The example of the specification: [{a:1,b:2}] merged with [{b:3,c:4}]. *)
Lemma merge_inheritance_example :
  exists result,
    _mergeObjects Sample.parentSettings Sample.childSettings "/child.json"
      Sample.mergeSettings Sample.ignoreProperties = Return result
    /\ ownEntries (getProp result "settings") = [("a", VNum 1); ("b", VNum 3); ("c", VNum 4)].
Proof. eexists. split; [vm_compute; reflexivity | reflexivity]. Qed.

(** C7, on a falsy primitive.  The child gives the number 0 for a property
    that merges and the parent gives an object: the merge does not throw,
    it answers with the parent's properties. *)
Theorem merge_inheritance_accepts_falsy_primitive :
  getProp Sample.childSettingsZero "settings" = VNum 0
  /\ exists result,
       _mergeObjects Sample.parentSettings Sample.childSettingsZero "/child.json"
         Sample.mergeSettings Sample.ignoreProperties = Return result
       /\ ownEntries (getProp result "settings") = [("a", VNum 1); ("b", VNum 2)].
Proof. split; [reflexivity |]. eexists. split; [vm_compute; reflexivity | reflexivity]. Qed.

(** ** C8: merge directives *)

Lemma splitAtDot_app (target rest : string) :
  hasDot target = false ->
  splitAtDot (target ++ String "."%char rest) = (target, String "."%char rest).
Proof.
  induction target as [| c t IH]; simpl; [done |].
  intros Hdot. apply orb_false_iff in Hdot as [Hc Ht].
  rewrite Hc. by rewrite (IH Ht).
Qed.

Lemma splitAtDot_inv (s a b : string) :
  splitAtDot s = (a, b) -> s = a ++ b /\ hasDot a = false.
Proof.
  revert a b. induction s as [| c rest IH]; simpl; intros a b Hs.
  - by inversion Hs.
  - destruct (Ascii.eqb c ".") eqn:Hc.
    + by inversion Hs.
    + destruct (splitAtDot rest) as [a' b'] eqn:Hrest. inversion Hs; subst.
      destruct (IH a' b eq_refl) as [-> Hdot]. simpl. by rewrite Hc.
Qed.

(** The pattern matches exactly the names [$<target>.mergeBehavior] with a
    target that is not empty and holds no dot. *)
Lemma matchMergeBehaviorField_spec (propertyName target : string) :
  matchMergeBehaviorField propertyName = Some target
  <-> propertyName = "$" ++ target ++ ".mergeBehavior"
      /\ target <> "" /\ hasDot target = false.
Proof.
  unfold matchMergeBehaviorField. split.
  - destruct propertyName as [| c rest]; [done |].
    destruct (Ascii.eqb c "$") eqn:Hc; [| done]. apply Ascii.eqb_eq in Hc. subst c.
    destruct (splitAtDot rest) as [t suffix] eqn:Hsplit.
    destruct (negb (String.eqb t "")) eqn:Hne; [| done].
    destruct (String.eqb suffix ".mergeBehavior") eqn:Hsuffix; [| done].
    intros [= ->]. apply String.eqb_eq in Hsuffix. subst suffix.
    apply negb_true_iff, String.eqb_neq in Hne.
    destruct (splitAtDot_inv _ _ _ Hsplit) as [-> Hdot]. done.
  - intros (-> & Hne & Hdot). simpl.
    change ("" ++ target ++ ".mergeBehavior")
      with (target ++ String "."%char "mergeBehavior").
    rewrite (splitAtDot_app _ _ Hdot).
    apply String.eqb_neq in Hne. by rewrite Hne.
Qed.

(** The first pass throws nothing but directive errors. *)
Lemma gatherMergeBehaviors_throws (currentObject : value) (ignore : option (gset string))
    (all names : list string) :
  forall m f e,
    gatherMergeBehaviors currentObject ignore all names m f = Throw e ->
    isMergeDirectiveError e = true.
Proof.
  induction names as [| n rest IH]; intros m f e; simpl; [done |].
  destruct (isIgnored ignore n); [apply IH |].
  destruct (matchMergeBehaviorField n) as [target |]; [| apply IH].
  destruct (negb (inSet target all)); [by intros [= <-] |].
  destruct (getProp currentObject n); try (by intros [= <-]).
  destruct (negb (typeofObject (getProp currentObject target))); [by intros [= <-] |].
  repeat (case_match; try apply IH). by intros [= <-].
Qed.

(** A malformed directive among the names of the child makes the first pass
    throw, whatever else the child holds. *)
Lemma gatherMergeBehaviors_malformed (currentObject : value) (ignore : option (gset string))
    (names : list string) (propertyName target : string) :
  propertyName ∈ names ->
  isIgnored ignore propertyName = false ->
  matchMergeBehaviorField propertyName = Some target ->
  malformedDirective currentObject propertyName target = true ->
  forall m f,
    exists e,
      gatherMergeBehaviors currentObject ignore (ownKeys currentObject) names m f = Throw e
      /\ isMergeDirectiveError e = true.
Proof.
  intros Hin Hign Hmatch Hbad. unfold malformedDirective, behaviorOf in Hbad.
  induction names as [| n rest IH]; intros m f; [by apply elem_of_nil in Hin |].
  destruct (decide (n = propertyName)) as [-> | Hne].
  - simpl. rewrite Hign, Hmatch.
    destruct (negb (inSet target (ownKeys currentObject))); [eauto |]. simpl in Hbad.
    destruct (getProp currentObject propertyName); try (eexists; split; [done | done]).
    destruct (negb (typeofObject (getProp currentObject target))); [eauto |]. simpl in Hbad.
    destruct (String.eqb (toLowerCase s) "append"); [done |].
    destruct (String.eqb (toLowerCase s) "merge"); [done |].
    destruct (String.eqb (toLowerCase s) "replace"); [done |]. eauto.
  - apply elem_of_cons in Hin as [Heq | Hin]; [congruence |].
    specialize (IH Hin). simpl.
    destruct (isIgnored ignore n); [apply IH |].
    destruct (matchMergeBehaviorField n) as [t |]; [| apply IH].
    destruct (negb (inSet t (ownKeys currentObject))); [eauto |].
    destruct (getProp currentObject n); try (eexists; split; [done | done]).
    destruct (negb (typeofObject (getProp currentObject t))); [eauto |].
    destruct (String.eqb (toLowerCase s) "append"); [apply IH |].
    destruct (String.eqb (toLowerCase s) "merge"); [apply IH |].
    destruct (String.eqb (toLowerCase s) "replace"); [apply IH | eauto].
Qed.

(** A malformed directive fails the whole merge with a directive error. *)
Lemma malformed_directive_fails_merge (parentObject currentObject : value) (path : string)
    (configured : option IPropertiesInheritance) (ignore : option (gset string))
    (propertyName target : string) :
  propertyName ∈ ownKeys currentObject ->
  isIgnored ignore propertyName = false ->
  matchMergeBehaviorField propertyName = Some target ->
  malformedDirective currentObject propertyName target = true ->
  exists e,
    _mergeObjects parentObject currentObject path configured ignore = Throw e
    /\ isMergeDirectiveError e = true.
Proof.
  intros Hin Hign Hmatch Hbad.
  destruct (gatherMergeBehaviors_malformed currentObject ignore _ _ _ Hin Hign Hmatch Hbad ∅ [])
    as (e & He & Hkind).
  exists e. split; [| done]. rewrite mergeObjects_unfold. unfold mergeObjectsStep.
  by rewrite He.
Qed.

(** The directive example: the directive key is left out of the result and
    its behavior overrides the declared one, in capitals too. *)
Lemma directive_example :
  (exists result,
      _mergeObjects Sample.parentTags Sample.childTags "/child.json" (Some [])
        Sample.ignoreProperties = Return result
      /\ ownKeys result = ["tags"]
      /\ itemsOf (getProp result "tags") = [VStr "b"; VStr "a"])
  /\ (exists result,
        _mergeObjects Sample.parentTags Sample.childTagsCapitals "/child.json"
          Sample.replaceTags Sample.ignoreProperties = Return result
        /\ ownKeys result = ["tags"]
        /\ itemsOf (getProp result "tags") = [VStr "b"; VStr "a"]).
Proof.
  split; eexists; (split; [vm_compute; reflexivity | split; reflexivity]).
Qed.

(** C8, on a null target.  The directive [$options.mergeBehavior]
    targets a property that is null, which is neither an object nor an
    array; the first pass lets it through, and the merge answers with
    null. *)
Theorem directive_on_null_target_is_accepted :
  getProp Sample.childOptionsNull "options" = VNull
  /\ matchMergeBehaviorField "$options.mergeBehavior" = Some "options"
  /\ malformedDirective Sample.childOptionsNull "$options.mergeBehavior" "options" = false
  /\ exists result,
       _mergeObjects Sample.parentOptions Sample.childOptionsNull "/child.json" (Some [])
         Sample.ignoreProperties = Return result
       /\ ownEntries result = [("options", VNull)].
Proof.
  repeat split; try reflexivity.
  eexists. split; [vm_compute; reflexivity | reflexivity].
Qed.

(** ** C9: a file that extends nothing *)

Lemma gatherMergeBehaviors_filtered (currentObject : value) (ignore : option (gset string))
    (all names : list string) :
  forall m f m' f',
    gatherMergeBehaviors currentObject ignore all names m f = Return (m', f') ->
    f' = (f ++ filter (fun k => isMergedName ignore k = true) names)%list.
Proof.
  induction names as [| n rest IH]; intros m f m' f' Hrun; simpl in Hrun.
  - inversion Hrun. by rewrite app_nil_r.
  - destruct (isIgnored ignore n) eqn:Hign.
    + assert (Hn : isMergedName ignore n <> true)
        by (unfold isMergedName; rewrite Hign; done).
      rewrite filter_cons_False by exact Hn. eauto.
    + destruct (matchMergeBehaviorField n) as [t |] eqn:Hmatch.
      * assert (Hn : isMergedName ignore n <> true)
          by (unfold isMergedName; rewrite Hign, Hmatch; done).
        rewrite filter_cons_False by exact Hn.
        destruct (negb (inSet t all)); [done |].
        destruct (getProp currentObject n); try done.
        destruct (negb (typeofObject (getProp currentObject t))); [done |].
        repeat case_match; try done; eauto.
      * assert (Hn : isMergedName ignore n = true)
          by (unfold isMergedName; rewrite Hign, Hmatch; done).
        rewrite filter_cons_True by exact Hn.
        rewrite (IH _ _ _ _ Hrun). by rewrite <- app_assoc.
Qed.

Lemma setProp_fresh {A : Type} (l : list (string * A)) (name : string) (v : A) :
  assoc name l = None -> setProp l name v = (l ++ [(name, v)])%list.
Proof.
  induction l as [| [k w] rest IH]; simpl; [done |].
  destruct (String.eqb k name); [done |]. intros H. by rewrite (IH H).
Qed.

Lemma inSet_elem (name : string) (s : list string) : inSet name s = true <-> name ∈ s.
Proof.
  unfold inSet. rewrite existsb_exists. split.
  - intros (x & Hin & Heq). apply String.eqb_eq in Heq. subst. by apply list_elem_of_In.
  - intros Hin. exists name. split; [by apply list_elem_of_In | apply String.eqb_refl].
Qed.

Lemma setOf_NoDup (l : list string) :
  forall seen, NoDup l -> (forall x, x ∈ l -> x ∉ seen) -> setOf seen l = l.
Proof.
  induction l as [| x rest IH]; intros seen Hnd Hfresh; simpl; [done |].
  apply NoDup_cons in Hnd as [Hx Hnd].
  destruct (inSet x seen) eqn:Hseen.
  - apply inSet_elem in Hseen. destruct (Hfresh x); [by left | done].
  - f_equal. apply IH; [done |]. intros y Hy. rewrite not_elem_of_cons. split.
    + intros ->. done.
    + apply Hfresh. by right.
Qed.

Lemma getPropertyOriginalValue_recorded (holder : value) (name : string) :
  getProp holder name <> VUndefined ->
  getPropertyOriginalValue holder name = Return (recordedOriginal holder name).
Proof.
  intros Hdef. unfold recordedOriginal.
  destruct holder as [| | b | n | s | a items | a props]; simpl;
    try (exfalso; apply Hdef; reflexivity); try done;
    destruct a as [a |]; try done; by destruct (assoc name (originalValues a)).
Qed.

(** With no parent every name of the loop takes the child's value and the
    child's recorded original value. *)
Lemma mergeProperties_absent_parent (recurse : value -> value -> completion value)
    (currentObject : value) (m : gmap string IPropertyInheritance)
    (configured : option IPropertiesInheritance) (names : list string) :
  NoDup names ->
  (forall k, k ∈ names -> getProp currentObject k <> VUndefined) ->
  forall ov props,
    (forall k, k ∈ names -> assoc k ov = None /\ assoc k props = None) ->
    mergeProperties recurse VUndefined currentObject m configured names ov props
    = Return ((ov ++ map (fun k => (k, recordedOriginal currentObject k)) names)%list,
              (props ++ map (fun k => (k, getProp currentObject k)) names)%list).
Proof.
  induction names as [| n rest IH]; intros Hnd Hdef ov props Hfresh; simpl.
  - by rewrite !app_nil_r.
  - apply NoDup_cons in Hnd as [Hn Hnd].
    assert (Hc : getProp currentObject n <> VUndefined) by (apply Hdef; by left).
    unfold mergeProperty. change (getProp VUndefined n) with VUndefined.
    apply isUndefined_false in Hc as Hc'. rewrite Hc'. simpl.
    unfold usePropertyValue. rewrite (getPropertyOriginalValue_recorded _ _ Hc). simpl.
    destruct (Hfresh n) as [Hov Hprops]; [by left |].
    rewrite (setProp_fresh _ _ _ Hov), (setProp_fresh _ _ _ Hprops).
    rewrite IH; [by rewrite <- !app_assoc | done | intros k Hk; apply Hdef; by right |].
    intros k Hk. assert (Hne : k <> n) by (intros ->; done).
    destruct (Hfresh k) as [Hkov Hkprops]; [by right |].
    rewrite !assoc_app, Hkov, Hkprops. simpl.
    destruct (String.eqb n k) eqn:Heq; [apply String.eqb_eq in Heq; congruence | done].
Qed.

Lemma entries_of_keys (props : list (string * value)) :
  NoDup (map fst props) ->
  map (fun k => (k, getProp (VObj None props) k)) (map fst props) = props.
Proof.
  unfold getProp. simpl. induction props as [| [k v] rest IH]; intros Hnd; simpl; [done |].
  apply NoDup_cons in Hnd as [Hk Hnd]. rewrite String.eqb_refl. f_equal.
  etransitivity; [| exact (IH Hnd)].
  apply map_ext_in. intros x Hx.
  destruct (String.eqb k x) eqn:Heq; [| done].
  apply String.eqb_eq in Heq. subst x. destruct Hk. by apply list_elem_of_In.
Qed.

(** C9, as the code has it.  A file that reads, parses to an object and extends
    nothing loads to an object that holds the file's properties other than
    [extends], [$schema] and the merge directives, each with the value the
    annotated and rewritten file has for it and with the original value the
    file's annotation recorded for it, provided the directives of the file
    pass the first pass and the result fits the schema.  When the file has
    none of those keys, the result is the annotated and rewritten file
    itself. *)
Theorem load_without_extends :
  forall (E : Collaborators) (C : ConfigurationFile) (fs : gmap string fileEntry)
         (loadWithCache : loader) (path : string) (visited : gset string)
         (rigConfig : option RigConfig) (st : state)
         (text : string) (parsed : value)
         (a : option annotation) (props : list (string * value))
         (mergeBehaviorMap : gmap string IPropertyInheritance),
    fs !! path = Some (FileText text) ->
    parseString E text = inr parsed ->
    rewriteJsonPaths E path (_annotateProperties path parsed) = inr (VObj a props) ->
    truthy (getProp (VObj a props) "extends") = false ->
    NoDup (map fst props) ->
    (forall k, k ∈ map fst props -> getProp (VObj a props) k <> VUndefined) ->
    mergeBehaviorMapOf (VObj a props) (Some {["extends"; "$schema"]})
      = Return mergeBehaviorMap ->
    let kept :=
      filter (fun k => isMergedName (Some {["extends"; "$schema"]}) k = true)
             (map fst props) in
    let result :=
      VObj (Some (mkAnnotation (Some path)
                    (map (fun k => (k, recordedOriginal (VObj a props) k)) kept)))
           (map (fun k => (k, getProp (VObj a props) k)) kept) in
    validateObject E result path = None ->
    _loadConfigurationFileInnerAsync E C fs loadWithCache path visited rigConfig st
      = (Return result, recordRead path st, visited)
    /\ (forall originals,
          a = Some (mkAnnotation (Some path) originals) ->
          map fst originals = map fst props ->
          kept = map fst props ->
          result = VObj a props).
Proof.
  intros E C fs loadWithCache path visited rigConfig st text parsed a props mergeBehaviorMap
         Hfile Hparse Hrewrite Hextends Hnd Hdef Hmap kept result Hvalid.
  split.
  - unfold _loadConfigurationFileInnerAsync. rewrite Hfile, Hparse, Hrewrite, Hextends.
    simpl orb. cbv iota. f_equal. f_equal.
    unfold mergeAndValidate, _mergeConfigurationFiles.
    rewrite mergeObjects_unfold. unfold mergeObjectsStep.
    unfold mergeBehaviorMapOf in Hmap.
    destruct (gatherMergeBehaviors (VObj a props) _ _ _ ∅ []) as [[m f] | e | s] eqn:Hg;
      try discriminate.
    apply gatherMergeBehaviors_filtered in Hg as Hf. simpl in Hf. simpl bind.
    change (ownKeys (VObj a props)) with (map fst props) in Hf. fold kept in Hf. subst f.
    change (ownKeys VUndefined) with (@nil string). simpl app. simpl snd. simpl fst.
    assert (Hkept : NoDup kept) by (by apply NoDup_filter).
    rewrite (setOf_NoDup kept [] Hkept) by (intros x _; apply not_elem_of_nil).
    rewrite (mergeProperties_absent_parent _ _ _ _ kept Hkept).
    + simpl. fold result. by rewrite Hvalid.
    + intros k Hk. apply Hdef. by apply list_elem_of_filter in Hk as [_ Hk].
    + done.
  - intros originals -> Hkeys Hall. subst result. rewrite Hall.
    assert (Hvalues :
              map (fun k => (k, getProp (VObj (Some (mkAnnotation (Some path) originals))
                                           props) k)) (map fst props) = props)
      by exact (entries_of_keys props Hnd).
    assert (Horiginals :
              map (fun k => (k, recordedOriginal
                                  (VObj (Some (mkAnnotation (Some path) originals)) props) k))
                  (map fst props) = originals).
    { rewrite <- Hkeys. rewrite <- Hkeys in Hnd.
      etransitivity; [| exact (entries_of_keys originals Hnd)].
      apply map_ext. intros k. unfold recordedOriginal, getProp. simpl.
      by destruct (assoc k originals). }
    by rewrite Hvalues, Horiginals.
Qed.

(** C9, on a file with a [$schema].  The file extends nothing, yet what is
    loaded is not the annotated file: the [$schema] key is gone. *)
Lemma load_drops_schema_key :
  let annotated := _annotateProperties Sample.toolPath Sample.withSchema in
  parseString Sample.collaborators "with-schema" = inr Sample.withSchema
  /\ getProp annotated "extends" = VUndefined
  /\ exists result,
       fst (loadConfigurationFileForProjectAsync Sample.collaborators Sample.tool
              Sample.schemaFiles "/proj" None initialState) = Return result
       /\ ownKeys annotated = ["$schema"; "y"]
       /\ ownKeys result = ["y"]
       /\ result <> annotated.
Proof.
  split; [reflexivity |]. split; [reflexivity |].
  eexists. split; [vm_compute; reflexivity |]. split; [reflexivity |].
  split; [reflexivity |]. vm_compute. discriminate.
Qed.

(** ** The loader: the loop check *)

Section LoaderFacts.
Context (E : Collaborators) (C : ConfigurationFile) (fs : gmap string fileEntry).

(** The check on the visited set is made whatever the cache holds for the
    path, and before the cached promise is awaited. *)
Lemma loop_check_precedes_await (recurse : loader) (path : string)
    (visited : gset string) (rigConfig : option RigConfig) (st : state) :
  path ∈ visited ->
  (loadWithCacheStep E C fs recurse path visited rigConfig st).1.1
  = Throw (LoopDetected path).
Proof.
  intros Hin. unfold loadWithCacheStep.
  destruct (_configPromiseCache st !! path); rewrite decide_True by done; [done |].
  by destruct (_loadConfigurationFileInnerAsync _ _ _ _ _ _ _ _) as [[r st2] visited2].
Qed.

(** The load of a missing file with a rig that was found is the load of the
    file of the rig, on the same visited set and with no rig. *)
Lemma inner_falls_back_to_rig (recurse : loader) (path : string) (visited : gset string)
    (rig : RigConfig) (st : state) :
  fs !! path = None ->
  rigFound rig = true ->
  _loadConfigurationFileInnerAsync E C fs recurse path visited (Some rig) st
  = match recurse (resolve E (getResolvedProfileFolderAsync rig) (projectRelativeFilePath C))
            visited None (recordRead path st) with
    | (Return rigResult, st', visited') =>
        if truthy rigResult then (Return rigResult, st', visited')
        else (Throw (FileDoesNotExist ("File does not exist: " ++ path)), st', visited')
    | (Throw e, st', visited') =>
        if isNotExistError e
        then (Throw (FileDoesNotExist ("File does not exist: " ++ path)), st', visited')
        else (Throw e, st', visited')
    | (Stuck s, st', visited') => (Stuck s, st', visited')
    end.
Proof.
  intros Hfile Hfound.
  unfold _loadConfigurationFileInnerAsync, _tryLoadConfigurationFileInRigAsync.
  rewrite Hfile, Hfound.
  destruct (recurse _ visited None (recordRead path st)) as [[[v | e | s] st'] visited'];
    [done | | done].
  by destruct (isNotExistError e).
Qed.

(** A load that completes leaves its completion in the cache. *)
Lemma load_settles (fuel : nat) (path : string) (visited visited' : gset string)
    (rigConfig : option RigConfig) (st st' : state) (r : completion value) :
  _loadConfigurationFileInnerWithCacheAsync E C fs fuel path visited rigConfig st
    = (r, st', visited') ->
  path ∉ visited ->
  (forall s, r <> Stuck s) ->
  exists p, _configPromiseCache st' !! path = Some p /\ p <> Pending /\ await p = r.
Proof.
  destruct fuel as [| fuel]; simpl.
  - intros [= <- <- <-] _ Hs. by destruct (Hs OutOfFuel).
  - unfold loadWithCacheStep.
    destruct (_configPromiseCache st !! path) as [entry |] eqn:Hcache;
      intros Hrun Hnot Hs; rewrite decide_False in Hrun by done.
    + inversion Hrun; subst. exists entry. split; [done |]. split; [| done].
      intros ->. by destruct (Hs Hang).
    + destruct (_loadConfigurationFileInnerAsync _ _ _ _ _ _ _ _) as [[r0 st2] visited2].
      inversion Hrun; subst.
      destruct r as [v | e | s]; simpl; [| | by destruct (Hs s)].
      * exists (Fulfilled v). by rewrite lookup_insert_eq.
      * exists (Rejected e). by rewrite lookup_insert_eq.
Qed.

Lemma loadWithCache_miss (fuel : nat) (path : string) (visited : gset string)
    (rigConfig : option RigConfig) (st : state) :
  _configPromiseCache st !! path = None ->
  path ∉ visited ->
  (_loadConfigurationFileInnerWithCacheAsync E C fs (S fuel) path visited rigConfig st).1.1
  = (_loadConfigurationFileInnerAsync E C fs
       (_loadConfigurationFileInnerWithCacheAsync E C fs fuel) path
       ({[path]} ∪ visited) rigConfig (cacheSet path Pending st)).1.1.
Proof.
  intros Hcache Hnot. simpl. unfold loadWithCacheStep. rewrite Hcache.
  rewrite decide_False by done.
  by destruct (_loadConfigurationFileInnerAsync _ _ _ _ _ _ _ _) as [[r st2] visited2].
Qed.

Lemma load_completion (projectPath : string) (rigConfig : option RigConfig) (st : state) :
  (loadConfigurationFileForProjectAsync E C fs projectPath rigConfig st).1
  = (_loadConfigurationFileInnerWithCacheAsync E C fs (loadFuel fs)
       (_getConfigurationFilePathForProject E C projectPath)
       ∅ rigConfig st).1.1.
Proof.
  unfold loadConfigurationFileForProjectAsync.
  by destruct (_loadConfigurationFileInnerWithCacheAsync E C fs (loadFuel fs) _ ∅ rigConfig st)
       as [[r st'] visited'].
Qed.

Lemma tryLoad_completion (projectPath : string) (rigConfig : option RigConfig) (st : state) :
  (tryLoadConfigurationFileForProjectAsync E C fs projectPath rigConfig st).1
  = match (loadConfigurationFileForProjectAsync E C fs projectPath rigConfig st).1 with
    | Throw e => if isNotExistError e then Return VUndefined else Throw e
    | other => other
    end.
Proof.
  unfold tryLoadConfigurationFileForProjectAsync.
  destruct (loadConfigurationFileForProjectAsync E C fs projectPath rigConfig st)
    as [[v | e | s] st']; simpl; [done | | done].
  by destruct (isNotExistError e).
Qed.

(** ** The loader: it always completes *)

Lemma uncachedFiles_recordRead (path : string) (st : state) :
  uncachedFiles fs (recordRead path st) = uncachedFiles fs st.
Proof. done. Qed.

Lemma uncachedFiles_cacheSet_le (path : string) (p : promise) (st : state) :
  uncachedFiles fs (cacheSet path p st) <= uncachedFiles fs st.
Proof.
  unfold uncachedFiles, cacheSet. simpl. apply subseteq_size.
  rewrite dom_insert_L. set_solver.
Qed.

Lemma uncachedFiles_cacheSet_lt (path : string) (p : promise) (st : state) :
  is_Some (fs !! path) ->
  _configPromiseCache st !! path = None ->
  uncachedFiles fs (cacheSet path p st) < uncachedFiles fs st.
Proof.
  intros Hfile Hcache. unfold uncachedFiles, cacheSet. simpl. apply subset_size.
  rewrite dom_insert_L. apply elem_of_dom in Hfile. apply not_elem_of_dom in Hcache.
  set_solver.
Qed.

Lemma mergeAndValidate_not_stuck (parentConfiguration configurationJson : value)
    (path : string) (s : stuck) :
  mergeAndValidate E C parentConfiguration configurationJson path <> Stuck s.
Proof.
  unfold mergeAndValidate, _mergeConfigurationFiles.
  destruct (_mergeObjects _ _ _ _ _) as [v | e | s0] eqn:Hm; simpl.
  - by destruct (validateObject E v path).
  - done.
  - exfalso. revert Hm. apply mergeObjects_fuel.
Qed.

Lemma inner_completes (recurse : loader) (budget : nat) (path : string)
    (visited : gset string) (rigConfig : option RigConfig) (st : state) :
  completesWithin fs recurse budget ->
  pendingWithin st visited ->
  match fs !! path, rigConfig with
  | None, None => True
  | _, _ => uncachedFiles fs st < budget
  end ->
  forall r st' visited',
    _loadConfigurationFileInnerAsync E C fs recurse path visited rigConfig st
      = (r, st', visited') ->
    (forall s, r <> Stuck s)
    /\ (forall p, _configPromiseCache st' !! p = Some Pending ->
                   _configPromiseCache st !! p = Some Pending).
Proof.
  intros Hrec Hpending Hbudget r st' visited'. unfold _loadConfigurationFileInnerAsync.
  assert (Hread : pendingWithin (recordRead path st) visited) by done.
  destruct (fs !! path) as [[text | message] |] eqn:Hfile.
  - assert (Hb : uncachedFiles fs st < budget) by (by destruct rigConfig).
    clear Hbudget. rename Hb into Hbudget.
    destruct (parseString E text) as [cause | parsed]; [by intros [= <- <- <-] |].
    destruct (rewriteJsonPaths E path _) as [e | configurationJson];
      [by intros [= <- <- <-] |].
    destruct (isUndefined configurationJson || isNull configurationJson);
      [by intros [= <- <- <-] |].
    destruct (truthy (getProp configurationJson "extends"));
      [| intros [= <- <- <-]; split; [apply mergeAndValidate_not_stuck | done]].
    destruct (resolveModule E _ _) as [e | parentPath]; [by intros [= <- <- <-] |].
    destruct (recurse parentPath visited None (recordRead path st))
      as [[r0 st0] visited0] eqn:Hcall.
    destruct (Hrec _ _ _ Hread Hbudget _ _ _ Hcall) as [Hs Hp].
    destruct r0 as [parent | e | s]; intros [= <- <- <-].
    + split; [apply mergeAndValidate_not_stuck | done].
    + done.
    + by destruct (Hs s).
  - by intros [= <- <- <-].
  - destruct rigConfig as [rig |]; [| by intros [= <- <- <-]].
    unfold _tryLoadConfigurationFileInRigAsync.
    destruct (rigFound rig); [| by intros [= <- <- <-]].
    destruct (recurse _ visited None (recordRead path st)) as [[r0 st0] visited0] eqn:Hcall.
    destruct (Hrec _ _ _ Hread Hbudget _ _ _ Hcall) as [Hs Hp].
    destruct r0 as [v | e | s].
    + destruct (truthy v); by intros [= <- <- <-].
    + destruct (isNotExistError e); simpl; by intros [= <- <- <-].
    + by destruct (Hs s).
Qed.

Lemma settle_pending (path : string) (r : completion value) (st : state) (p : string) :
  (forall s, r <> Stuck s) ->
  _configPromiseCache (settle path r st) !! p = Some Pending ->
  p <> path /\ _configPromiseCache st !! p = Some Pending.
Proof.
  intros Hs. destruct r as [v | e | s]; [| | by destruct (Hs s)]; simpl;
    (destruct (decide (path = p)) as [-> | Hne];
     [by rewrite lookup_insert_eq | by rewrite lookup_insert_ne]).
Qed.

(** Fuel above the number of files not yet cached, and one more when a rig
    may be consulted, is enough for a load to complete. *)
Lemma load_completes (fuel : nat) :
  forall path visited rigConfig st,
    pendingWithin st visited ->
    uncachedFiles fs st + match rigConfig with Some _ => 2 | None => 1 end <= fuel ->
    forall r st' visited',
      _loadConfigurationFileInnerWithCacheAsync E C fs fuel path visited rigConfig st
        = (r, st', visited') ->
      (forall s, r <> Stuck s)
      /\ (forall p, _configPromiseCache st' !! p = Some Pending ->
                     _configPromiseCache st !! p = Some Pending).
Proof.
  induction fuel as [| fuel IH]; intros path visited rigConfig st Hpending Hfuel r st' visited';
    [destruct rigConfig; lia |].
  assert (Hrec : completesWithin fs (_loadConfigurationFileInnerWithCacheAsync E C fs fuel) fuel).
  { intros p v s Hp Hb. apply IH; [done | lia]. }
  simpl. unfold loadWithCacheStep.
  destruct (_configPromiseCache st !! path) as [entry |] eqn:Hcache.
  - destruct (decide (path ∈ visited)) as [Hin | Hnot]; intros [= <- <- <-]; [done |].
    split; [| done]. intros s. destruct entry; try done.
    destruct Hnot. by apply Hpending.
  - set (st1 := cacheSet path Pending st).
    assert (Hbudget : match fs !! path, rigConfig with
                      | None, None => True
                      | _, _ => uncachedFiles fs st1 < fuel
                      end).
    { pose proof (uncachedFiles_cacheSet_le path Pending st) as Hle. fold st1 in Hle.
      destruct (fs !! path) eqn:Hfile.
      - pose proof (uncachedFiles_cacheSet_lt path Pending st (mk_is_Some _ _ Hfile) Hcache)
          as Hlt.
        fold st1 in Hlt. destruct rigConfig; lia.
      - destruct rigConfig; [lia | done]. }
    assert (Hback : forall p, _configPromiseCache st1 !! p = Some Pending ->
                              p <> path -> _configPromiseCache st !! p = Some Pending).
    { intros p Hp Hne. unfold st1, cacheSet in Hp. simpl in Hp.
      by rewrite lookup_insert_ne in Hp. }
    destruct (decide (path ∈ visited)) as [Hin | Hnot].
    + assert (Hp1 : pendingWithin st1 visited).
      { intros p Hp. destruct (decide (p = path)) as [-> | Hne]; [done |].
        apply Hpending. by apply Hback. }
      destruct (_loadConfigurationFileInnerAsync E C fs _ path visited rigConfig st1)
        as [[r0 st2] visited2] eqn:Hinner.
      destruct (inner_completes _ _ _ _ _ _ Hrec Hp1 Hbudget _ _ _ Hinner) as [Hs Hp].
      intros [= <- <- <-]. split; [done |].
      intros p Hpend. apply (settle_pending _ _ _ _ Hs) in Hpend as [Hne Hpend].
      apply Hback; [by apply Hp | done].
    + assert (Hp1 : pendingWithin st1 ({[path]} ∪ visited)).
      { intros p Hp. destruct (decide (p = path)) as [-> | Hne]; [set_solver |].
        apply elem_of_union_r, Hpending. by apply Hback. }
      destruct (_loadConfigurationFileInnerAsync E C fs _ path _ rigConfig st1)
        as [[r0 st2] visited2] eqn:Hinner.
      destruct (inner_completes _ _ _ _ _ _ Hrec Hp1 Hbudget _ _ _ Hinner) as [Hs Hp].
      intros [= <- <- <-]. split; [done |].
      intros p Hpend. apply (settle_pending _ _ _ _ Hs) in Hpend as [Hne Hpend].
      apply Hback; [by apply Hp | done].
Qed.

Lemma uncachedFiles_bound (st : state) : uncachedFiles fs st <= size fs.
Proof.
  unfold uncachedFiles. rewrite <- (size_dom (D := gset string) fs).
  apply subseteq_size. set_solver.
Qed.

(** From a settled state a call completes, and leaves a settled state. *)
Lemma load_from_settled_state (projectPath : string) (rigConfig : option RigConfig)
    (st : state) :
  settledState st ->
  (forall s, (loadConfigurationFileForProjectAsync E C fs projectPath rigConfig st).1 <> Stuck s)
  /\ settledState (loadConfigurationFileForProjectAsync E C fs projectPath rigConfig st).2.
Proof.
  intros Hsettled. unfold loadConfigurationFileForProjectAsync.
  destruct (_loadConfigurationFileInnerWithCacheAsync E C fs (loadFuel fs) _ ∅ rigConfig st)
    as [[r st'] visited'] eqn:Hrun.
  assert (Hpending : pendingWithin st ∅) by (intros p Hp; by destruct (Hsettled p)).
  assert (Hfuel : uncachedFiles fs st + match rigConfig with Some _ => 2 | None => 1 end
                  <= loadFuel fs).
  { pose proof (uncachedFiles_bound st). unfold loadFuel. destruct rigConfig; lia. }
  destruct (load_completes _ _ _ _ _ Hpending Hfuel _ _ _ Hrun) as [Hs Hp].
  split; [done |]. intros p Hpend. simpl in Hpend. by destruct (Hsettled p (Hp p Hpend)).
Qed.

(** ** The loader: a chain of [extends] that comes back *)

Lemma extendsChain_sources (chain : list string) :
  forall p target x,
    extendsChain E fs p chain target -> x ∈ p :: chain -> is_Some (fs !! x).
Proof.
  induction chain as [| q rest IH]; intros p target x; simpl.
  - intros (text & _ & _ & Hfile & _) Hx. apply list_elem_of_singleton in Hx. subst. eauto.
  - intros [(text & _ & _ & Hfile & _) Hrest] Hx.
    apply elem_of_cons in Hx as [-> | Hx]; [eauto | by eapply IH].
Qed.

Lemma chain_comes_back (chain : list string) :
  forall p target visited rigConfig st fuel,
    extendsChain E fs p chain target ->
    NoDup (p :: chain) ->
    (forall x, x ∈ p :: chain -> _configPromiseCache st !! x = None /\ x ∉ visited) ->
    target ∈ visited \/ target ∈ p :: chain ->
    length chain + 2 <= fuel ->
    (_loadConfigurationFileInnerWithCacheAsync E C fs fuel p visited rigConfig st).1.1
    = Throw (LoopDetected target).
Proof.
  induction chain as [| q rest IH];
    intros p target visited rigConfig st fuel Hchain Hnd Hfresh Htarget Hfuel;
    (destruct fuel as [| fuel]; [simpl in Hfuel; lia |]);
    destruct (Hfresh p) as [Hcache Hnot]; [by left | | by left |];
    simpl; unfold loadWithCacheStep; rewrite Hcache; rewrite decide_False by done;
    unfold _loadConfigurationFileInnerAsync.
  - destruct Hchain as (text & parsed & configurationJson & Hfile & Hparse & Hrewrite
                        & Hnullish & Hextends & Hresolve).
    rewrite Hfile, Hparse, Hrewrite, Hnullish, Hextends, Hresolve.
    destruct fuel as [| fuel]; [simpl in Hfuel; lia |].
    assert (Hin : target ∈ ({[p]} ∪ visited : gset string)).
    { destruct Htarget as [Hv | Hp]; [set_solver |].
      apply list_elem_of_singleton in Hp. set_solver. }
    pose proof (loop_check_precedes_await
                  (_loadConfigurationFileInnerWithCacheAsync E C fs fuel) target _ None
                  (recordRead p (cacheSet p Pending st)) Hin) as Hloop.
    simpl. destruct (loadWithCacheStep _ _ _ _ _ _ _ _) as [[r0 st0] visited0].
    simpl in Hloop. by subst r0.
  - destruct Hchain as [(text & parsed & configurationJson & Hfile & Hparse & Hrewrite
                         & Hnullish & Hextends & Hresolve) Hrest].
    rewrite Hfile, Hparse, Hrewrite, Hnullish, Hextends, Hresolve.
    apply NoDup_cons in Hnd as [Hp Hnd].
    assert (Hnext : (_loadConfigurationFileInnerWithCacheAsync E C fs fuel q
                       ({[p]} ∪ visited) None
                       (recordRead p (cacheSet p Pending st))).1.1
                    = Throw (LoopDetected target)).
    { apply (IH q target); [done | done | | | simpl in Hfuel; lia].
      - intros x Hx. destruct (Hfresh x) as [Hc Hv]; [by right |].
        assert (Hne : x <> p) by (intros ->; done).
        split; [simpl; by rewrite lookup_insert_ne | set_solver].
      - destruct Htarget as [Hv | Hin]; [left; set_solver |].
        apply elem_of_cons in Hin as [-> | Hin]; [left; set_solver | by right]. }
    destruct (_loadConfigurationFileInnerWithCacheAsync E C fs fuel q _ None _)
      as [[r0 st0] visited0].
    simpl in Hnext. by subst r0.
Qed.

Lemma distinct_files_bound (l : list string) :
  NoDup l -> (forall x, x ∈ l -> is_Some (fs !! x)) -> length l <= size fs.
Proof.
  intros Hnd Hfiles. rewrite <- (size_dom (D := gset string) fs).
  rewrite <- (size_list_to_set (C := gset string) l Hnd).
  apply subseteq_size. intros x Hx. apply elem_of_list_to_set in Hx.
  apply elem_of_dom. by apply Hfiles.
Qed.

(** The same through the rig: the requested file is missing and the file
    of the rig starts the chain. *)
Lemma chain_through_rig_comes_back (projectPath : string) (rig : RigConfig) (st : state)
    (chain : list string) (target : string) :
  let path := _getConfigurationFilePathForProject E C projectPath in
  let rigPath :=
    resolve E (getResolvedProfileFolderAsync rig) (projectRelativeFilePath C) in
  fs !! path = None ->
  rigFound rig = true ->
  extendsChain E fs rigPath chain target ->
  NoDup (rigPath :: chain) ->
  target = path \/ target ∈ rigPath :: chain ->
  _configPromiseCache st !! path = None ->
  (forall x, x ∈ rigPath :: chain -> _configPromiseCache st !! x = None) ->
  (loadConfigurationFileForProjectAsync E C fs projectPath (Some rig) st).1
  = Throw (LoopDetected target).
Proof.
  intros path rigPath Hfile Hfound Hchain Hnd Htarget Hcache Hfresh.
  rewrite load_completion. fold path. unfold loadFuel.
  change (2 + size fs) with (S (S (size fs))).
  rewrite (loadWithCache_miss _ _ _ _ _ Hcache) by set_solver.
  rewrite (inner_falls_back_to_rig _ _ _ _ _ Hfile Hfound). fold rigPath.
  assert (Hsources : forall x, x ∈ rigPath :: chain -> is_Some (fs !! x))
    by (intros x Hx; by apply (extendsChain_sources chain rigPath target)).
  assert (Hlen : length (rigPath :: chain) <= size fs)
    by (by apply distinct_files_bound).
  assert (Hloop : (_loadConfigurationFileInnerWithCacheAsync E C fs (S (size fs)) rigPath
                     ({[path]} ∪ ∅) None (recordRead path (cacheSet path Pending st))).1.1
                  = Throw (LoopDetected target)).
  { apply (chain_comes_back chain rigPath target); [done | done | | | simpl in *; lia].
    - intros x Hx. assert (Hne : x <> path).
      { intros ->. destruct (Hsources path Hx) as [entry Hentry]. congruence. }
      split; [simpl; rewrite lookup_insert_ne by done; by apply Hfresh | set_solver].
    - destruct Htarget as [-> | Hin]; [left; set_solver | by right]. }
  destruct (_loadConfigurationFileInnerWithCacheAsync E C fs (S (size fs)) rigPath _ None _)
    as [[r0 st0] visited0].
  simpl in Hloop. by subst r0.
Qed.

End LoaderFacts.

(** ** C1: a cycle is reported, and the loader never hangs *)

(** C1.  The loop check throws the loop error naming the path whenever the
    path is already visited, whatever promise the cache holds for it, the
    pending one included, and before any promise is awaited.  From a state in
    which every cached promise has settled, a call always completes: it
    neither hangs nor runs short of fuel, and it leaves such a state behind.
    And when the requested file, or the file of the rig that stands in for a
    missing one, starts a chain of [extends] that leads back to a file of the
    chain, none of them cached yet, the call fails with the loop error
    naming the file the chain comes back to. *)
Theorem extends_cycle_is_detected :
  forall (E : Collaborators) (C : ConfigurationFile) (fs : gmap string fileEntry),
    (forall recurse path visited rigConfig st,
        path ∈ visited ->
        (loadWithCacheStep E C fs recurse path visited rigConfig st).1.1
        = Throw (LoopDetected path))
    /\ (forall projectPath rigConfig st,
          settledState st ->
          (forall s, (loadConfigurationFileForProjectAsync E C fs projectPath rigConfig st).1
                     <> Stuck s)
          /\ settledState
               (loadConfigurationFileForProjectAsync E C fs projectPath rigConfig st).2)
    /\ (forall projectPath rigConfig st chain target,
          let path := _getConfigurationFilePathForProject E C projectPath in
          extendsChain E fs path chain target ->
          NoDup (path :: chain) ->
          target ∈ path :: chain ->
          (forall x, x ∈ path :: chain -> _configPromiseCache st !! x = None) ->
          (loadConfigurationFileForProjectAsync E C fs projectPath rigConfig st).1
          = Throw (LoopDetected target))
    /\ (forall projectPath rig st chain target,
          let path := _getConfigurationFilePathForProject E C projectPath in
          let rigPath :=
            resolve E (getResolvedProfileFolderAsync rig) (projectRelativeFilePath C) in
          fs !! path = None ->
          rigFound rig = true ->
          extendsChain E fs rigPath chain target ->
          NoDup (rigPath :: chain) ->
          target = path \/ target ∈ rigPath :: chain ->
          _configPromiseCache st !! path = None ->
          (forall x, x ∈ rigPath :: chain -> _configPromiseCache st !! x = None) ->
          (loadConfigurationFileForProjectAsync E C fs projectPath (Some rig) st).1
          = Throw (LoopDetected target)).
Proof.
  intros E C fs. split; [| split; [| split]]; [| | | apply chain_through_rig_comes_back].
  - apply loop_check_precedes_await.
  - apply load_from_settled_state.
  - intros projectPath rigConfig st chain target path Hchain Hnd Htarget Hfresh.
    unfold loadConfigurationFileForProjectAsync. fold path.
    assert (Hlen : length (path :: chain) <= size fs).
    { apply distinct_files_bound; [done |]. intros x Hx.
      by apply (extendsChain_sources E fs chain path target). }
    pose proof (chain_comes_back E C fs chain path target ∅ rigConfig st (loadFuel fs)
                  Hchain Hnd) as Hloop.
    destruct (_loadConfigurationFileInnerWithCacheAsync E C fs (loadFuel fs) path ∅ rigConfig st)
      as [[r st'] visited'].
    simpl in *. apply Hloop.
    + intros x Hx. split; [by apply Hfresh | set_solver].
    + by right.
    + unfold loadFuel. lia.
Qed.

(** ** C5: the promise of a failed load stays in the cache *)



(** ** C4: the fallback shares the visited set *)

(** C4, as the code has it.  When the primary file does not exist and a rig is
    configured and found, the load is the load of
    [resolve(rigProfileFolder, projectRelativeFilePath)] with the visited set
    of the primary attempt and with no rig: its result if that is truthy,
    its failure unless that is a missing file, and the failure of the
    primary file otherwise.  A call therefore hands the fallback a visited
    set that holds the primary path, and a fallback that resolves to the
    primary path fails with the loop error. *)
Theorem fallback_shares_visited_set :
  forall (E : Collaborators) (C : ConfigurationFile) (fs : gmap string fileEntry)
         (path : string) (rig : RigConfig),
    fs !! path = None ->
    rigFound rig = true ->
    let rigPath :=
      resolve E (getResolvedProfileFolderAsync rig) (projectRelativeFilePath C) in
    let missing := FileDoesNotExist ("File does not exist: " ++ path) in
    (forall (recurse : loader) (visited : gset string) (st : state),
        _loadConfigurationFileInnerAsync E C fs recurse path visited (Some rig) st
        = match recurse rigPath visited None (recordRead path st) with
          | (Return rigResult, st', visited') =>
              if truthy rigResult then (Return rigResult, st', visited')
              else (Throw missing, st', visited')
          | (Throw e, st', visited') =>
              if isNotExistError e then (Throw missing, st', visited')
              else (Throw e, st', visited')
          | (Stuck s, st', visited') => (Stuck s, st', visited')
          end)
    /\ (forall (fuel : nat) (st : state),
          _configPromiseCache st !! path = None ->
          (_loadConfigurationFileInnerWithCacheAsync E C fs (S fuel) path ∅ (Some rig) st).1.1
          = (_loadConfigurationFileInnerAsync E C fs
               (_loadConfigurationFileInnerWithCacheAsync E C fs fuel)
               path {[path]} (Some rig) (cacheSet path Pending st)).1.1)
    /\ (forall (fuel : nat) (st : state),
          _configPromiseCache st !! path = None ->
          rigPath = path ->
          (_loadConfigurationFileInnerWithCacheAsync E C fs (S (S fuel)) path ∅ (Some rig) st).1.1
          = Throw (LoopDetected path)).
Proof.
  intros E C fs path rig Hfile Hfound rigPath missing.
  assert (Hinner := fun recurse visited st =>
            inner_falls_back_to_rig E C fs recurse path visited rig st Hfile Hfound).
  fold rigPath missing in Hinner.
  assert (Hstep : forall (fuel : nat) (st : state),
             _configPromiseCache st !! path = None ->
             (_loadConfigurationFileInnerWithCacheAsync E C fs (S fuel) path ∅ (Some rig) st).1.1
             = (_loadConfigurationFileInnerAsync E C fs
                  (_loadConfigurationFileInnerWithCacheAsync E C fs fuel)
                  path {[path]} (Some rig) (cacheSet path Pending st)).1.1).
  { intros fuel st Hcache. simpl. unfold loadWithCacheStep. rewrite Hcache.
    rewrite decide_False by set_solver.
    replace ({[path]} ∪ ∅ : gset string) with ({[path]} : gset string) by set_solver.
    by destruct (_loadConfigurationFileInnerAsync _ _ _ _ _ _ _ _) as [[r st2] visited2]. }
  split; [exact Hinner |]. split; [exact Hstep |].
  intros fuel st Hcache Hsame. rewrite (Hstep _ _ Hcache), Hinner, Hsame.
  pose proof (loop_check_precedes_await E C fs
                (_loadConfigurationFileInnerWithCacheAsync E C fs fuel) path {[path]} None
                (recordRead path (cacheSet path Pending st))) as Hloop.
  simpl. destruct (loadWithCacheStep _ _ _ _ _ _ _ _) as [[r0 st0] visited0].
  simpl in Hloop. rewrite Hloop by set_solver. done.
Qed.

(** The fallback at work: the project has no file, the rig profile has one,
    and the call loads the file of the rig; without a rig it fails. *)
Lemma fallback_example :
  (loadConfigurationFileForProjectAsync Sample.collaborators Sample.tool
     Sample.rigFiles "/proj" (Some Sample.rig) initialState).1
  = Return (_annotateProperties "/rig/profiles/default/tool.json" Sample.plain)
  /\ (loadConfigurationFileForProjectAsync Sample.collaborators Sample.tool
        Sample.rigFiles "/proj" None initialState).1
     = Throw (FileDoesNotExist "File does not exist: /proj/tool.json").
Proof. split; vm_compute; reflexivity. Qed.

(** C4, on a rig whose profile folder is the project folder.  The primary
    file is missing and the fallback resolves to the same path: the call
    fails with the loop error, because the fallback is checked against the
    visited set of the primary attempt, which holds that path.  Checked
    against a fresh set, the same load would instead wait for the pending
    promise of the primary attempt. *)
Lemma fallback_is_not_an_independent_chain :
  let call :=
    loadConfigurationFileForProjectAsync Sample.collaborators Sample.tool
      Sample.noFiles "/proj" (Some Sample.rigOnProject) initialState in
  let duringPrimary :=
    recordRead Sample.toolPath (cacheSet Sample.toolPath Pending initialState) in
  let fallback (visited : gset string) :=
    (_loadConfigurationFileInnerWithCacheAsync Sample.collaborators Sample.tool
       Sample.noFiles 2 Sample.toolPath visited None duringPrimary).1.1 in
  call.1 = Throw (LoopDetected Sample.toolPath)
  /\ fallback {[Sample.toolPath]} = Throw (LoopDetected Sample.toolPath)
  /\ fallback ∅ = Stuck Hang
  /\ fallback {[Sample.toolPath]} <> fallback ∅.
Proof.
  repeat split; try (vm_compute; reflexivity). vm_compute. discriminate.
Qed.

(** ** The failures of a merge *)

Lemma getPropertyOriginalValue_throws (holder : value) (name : string) (e : error) :
  getPropertyOriginalValue holder name = Throw e -> isNotExistError e = false.
Proof.
  destruct holder as [| | b | n | s | a items | a props]; simpl;
    try (by intros [= <-]); try done;
    destruct a as [a |]; try done; by destruct (assoc name (originalValues a)).
Qed.

Lemma mergeProperty_throws (recurse : value -> value -> completion value)
    (parentObject currentObject : value) (inheritance : IPropertyInheritance)
    (name : string) (e : error) :
  (forall parent child e', recurse parent child = Throw e' -> isNotExistError e' = false) ->
  (forall f cv pv e', inheritanceFunction inheritance = Some f -> f cv pv = inl e' ->
                      isNotExistError e' = false) ->
  mergeProperty recurse parentObject currentObject inheritance name = Throw e ->
  isNotExistError e = false.
Proof.
  intros Hrec Hcustom.
  assert (Huse : forall v, usePropertyValue currentObject name v = Throw e ->
                           isNotExistError e = false).
  { intros v. unfold usePropertyValue.
    destruct (getPropertyOriginalValue currentObject name) eqn:Ho; simpl; try done.
    intros [= <-]. by apply getPropertyOriginalValue_throws in Ho. }
  assert (Hparent : forall v, useParentPropertyValue parentObject name v = Throw e ->
                              isNotExistError e = false).
  { intros v. unfold useParentPropertyValue.
    destruct (getPropertyOriginalValue parentObject name) eqn:Ho; simpl; try done.
    intros [= <-]. by apply getPropertyOriginalValue_throws in Ho. }
  unfold mergeProperty.
  repeat (case_match; eauto); try (by intros [= <-]).
  - destruct (recurse _ _) eqn:Hr; simpl; try done. intros [= <-]. eauto.
  - unfold called. destruct (p _ _) eqn:Hf; simpl; try done. intros [= <-]. eauto.
Qed.

Lemma effectiveInheritance_function (m : gmap string IPropertyInheritance)
    (configured : option IPropertiesInheritance) (name : string) (cv pv : value)
    (f : PropertyInheritanceCustomFunction) :
  (forall t i, m !! t = Some i -> inheritanceFunction i = None) ->
  inheritanceFunction (effectiveInheritance m configured name cv pv) = Some f ->
  exists entries inheritance,
    configured = Some entries /\ assoc name entries = Some inheritance
    /\ inheritanceFunction inheritance = Some f.
Proof.
  intros Hplain. unfold effectiveInheritance.
  destruct (m !! name) as [i |] eqn:Hi; [by rewrite (Hplain _ _ Hi) |].
  destruct configured as [entries |]; [| by destruct (isArray cv && isArray pv)].
  destruct (assoc name entries) as [inheritance |] eqn:He;
    [eauto | by destruct (isArray cv && isArray pv)].
Qed.

Lemma gatherMergeBehaviors_plain (currentObject : value) (ignore : option (gset string))
    (all names : list string) :
  forall m f m' f',
    gatherMergeBehaviors currentObject ignore all names m f = Return (m', f') ->
    (forall t i, m !! t = Some i -> inheritanceFunction i = None) ->
    forall t i, m' !! t = Some i -> inheritanceFunction i = None.
Proof.
  induction names as [| n rest IH]; intros m f m' f' Hrun Hplain; simpl in Hrun.
  - by inversion Hrun; subst.
  - assert (Hstep : forall t0 ty t i,
               <[t0 := plainInheritance ty]> m !! t = Some i ->
               inheritanceFunction i = None).
    { intros t0 ty t i. destruct (decide (t0 = t)) as [-> | Hne].
      - rewrite lookup_insert_eq. by intros [= <-].
      - rewrite lookup_insert_ne by done. eauto. }
    repeat case_match; try done; eauto.
Qed.

Lemma mergeProperties_throws (recurse : value -> value -> completion value)
    (parentObject currentObject : value) (m : gmap string IPropertyInheritance)
    (configured : option IPropertiesInheritance) (names : list string) :
  (forall parent child e', recurse parent child = Throw e' -> isNotExistError e' = false) ->
  (forall t i, m !! t = Some i -> inheritanceFunction i = None) ->
  customNeverMissesFile configured ->
  forall ov props e,
    mergeProperties recurse parentObject currentObject m configured names ov props = Throw e ->
    isNotExistError e = false.
Proof.
  intros Hrec Hplain Hcustom.
  induction names as [| n rest IH]; intros ov props e; simpl; [done |].
  destruct (mergeProperty recurse parentObject currentObject _ n) as [r | e0 | s] eqn:Hm;
    simpl; [apply IH | | done].
  intros [= <-]. revert Hm. apply mergeProperty_throws; [done |].
  intros f cv pv e' Hf Hfail.
  destruct (effectiveInheritance_function _ _ _ _ _ _ Hplain Hf)
    as (entries & inheritance & Hcfg & Hentry & Hfun).
  by apply (Hcustom _ _ _ _ _ _ _ Hcfg Hentry Hfun Hfail).
Qed.

Lemma isMergeDirectiveError_not_missing (e : error) :
  isMergeDirectiveError e = true -> isNotExistError e = false.
Proof. by destruct e. Qed.

Lemma mergeObjectsFuel_throws (n : nat) :
  forall parentObject currentObject path configured ignore e,
    customNeverMissesFile configured ->
    mergeObjectsFuel n parentObject currentObject path configured ignore = Throw e ->
    isNotExistError e = false.
Proof.
  induction n as [| n IH]; intros parentObject currentObject path configured ignore e Hcustom;
    simpl; [done |].
  unfold mergeObjectsStep.
  destruct (gatherMergeBehaviors currentObject ignore _ _ ∅ []) as [[m f] | e0 | s] eqn:Hg;
    simpl; [| | done].
  - destruct (mergeProperties _ _ _ _ _ _ _ _) as [r | e0 | s] eqn:Hloop; simpl; try done.
    intros [= <-]. revert Hloop. apply mergeProperties_throws; [| | done].
    + intros parent child e'. apply IH. by intros entries ? ? ? ? ? ? [=].
    + intros t i. by apply (gatherMergeBehaviors_plain _ _ _ _ _ _ _ _ Hg).
  - intros [= <-]. apply isMergeDirectiveError_not_missing.
    by apply gatherMergeBehaviors_throws in Hg.
Qed.

(** ** C2: which failures [tryLoad] turns into an absent result *)

Section TryLoad.
Context (E : Collaborators) (C : ConfigurationFile) (fs : gmap string fileEntry).
Context (Hrewrite : rewriteNeverMissesFile E)
        (Hcustom : customNeverMissesFile (Some (_propertyInheritanceTypes C))).

Lemma mergeAndValidate_kinds (parentConfiguration configurationJson : value) (path : string) :
  (forall v, mergeAndValidate E C parentConfiguration configurationJson path = Return v ->
             truthy v = true)
  /\ (forall e, mergeAndValidate E C parentConfiguration configurationJson path = Throw e ->
                isNotExistError e = false).
Proof.
  unfold mergeAndValidate, _mergeConfigurationFiles. split.
  - intros v. rewrite mergeObjects_unfold. unfold mergeObjectsStep.
    destruct (gatherMergeBehaviors _ _ _ _ _ _); simpl; try done.
    destruct (mergeProperties _ _ _ _ _ _ _ _); simpl; try done.
    destruct (validateObject E _ path); [done |]. by intros [= <-].
  - intros e. destruct (_mergeObjects _ _ _ _ _) as [v | e0 | s] eqn:Hm; simpl; [| | done].
    + destruct (validateObject E v path); [by intros [= <-] | done].
    + intros [= <-]. revert Hm. by apply mergeObjectsFuel_throws.
Qed.

(** What the load of a file that exists can end in: an object, or a
    failure other than a missing file. *)
Lemma inner_of_existing_file (recurse : loader) (path : string) (visited : gset string)
    (rigConfig : option RigConfig) (st : state) :
  is_Some (fs !! path) ->
  forall r st' visited',
    _loadConfigurationFileInnerAsync E C fs recurse path visited rigConfig st
      = (r, st', visited') ->
    (forall v, r = Return v -> truthy v = true)
    /\ (forall e, r = Throw e -> isNotExistError e = false).
Proof.
  intros [entry Hfile] r st' visited'. unfold _loadConfigurationFileInnerAsync. rewrite Hfile.
  destruct entry as [text | message];
    [| intros [= <- <- <-]; split; [done | by intros ? [= <-]]].
  destruct (parseString E text) as [cause | parsed];
    [intros [= <- <- <-]; split; [done | by intros ? [= <-]] |].
  destruct (rewriteJsonPaths E path _) as [e | configurationJson] eqn:Hr.
  { intros [= <- <- <-]. split; [done |]. intros e0 [= <-]. by apply Hrewrite in Hr. }
  destruct (isUndefined configurationJson || isNull configurationJson);
    [intros [= <- <- <-]; split; [done | by intros ? [= <-]] |].
  destruct (truthy (getProp configurationJson "extends")).
  - destruct (resolveModule E _ _) as [e | parentPath].
    { intros [= <- <- <-]. split; [done |]. intros e0 [= <-].
      by destruct (isNotExistError e) eqn:He. }
    destruct (recurse parentPath visited None (recordRead path st)) as [[r0 st0] visited0].
    destruct r0 as [parent | e | s]; intros [= <- <- <-].
    + apply mergeAndValidate_kinds.
    + split; [done |]. intros e0 [= <-]. by destruct (isNotExistError e) eqn:He.
    + done.
  - intros [= <- <- <-]. apply mergeAndValidate_kinds.
Qed.

Lemma inner_of_missing_file (recurse : loader) (path : string) (visited : gset string)
    (st : state) :
  fs !! path = None ->
  _loadConfigurationFileInnerAsync E C fs recurse path visited None st
  = (Throw (FileDoesNotExist ("File does not exist: " ++ path)), recordRead path st, visited).
Proof. intros Hfile. unfold _loadConfigurationFileInnerAsync. by rewrite Hfile. Qed.

(** The load of an uncached path that is not visited yet: of a missing file
    it is the missing-file failure, of a file that exists it is an object
    or another failure. *)
Lemma loadWithCache_uncached (fuel : nat) (path : string) (visited : gset string)
    (st : state) :
  _configPromiseCache st !! path = None ->
  path ∉ visited ->
  (fs !! path = None ->
   (_loadConfigurationFileInnerWithCacheAsync E C fs (S fuel) path visited None st).1.1
   = Throw (FileDoesNotExist ("File does not exist: " ++ path)))
  /\ (is_Some (fs !! path) ->
      (forall v,
          (_loadConfigurationFileInnerWithCacheAsync E C fs (S fuel) path visited None st).1.1
          = Return v -> truthy v = true)
      /\ (forall e,
            (_loadConfigurationFileInnerWithCacheAsync E C fs (S fuel) path visited None st).1.1
            = Throw e ->
                    isNotExistError e = false)).
Proof.
  intros Hcache Hnot. rewrite (loadWithCache_miss E C fs _ _ _ _ _ Hcache Hnot). split.
  - intros Hfile. by rewrite (inner_of_missing_file _ _ _ _ Hfile).
  - intros Hfile.
    destruct (_loadConfigurationFileInnerAsync E C fs
                (_loadConfigurationFileInnerWithCacheAsync E C fs fuel) path
                ({[path]} ∪ visited) None (cacheSet path Pending st))
      as [[r st2] visited2] eqn:Hinner.
    apply (inner_of_existing_file _ _ _ _ _ Hfile _ _ _ Hinner).
Qed.

(** The completion of a call on an uncached path, by what the file system
    and the rig hold. *)
Lemma load_of_uncached_path (projectPath : string) (rigConfig : option RigConfig) (st : state) :
  let path := _getConfigurationFilePathForProject E C projectPath in
  let attempt := (loadConfigurationFileForProjectAsync E C fs projectPath rigConfig st).1 in
  _configPromiseCache st !! path = None ->
  match rigConfig with
  | Some rig =>
      _configPromiseCache st
        !! resolve E (getResolvedProfileFolderAsync rig) (projectRelativeFilePath C) = None
  | None => True
  end ->
  (forall v, attempt = Return v -> truthy v = true)
  /\ (fs !! path = None -> fallbackIsMissing E C fs path rigConfig ->
      attempt = Throw (FileDoesNotExist ("File does not exist: " ++ path)))
  /\ (forall e, attempt = Throw e -> isNotExistError e = true ->
                fs !! path = None /\ fallbackIsMissing E C fs path rigConfig).
Proof.
  intros path attempt Hcache Hrigcache. subst attempt.
  unfold loadConfigurationFileForProjectAsync. fold path.
  assert (Hcompletion :
            (let '(r, st', _) :=
               _loadConfigurationFileInnerWithCacheAsync E C fs (loadFuel fs) path ∅ rigConfig st
             in (r, st')).1
            = (_loadConfigurationFileInnerWithCacheAsync E C fs (loadFuel fs) path ∅
                 rigConfig st).1.1)
    by (by destruct (_loadConfigurationFileInnerWithCacheAsync E C fs (loadFuel fs) path ∅
                       rigConfig st) as [[r st'] visited']).
  rewrite Hcompletion. clear Hcompletion. unfold loadFuel.
  change (2 + size fs) with (S (S (size fs))).
  rewrite (loadWithCache_miss E C fs _ _ _ _ _ Hcache) by set_solver.
  replace ({[path]} ∪ ∅ : gset string) with ({[path]} : gset string) by set_solver.
  set (st1 := cacheSet path Pending st).
  destruct (fs !! path) as [entry |] eqn:Hfile.
  - destruct (_loadConfigurationFileInnerAsync E C fs
                (_loadConfigurationFileInnerWithCacheAsync E C fs (S (size fs))) path
                {[path]} rigConfig st1) as [[r st2] visited2] eqn:Hinner.
    destruct (inner_of_existing_file _ _ _ _ _ (mk_is_Some _ _ Hfile) _ _ _ Hinner)
      as [Hret Hthrow].
    simpl. split; [done |]. split; [done |].
    intros e He Hmissing. by rewrite (Hthrow e He) in Hmissing.
  - destruct rigConfig as [rig |].
    + set (rigPath := resolve E (getResolvedProfileFolderAsync rig) (projectRelativeFilePath C))
        in *.
      unfold fallbackIsMissing. fold rigPath.
      destruct (rigFound rig) eqn:Hfound.
      * rewrite (inner_falls_back_to_rig E C fs _ _ _ _ _ Hfile Hfound). fold rigPath.
        destruct (decide (rigPath = path)) as [Hsame | Hother].
        -- pose proof (loop_check_precedes_await E C fs
                         (_loadConfigurationFileInnerWithCacheAsync E C fs (size fs)) rigPath
                         {[path]} None (recordRead path st1)) as Hloop.
           change (_loadConfigurationFileInnerWithCacheAsync E C fs (S (size fs))) with
             (loadWithCacheStep E C fs
                (_loadConfigurationFileInnerWithCacheAsync E C fs (size fs))).
           destruct (loadWithCacheStep _ _ _ _ _ _ _ _) as [[r0 st0] visited0].
           simpl in Hloop. rewrite Hloop by set_solver. simpl.
           split; [done |]. split; [intros _ [Hf | [Hne _]]; done |].
           by intros e [= <-] He.
        -- assert (Hc : _configPromiseCache (recordRead path st1) !! rigPath = None)
             by (simpl; by rewrite lookup_insert_ne).
           assert (Hv : rigPath ∉ ({[path]} : gset string)) by set_solver.
           destruct (loadWithCache_uncached (size fs) rigPath {[path]} _ Hc Hv)
             as [Hmiss Hhave].
           destruct (_loadConfigurationFileInnerWithCacheAsync E C fs (S (size fs)) rigPath
                       {[path]} None (recordRead path st1))
             as [[r0 st0] visited0].
           simpl in Hmiss, Hhave.
           destruct (fs !! rigPath) as [rigEntry |] eqn:Hrigfile.
           ++ destruct (Hhave (mk_is_Some _ _ eq_refl)) as [Hret Hthrow].
              destruct r0 as [v | e | s]; simpl.
              ** rewrite (Hret v eq_refl). simpl.
                 split; [intros ? [= <-]; by apply Hret |].
                 split; [intros _ [Hf | [_ Hf]]; done | done].
              ** rewrite (Hthrow e eq_refl). simpl.
                 split; [done |]. split; [intros _ [Hf | [_ Hf]]; done |].
                 intros e0 [= <-] He. by rewrite (Hthrow e eq_refl) in He.
              ** split; [done |]. split; [intros _ [Hf | [_ Hf]]; done | done].
           ++ rewrite (Hmiss eq_refl). simpl.
              split; [done |]. split; [done |]. intros e [= <-] _. split; [done |]. by right.
      * unfold _loadConfigurationFileInnerAsync, _tryLoadConfigurationFileInRigAsync.
        rewrite Hfile, Hfound. simpl.
        split; [done |]. split; [done |]. intros e [= <-] _. split; [done | by left].
    + rewrite (inner_of_missing_file _ _ _ _ Hfile). simpl.
      split; [done |]. split; [done |]. by intros e [= <-] _.
Qed.

(** A parent that cannot be found makes the load of the child fail with the
    broken-reference error. *)
Lemma load_of_orphan (projectPath : string) (rigConfig : option RigConfig) (st : state)
    (text : string) (parsed configurationJson : value) :
  let path := _getConfigurationFilePathForProject E C projectPath in
  let extends := getProp configurationJson "extends" in
  _configPromiseCache st !! path = None ->
  fs !! path = Some (FileText text) ->
  parseString E text = inr parsed ->
  rewriteJsonPaths E path (_annotateProperties path parsed) = inr configurationJson ->
  isUndefined configurationJson || isNull configurationJson = false ->
  truthy extends = true ->
  match resolveModule E extends (dirname E path) with
  | inl e => isNotExistError e = true
  | inr parentPath =>
      parentPath <> path
      /\ _configPromiseCache st !! parentPath = None
      /\ fs !! parentPath = None
  end ->
  (loadConfigurationFileForProjectAsync E C fs projectPath rigConfig st).1
  = Throw (BrokenExtends path extends).
Proof.
  intros path extends Hcache Hfile Hparse Hrw Hnullish Hextends Hparent.
  rewrite (load_completion E C fs). fold path. unfold loadFuel.
  change (2 + size fs) with (S (S (size fs))).
  rewrite (loadWithCache_miss E C fs _ _ _ _ _ Hcache) by set_solver.
  replace ({[path]} ∪ ∅ : gset string) with ({[path]} : gset string) by set_solver.
  unfold _loadConfigurationFileInnerAsync.
  rewrite Hfile, Hparse, Hrw, Hnullish. fold extends. rewrite Hextends.
  destruct (resolveModule E extends (dirname E path)) as [e | parentPath].
  - by rewrite Hparent.
  - destruct Hparent as (Hne & Hpc & Hpf).
    set (st1 := recordRead path (cacheSet path Pending st)).
    assert (Hc : _configPromiseCache st1 !! parentPath = None)
      by (simpl; by rewrite lookup_insert_ne).
    assert (Hv : parentPath ∉ ({[path]} : gset string)) by set_solver.
    destruct (loadWithCache_uncached (size fs) parentPath {[path]} _ Hc Hv) as [Hmiss _].
    specialize (Hmiss Hpf).
    destruct (_loadConfigurationFileInnerWithCacheAsync E C fs (S (size fs)) parentPath
                {[path]} None st1)
      as [[r0 st0] visited0].
    simpl in Hmiss. by subst r0.
Qed.

End TryLoad.



(** ** The theorems at work on the sample documents *)

(** C6 on a child that leaves the parent's list out, under a custom
    inheritance with no function and under the declared append. *)
Lemma one_side_defined_wins_witness :
  (exists original,
      getPropertyOriginalValue Sample.parentList "list" = Return original
      /\ mergeProperty (fun _ _ => Stuck Hang) Sample.parentList Sample.childWithoutList
           (plainInheritance InheritanceType.custom) "list"
         = Return (Some original, getProp Sample.parentList "list"))
  /\ (exists result,
        _mergeObjects Sample.parentList Sample.childWithoutList "/child.json"
          Sample.appendList Sample.ignoreProperties = Return result
        /\ getProp result "list" = getProp Sample.parentList "list"
        /\ getPropertyOriginalValue result "list"
           = getPropertyOriginalValue Sample.parentList "list").
Proof.
  destruct (one_side_defined_wins Sample.parentList Sample.childWithoutList "/child.json"
              Sample.appendList Sample.ignoreProperties "list")
    as ((original & Horiginal & Hbody) & Hmerge).
  - vm_compute. discriminate.
  - split.
    + exists original. split; [exact Horiginal | apply Hbody].
    + destruct (_mergeObjects Sample.parentList Sample.childWithoutList "/child.json"
                  Sample.appendList Sample.ignoreProperties) as [result | e | s] eqn:Hrun.
      * exists result. split; [reflexivity |].
        apply (Hmerge ["list"; "other"] result).
        -- vm_compute. reflexivity.
        -- apply (bool_decide_unpack _). vm_compute. exact I.
        -- reflexivity.
      * vm_compute in Hrun. discriminate Hrun.
      * vm_compute in Hrun. discriminate Hrun.
Defined.


(** C9 on a file that holds one property and no [$schema]. *)
Lemma load_without_extends_witness :
  _loadConfigurationFileInnerAsync Sample.collaborators Sample.tool Sample.plainFiles
    (fun _ visited _ st => (Stuck Hang, st, visited)) Sample.toolPath ∅ None initialState
  = (Return (_annotateProperties Sample.toolPath Sample.plain),
     recordRead Sample.toolPath initialState, ∅).
Proof.
  apply (load_without_extends Sample.collaborators Sample.tool Sample.plainFiles
           (fun _ visited _ st => (Stuck Hang, st, visited)) Sample.toolPath ∅ None
           initialState "plain" Sample.plain
           (Some (mkAnnotation (Some Sample.toolPath) [("y", VNum 1)])) [("y", VNum 1)] ∅).
  - vm_compute. reflexivity.
  - reflexivity.
  - reflexivity.
  - reflexivity.
  - apply (bool_decide_unpack _). vm_compute. exact I.
  - intros k Hk. apply list_elem_of_singleton in Hk. subst k. vm_compute. discriminate.
  - reflexivity.
  - reflexivity.
Defined.


(** C4 on a rig whose profile folder is the project folder. *)
Lemma fallback_shares_visited_set_witness :
  (_loadConfigurationFileInnerWithCacheAsync Sample.collaborators Sample.tool
     Sample.noFiles 2 Sample.toolPath ∅ (Some Sample.rigOnProject) initialState).1.1
  = Throw (LoopDetected Sample.toolPath).
Proof.
  assert (Hfile : Sample.noFiles !! Sample.toolPath = None) by (vm_compute; reflexivity).
  assert (Hfound : rigFound Sample.rigOnProject = true) by reflexivity.
  destruct (fallback_shares_visited_set Sample.collaborators Sample.tool Sample.noFiles
              Sample.toolPath Sample.rigOnProject Hfile Hfound) as (_ & _ & Hloop).
  apply Hloop; reflexivity.
Defined.


(** C1 on two files that extend each other. *)
Lemma extends_cycle_is_detected_witness :
  (loadConfigurationFileForProjectAsync Sample.collaborators Sample.tool
     Sample.loopFiles "/proj" None initialState).1 = Throw (LoopDetected Sample.toolPath).
Proof.
  destruct (extends_cycle_is_detected Sample.collaborators Sample.tool Sample.loopFiles)
    as (_ & _ & Hchain & _).
  apply (Hchain "/proj" None initialState ["/cfg/b.json"] Sample.toolPath).
  - split.
    + exists "extends-b", Sample.extendsB,
        (_annotateProperties Sample.toolPath Sample.extendsB).
      repeat split; vm_compute; reflexivity.
    + exists "extends-tool", Sample.extendsTool,
        (_annotateProperties "/cfg/b.json" Sample.extendsTool).
      repeat split; vm_compute; reflexivity.
  - apply (bool_decide_unpack _). vm_compute. exact I.
  - apply (bool_decide_unpack _). vm_compute. exact I.
  - intros x _. reflexivity.
Defined.

(** * Further properties of the engine

    What the annotator, the merger, the loader and the path resolution show
    besides the properties above. *)

(** ** The annotator on a fresh document *)

Lemma assoc_map_values (f : value -> value) (props : list (string * value)) (name : string) :
  assoc name (map (fun kv => (fst kv, f (snd kv))) props) = f <$> assoc name props.
Proof.
  induction props as [| [k v] rest IH]; simpl; [done |].
  by destruct (String.eqb k name).
Qed.

Lemma arrayEntriesFrom_map (f : value -> value) (items : list value) :
  forall i,
    arrayEntriesFrom i (map f items)
    = map (fun kv => (fst kv, f (snd kv))) (arrayEntriesFrom i items).
Proof. induction items as [| v rest IH]; intros i; simpl; [done | by rewrite IH]. Qed.

Lemma stringEntriesFrom_values (s : string) :
  forall i name v, assoc name (stringEntriesFrom i s) = Some v -> exists c, v = VStr c.
Proof.
  induction s as [| c rest IH]; intros i name v; simpl; [done |].
  destruct (String.eqb (indexKey i) name); [intros [= <-]; eauto | apply IH].
Qed.

Lemma getProp_annotateProperties (path : string) (v : value) (name : string) :
  getProp (_annotateProperties path v) name = _annotateProperties path (getProp v name).
Proof.
  destruct v as [| | b | n | s | a items | a props]; try done.
  - unfold getProp. simpl.
    destruct (assoc name (stringEntriesFrom 0 s)) as [x |] eqn:Hx; [| done].
    by destruct (stringEntriesFrom_values _ _ _ _ Hx) as [c ->].
  - unfold getProp. simpl. unfold arrayEntries.
    rewrite arrayEntriesFrom_map, assoc_map_values.
    by destruct (assoc name (arrayEntriesFrom 0 items)).
  - unfold getProp. simpl. rewrite assoc_map_values.
    by destruct (assoc name props).
Qed.

Lemma nodeOf_annotateProperties (path : string) (v w : value) :
  nodeOf (_annotateProperties path v) w -> exists u, w = _annotateProperties path u.
Proof.
  induction 1 as [| x name _ [u ->]]; [by exists v |].
  exists (getProp u name). apply getProp_annotateProperties.
Qed.

Lemma isAnnotatable_annotateProperties (path : string) (u : value) :
  isAnnotatable (_annotateProperties path u) = true ->
  exists a entries,
    annotationOf (_annotateProperties path u) = Some a
    /\ configurationFilePath a = Some path
    /\ originalValues a = entries
    /\ ownEntries (_annotateProperties path u) = entries
    /\ _annotateProperties path u <> VUndefined
    /\ _annotateProperties path u <> VNull.
Proof.
  destruct u as [| | b | n | s | a items | a props]; simpl; try done.
  - unfold isAnnotatable. simpl. by rewrite andb_false_r.
  - unfold isAnnotatable. simpl. by rewrite andb_false_r.
  - unfold isAnnotatable. simpl. by rewrite andb_false_r.
  - intros _. by eexists _, _.
  - intros _. by eexists _, _.
Qed.

(** X1.  In a document that has just been annotated for a file, every
    object and every array, at whatever depth, reports that file as its
    source. *)
Theorem every_node_reports_its_file :
  forall (path : string) (document node : value),
    nodeOf (_annotateProperties path document) node ->
    isAnnotatable node = true ->
    getObjectSourceFilePath node = Return (Some path).
Proof.
  intros path document node Hnode Hobj.
  destruct (nodeOf_annotateProperties _ _ _ Hnode) as [u ->].
  destruct (isAnnotatable_annotateProperties _ _ Hobj)
    as (a & entries & Ha & Hp & _ & _ & Hu & Hn).
  unfold getObjectSourceFilePath. rewrite Ha, Hp.
  by destruct (_annotateProperties path u).
Qed.

(** X2.  In a document that has just been annotated, the original value
    recorded for a property of any object or array is the value the
    property holds, and a name that is no own property has no original
    value. *)
Theorem fresh_annotation_records_current_values :
  forall (path : string) (document node : value) (propertyName : string),
    nodeOf (_annotateProperties path document) node ->
    isAnnotatable node = true ->
    getPropertyOriginalValue node propertyName = Return (getProp node propertyName).
Proof.
  intros path document node name Hnode Hobj.
  destruct (nodeOf_annotateProperties _ _ _ Hnode) as [u ->].
  destruct (isAnnotatable_annotateProperties _ _ Hobj)
    as (a & entries & Ha & _ & Ho & He & Hu & Hn).
  unfold getPropertyOriginalValue, getProp. rewrite Ha, Ho, He.
  destruct (_annotateProperties path u); try done; by destruct (assoc name entries).
Qed.

(** X3.  Annotating a document neither adds, drops, renames nor reorders a
    property, and the value of a property of the annotated document is the
    annotated value of that property. *)
Theorem annotation_keeps_the_document_shape :
  forall (path : string) (document : value),
    ownKeys (_annotateProperties path document) = ownKeys document
    /\ forall name,
         getProp (_annotateProperties path document) name
         = _annotateProperties path (getProp document name).
Proof.
  intros path document. split; [| apply getProp_annotateProperties].
  destruct document as [| | b | n | s | a items | a props]; try done.
  - unfold ownKeys. simpl. unfold arrayEntries. rewrite arrayEntriesFrom_map.
    rewrite map_map. done.
  - unfold ownKeys. simpl. by rewrite map_map.
Qed.

(** ** The merge, property by property *)

(** A merge that goes through has run its two passes. *)
Lemma mergeObjects_run (parentObject currentObject : value) (path : string)
    (configured : option IPropertiesInheritance) (ignore : option (gset string))
    (result : value) :
  _mergeObjects parentObject currentObject path configured ignore = Return result ->
  exists m filtered ov props,
    gatherMergeBehaviors currentObject ignore (ownKeys currentObject) (ownKeys currentObject)
      ∅ [] = Return (m, filtered)
    /\ mergeProperties (fun parent child => _mergeObjects parent child path None None)
         parentObject currentObject m configured
         (setOf [] (ownKeys parentObject ++ filtered)) [] [] = Return (ov, props)
    /\ result = VObj (Some (mkAnnotation (Some path) ov)) props.
Proof.
  rewrite mergeObjects_unfold. unfold mergeObjectsStep. intros Hrun.
  apply bind_Return in Hrun as [[m filtered] [Hg Hrun]]. simpl in Hrun.
  apply bind_Return in Hrun as [[ov props] [Hloop Hres]]. simpl in Hres.
  inversion Hres. by eexists _, _, _, _.
Qed.

(** What a merge that went through holds at one of its names, the nested
    call being [_mergeObjects] itself. *)
Lemma mergeObjects_at (parentObject currentObject : value) (path : string)
    (configured : option IPropertiesInheritance) (ignore : option (gset string))
    (names : list string) (m : gmap string IPropertyInheritance)
    (result : value) (name : string) :
  mergePropertyNames parentObject currentObject ignore = Return names ->
  mergeBehaviorMapOf currentObject ignore = Return m ->
  _mergeObjects parentObject currentObject path configured ignore = Return result ->
  name ∈ names ->
  exists o,
    mergeProperty (fun parent child => _mergeObjects parent child path None None)
      parentObject currentObject
      (effectiveInheritance m configured name
         (getProp currentObject name) (getProp parentObject name)) name
    = Return (o, getProp result name)
    /\ getPropertyOriginalValue result name
       = Return match o with Some x => x | None => VUndefined end.
Proof.
  unfold mergePropertyNames, mergeBehaviorMapOf. intros Hnames Hmap Hrun Hin.
  destruct (mergeObjects_run _ _ _ _ _ _ Hrun) as (m0 & filtered & ov & props & Hg & Hloop & ->).
  rewrite Hg in Hnames, Hmap. simpl in Hnames, Hmap.
  inversion Hnames; subst names. inversion Hmap; subst m0.
  destruct (mergeProperties_lookup _ _ _ _ _ _ _ _ _ _ Hloop name Hin)
    as (o & v & Hm & Hp & Ho).
  exists o. unfold getProp at 3. simpl. rewrite Hp. split; [exact Hm |].
  simpl. rewrite Ho. by destruct o.
Qed.

Lemma setOf_elem (l : list string) :
  forall seen x, x ∈ setOf seen l <-> x ∈ l /\ x ∉ seen.
Proof.
  induction l as [| y rest IH]; intros seen x; simpl.
  - set_solver.
  - destruct (inSet y seen) eqn:Hseen.
    + apply inSet_elem in Hseen. rewrite IH. set_solver.
    + assert (Hy : y ∉ seen) by (intros Hy; apply inSet_elem in Hy; congruence).
      rewrite elem_of_cons, IH. destruct (decide (x = y)) as [-> |]; set_solver.
Qed.

Lemma setOf_is_NoDup (l : list string) : forall seen, NoDup (setOf seen l).
Proof.
  induction l as [| y rest IH]; intros seen; simpl; [constructor |].
  destruct (inSet y seen); [apply IH |].
  constructor; [| apply IH]. rewrite setOf_elem. set_solver.
Qed.

Lemma mergeProperties_keys (recurse : value -> value -> completion value)
    (parentObject currentObject : value) (m : gmap string IPropertyInheritance)
    (configured : option IPropertiesInheritance) (names : list string) :
  forall ov props ov' props',
    mergeProperties recurse parentObject currentObject m configured names ov props
      = Return (ov', props') ->
    NoDup names ->
    (forall k, k ∈ names -> assoc k props = None) ->
    map fst props' = (map fst props ++ names)%list.
Proof.
  induction names as [| n rest IH]; intros ov props ov' props' Hrun Hnd Hfresh;
    simpl in Hrun.
  - inversion Hrun. by rewrite app_nil_r.
  - apply NoDup_cons in Hnd as [Hn Hnd].
    apply bind_Return in Hrun as [[o v] [_ Hrun]]. simpl in Hrun.
    rewrite (setProp_fresh props n v) in Hrun by (apply Hfresh; by left).
    rewrite (IH _ _ _ _ Hrun Hnd).
    + rewrite map_app. simpl. by rewrite <- app_assoc.
    + intros k Hk. rewrite assoc_app, (Hfresh k) by (by right). simpl.
      destruct (String.eqb n k) eqn:Heq; [| done].
      apply String.eqb_eq in Heq. by subst.
Qed.

Lemma mergeObjects_names (parentObject currentObject : value) (path : string)
    (configured : option IPropertiesInheritance) (ignore : option (gset string))
    (result : value) :
  _mergeObjects parentObject currentObject path configured ignore = Return result ->
  NoDup (ownKeys result)
  /\ forall k,
       k ∈ ownKeys result
       <-> k ∈ ownKeys parentObject
           \/ (k ∈ ownKeys currentObject /\ isMergedName ignore k = true).
Proof.
  intros Hrun.
  destruct (mergeObjects_run _ _ _ _ _ _ Hrun) as (m & filtered & ov & props & Hg & Hloop & ->).
  apply gatherMergeBehaviors_filtered in Hg. simpl in Hg. subst filtered.
  assert (Hkeys : ownKeys (VObj (Some (mkAnnotation (Some path) ov)) props)
                  = setOf [] (ownKeys parentObject
                              ++ filter (fun k => isMergedName ignore k = true)
                                        (ownKeys currentObject))).
  { unfold ownKeys at 1. simpl.
    by rewrite (mergeProperties_keys _ _ _ _ _ _ _ _ _ _ Hloop (setOf_is_NoDup _ _)). }
  rewrite Hkeys. split; [apply setOf_is_NoDup |].
  intros k. rewrite setOf_elem, elem_of_app, list_elem_of_filter. set_solver.
Qed.

(** X4.  The own names of a merged object are the names of the parent
    together with the names of the child that are not ignored and not merge
    directives, each once.  The filter is applied to the child only: a name
    of the parent is kept whatever it is. *)
Theorem merged_names_are_the_parents_and_the_childs_own :
  forall (parentObject currentObject : value) (path : string)
         (configured : option IPropertiesInheritance) (ignore : option (gset string))
         (result : value),
    _mergeObjects parentObject currentObject path configured ignore = Return result ->
    NoDup (ownKeys result)
    /\ forall k,
         k ∈ ownKeys result
         <-> k ∈ ownKeys parentObject
             \/ (k ∈ ownKeys currentObject /\ isMergedName ignore k = true).
Proof. intros. by eapply mergeObjects_names. Qed.

(** X5.  Whatever is merged, the result is a keyed object that reports the
    file being loaded as its source, also when every property comes from
    the parent and when the two sides are arrays or primitives. *)
Theorem merged_object_reports_the_loaded_file :
  forall (parentObject currentObject : value) (path : string)
         (configured : option IPropertiesInheritance) (ignore : option (gset string))
         (result : value),
    _mergeObjects parentObject currentObject path configured ignore = Return result ->
    getObjectSourceFilePath result = Return (Some path)
    /\ isArray result = false
    /\ isAnnotatable result = true.
Proof.
  intros parentObject currentObject path configured ignore result Hrun.
  by destruct (mergeObjects_run _ _ _ _ _ _ Hrun) as (m & filtered & ov & props & _ & _ & ->).
Qed.

(** With both sides defined, the append inheritance goes through on two
    annotated arrays only, and gives their concatenation. *)
Lemma append_at (parentObject currentObject : value) (path : string)
    (configured : option IPropertiesInheritance) (ignore : option (gset string))
    (names : list string) (m : gmap string IPropertyInheritance)
    (result : value) (name : string) :
  mergePropertyNames parentObject currentObject ignore = Return names ->
  mergeBehaviorMapOf currentObject ignore = Return m ->
  _mergeObjects parentObject currentObject path configured ignore = Return result ->
  name ∈ names ->
  inheritanceType
    (effectiveInheritance m configured name
       (getProp currentObject name) (getProp parentObject name)) = InheritanceType.append ->
  getProp currentObject name <> VUndefined ->
  getProp parentObject name <> VUndefined ->
  exists childAnnotation childItems parentAnnotation parentItems,
    getProp currentObject name = VArr (Some childAnnotation) childItems
    /\ getProp parentObject name = VArr (Some parentAnnotation) parentItems
    /\ getProp result name
       = VArr (Some (mkAnnotation None
                       (spread (originalValues parentAnnotation)
                               (originalValues childAnnotation))))
              (parentItems ++ childItems)%list
    /\ getPropertyOriginalValue result name = Return VUndefined.
Proof.
  intros Hnames Hmap Hrun Hin Hty Hc Hp.
  destruct (mergeObjects_at _ _ _ _ _ _ _ _ _ Hnames Hmap Hrun Hin) as (o & Hm & Ho).
  unfold mergeProperty in Hm. rewrite Hty in Hm.
  apply isUndefined_false in Hc, Hp. rewrite Hc, Hp in Hm. simpl in Hm.
  destruct (getProp currentObject name) as [| | | | | [ca |] citems |]; try done;
    destruct (getProp parentObject name) as [| | | | | [pa |] pitems |]; try done.
  injection Hm as <- <-. rewrite Ho. by eexists _, _, _, _.
Qed.

(** X6.  When a merge goes through, a property that stands under the append
    inheritance and that both sides define was an annotated array on both
    sides; the result holds the parent's elements followed by the child's,
    and records no original value for the property. *)
Theorem append_goes_through_only_on_arrays :
  forall (parentObject currentObject : value) (path : string)
         (configured : option IPropertiesInheritance) (ignore : option (gset string))
         (names : list string) (m : gmap string IPropertyInheritance)
         (result : value) (name : string),
    mergePropertyNames parentObject currentObject ignore = Return names ->
    mergeBehaviorMapOf currentObject ignore = Return m ->
    _mergeObjects parentObject currentObject path configured ignore = Return result ->
    name ∈ names ->
    inheritanceType
      (effectiveInheritance m configured name
         (getProp currentObject name) (getProp parentObject name)) = InheritanceType.append ->
    getProp currentObject name <> VUndefined ->
    getProp parentObject name <> VUndefined ->
    exists childAnnotation childItems parentAnnotation parentItems,
      getProp currentObject name = VArr (Some childAnnotation) childItems
      /\ getProp parentObject name = VArr (Some parentAnnotation) parentItems
      /\ getProp result name
         = VArr (Some (mkAnnotation None
                         (spread (originalValues parentAnnotation)
                                 (originalValues childAnnotation))))
                (parentItems ++ childItems)%list
      /\ getPropertyOriginalValue result name = Return VUndefined.
Proof. intros. by eapply append_at. Qed.

(** X7.  Appending accumulates along a chain of files: an array that was
    appended once is annotated, so that the next file of the chain can
    append to it, and the result holds the elements of the first file, then
    those of the second, then those of the third. *)
Theorem append_accumulates_along_the_chain :
  forall (grandparent parentObject currentObject : value) (parentPath path : string)
         (configured : option IPropertiesInheritance) (ignore : option (gset string))
         (parentNames names : list string) (parentMap m : gmap string IPropertyInheritance)
         (inherited result : value) (name : string),
    mergePropertyNames grandparent parentObject ignore = Return parentNames ->
    mergeBehaviorMapOf parentObject ignore = Return parentMap ->
    _mergeObjects grandparent parentObject parentPath configured ignore = Return inherited ->
    name ∈ parentNames ->
    inheritanceType
      (effectiveInheritance parentMap configured name
         (getProp parentObject name) (getProp grandparent name)) = InheritanceType.append ->
    getProp parentObject name <> VUndefined ->
    getProp grandparent name <> VUndefined ->
    mergePropertyNames inherited currentObject ignore = Return names ->
    mergeBehaviorMapOf currentObject ignore = Return m ->
    _mergeObjects inherited currentObject path configured ignore = Return result ->
    name ∈ names ->
    inheritanceType
      (effectiveInheritance m configured name
         (getProp currentObject name) (getProp inherited name)) = InheritanceType.append ->
    getProp currentObject name <> VUndefined ->
    isArray (getProp result name) = true
    /\ itemsOf (getProp result name)
       = (itemsOf (getProp grandparent name) ++ itemsOf (getProp parentObject name)
          ++ itemsOf (getProp currentObject name))%list.
Proof.
  intros grandparent parentObject currentObject parentPath path configured ignore
    parentNames names parentMap m inherited result name
    Hnames1 Hmap1 Hrun1 Hin1 Hty1 Hp Hg Hnames2 Hmap2 Hrun2 Hin2 Hty2 Hc.
  destruct (append_at _ _ _ _ _ _ _ _ _ Hnames1 Hmap1 Hrun1 Hin1 Hty1 Hp Hg)
    as (pa & pitems & ga & gitems & Hpv & Hgv & Hres1 & _).
  destruct (append_at _ _ _ _ _ _ _ _ _ Hnames2 Hmap2 Hrun2 Hin2 Hty2 Hc)
    as (ca & citems & ia & iitems & Hcv & Hiv & Hres2 & _); [by rewrite Hres1 |].
  rewrite Hres1 in Hiv. inversion Hiv; subst ia iitems.
  rewrite Hres2, Hgv, Hpv, Hcv. simpl. by rewrite <- app_assoc.
Qed.

(** X8.  A property that neither a directive of the child nor the
    declaration of the tool speaks of, and that both sides define: two
    arrays are appended, parent first; in every other case the child's
    value replaces the parent's and brings its recorded original value. *)
Theorem undeclared_property_appends_arrays_and_replaces_the_rest :
  forall (parentObject currentObject : value) (path : string)
         (configured : option IPropertiesInheritance) (ignore : option (gset string))
         (names : list string) (m : gmap string IPropertyInheritance)
         (result : value) (name : string),
    mergePropertyNames parentObject currentObject ignore = Return names ->
    mergeBehaviorMapOf currentObject ignore = Return m ->
    _mergeObjects parentObject currentObject path configured ignore = Return result ->
    name ∈ names ->
    m !! name = None ->
    match configured with
    | Some entries => assoc name entries = None
    | None => True
    end ->
    getProp currentObject name <> VUndefined ->
    getProp parentObject name <> VUndefined ->
    if isArray (getProp currentObject name) && isArray (getProp parentObject name)
    then itemsOf (getProp result name)
         = (itemsOf (getProp parentObject name) ++ itemsOf (getProp currentObject name))%list
         /\ isArray (getProp result name) = true
    else getProp result name = getProp currentObject name
         /\ getPropertyOriginalValue result name
            = getPropertyOriginalValue currentObject name.
Proof.
  intros parentObject currentObject path configured ignore names m result name
    Hnames Hmap Hrun Hin Hm Hcfg Hc Hp.
  assert (Heff : effectiveInheritance m configured name
                   (getProp currentObject name) (getProp parentObject name)
                 = plainInheritance
                     (if isArray (getProp currentObject name)
                         && isArray (getProp parentObject name)
                      then InheritanceType.append else InheritanceType.replace)).
  { unfold effectiveInheritance. rewrite Hm.
    destruct configured as [entries |]; [rewrite Hcfg |];
      by destruct (isArray (getProp currentObject name) && isArray (getProp parentObject name)). }
  destruct (isArray (getProp currentObject name) && isArray (getProp parentObject name))
    eqn:Harr.
  - destruct (append_at _ _ _ _ _ _ _ _ _ Hnames Hmap Hrun Hin) as
      (ca & citems & pa & pitems & Hcv & Hpv & Hres & _); [by rewrite Heff | done | done |].
    by rewrite Hcv, Hpv, Hres.
  - destruct (mergeObjects_at _ _ _ _ _ _ _ _ _ Hnames Hmap Hrun Hin) as (o & Hmerge & Ho).
    rewrite Heff in Hmerge.
    rewrite (replace_takes_defined_child _ _ _ (plainInheritance InheritanceType.replace)
               _ eq_refl Hc) in Hmerge.
    unfold usePropertyValue in Hmerge.
    apply bind_Return in Hmerge as [original [Horig Hret]]. inversion Hret; subst o.
    split; [done |]. by rewrite Ho, Horig.
Qed.

(** X9.  When a merge goes through, a property that stands under the merge
    inheritance and holds a keyed object on both sides is the merge of the
    two objects by the same algorithm, without the declarations of the tool
    and without ignored names; no original value is recorded for it. *)
Theorem merge_inheritance_recurses_without_declarations :
  forall (parentObject currentObject : value) (path : string)
         (configured : option IPropertiesInheritance) (ignore : option (gset string))
         (names : list string) (m : gmap string IPropertyInheritance)
         (result : value) (name : string)
         (a pa : option annotation) (props pprops : list (string * value)),
    mergePropertyNames parentObject currentObject ignore = Return names ->
    mergeBehaviorMapOf currentObject ignore = Return m ->
    _mergeObjects parentObject currentObject path configured ignore = Return result ->
    name ∈ names ->
    inheritanceType
      (effectiveInheritance m configured name
         (getProp currentObject name) (getProp parentObject name)) = InheritanceType.merge ->
    getProp currentObject name = VObj a props ->
    getProp parentObject name = VObj pa pprops ->
    _mergeObjects (VObj pa pprops) (VObj a props) path None None
      = Return (getProp result name)
    /\ getPropertyOriginalValue result name = Return VUndefined.
Proof.
  intros parentObject currentObject path configured ignore names m result name
    a pa props pprops Hnames Hmap Hrun Hin Hty Hc Hp.
  destruct (mergeObjects_at _ _ _ _ _ _ _ _ _ Hnames Hmap Hrun Hin) as (o & Hmerge & Ho).
  destruct (merge_inheritance_checks
              (fun parent child => _mergeObjects parent child path None None)
              parentObject currentObject _ name Hty) as (_ & _ & _ & Hrec);
    [by rewrite Hc | by rewrite Hp |].
  rewrite (Hrec _ _ _ _ Hc Hp) in Hmerge. rewrite Hc, Hp in Hmerge.
  apply bind_Return in Hmerge as [merged [Hnested Hret]]. inversion Hret; subst o merged.
  by rewrite Ho.
Qed.

(** X10.  When a merge goes through, a property that stands under the custom
    inheritance and that both sides define had an inheritance function; the
    result holds what the function returned for the child's value and the
    parent's value, in that order, and records no original value. *)
Theorem custom_inheritance_takes_child_then_parent :
  forall (parentObject currentObject : value) (path : string)
         (configured : option IPropertiesInheritance) (ignore : option (gset string))
         (names : list string) (m : gmap string IPropertyInheritance)
         (result : value) (name : string),
    mergePropertyNames parentObject currentObject ignore = Return names ->
    mergeBehaviorMapOf currentObject ignore = Return m ->
    _mergeObjects parentObject currentObject path configured ignore = Return result ->
    name ∈ names ->
    inheritanceType
      (effectiveInheritance m configured name
         (getProp currentObject name) (getProp parentObject name)) = InheritanceType.custom ->
    getProp currentObject name <> VUndefined ->
    getProp parentObject name <> VUndefined ->
    exists f,
      inheritanceFunction
        (effectiveInheritance m configured name
           (getProp currentObject name) (getProp parentObject name)) = Some f
      /\ f (getProp currentObject name) (getProp parentObject name)
         = inr (getProp result name)
      /\ getPropertyOriginalValue result name = Return VUndefined.
Proof.
  intros parentObject currentObject path configured ignore names m result name
    Hnames Hmap Hrun Hin Hty Hc Hp.
  destruct (mergeObjects_at _ _ _ _ _ _ _ _ _ Hnames Hmap Hrun Hin) as (o & Hmerge & Ho).
  unfold mergeProperty in Hmerge. rewrite Hty in Hmerge.
  apply isUndefined_false in Hc, Hp. rewrite Hc, Hp in Hmerge. simpl in Hmerge.
  destruct (inheritanceFunction _) as [f |]; [| done].
  exists f. split; [done |].
  destruct (f (getProp currentObject name) (getProp parentObject name)) as [e | combined];
    [done |].
  simpl in Hmerge. inversion Hmerge; subst o. by rewrite Ho.
Qed.

Lemma gatherMergeBehaviors_ignored (currentObject : value) (ignore : option (gset string))
    (all names : list string) :
  (forall k, k ∈ names -> isIgnored ignore k = true) ->
  forall m f, gatherMergeBehaviors currentObject ignore all names m f = Return (m, f).
Proof.
  induction names as [| n rest IH]; intros Hign m f; simpl; [done |].
  rewrite (Hign n) by (by left). apply IH. intros k Hk. apply Hign. by right.
Qed.

(** Where the child defines none of the names, every name takes the
    parent's value and the parent's recorded original value. *)
Lemma mergeProperties_absent_child (recurse : value -> value -> completion value)
    (parentObject currentObject : value) (m : gmap string IPropertyInheritance)
    (configured : option IPropertiesInheritance) (names : list string) :
  NoDup names ->
  (forall k, k ∈ names ->
             getProp currentObject k = VUndefined /\ getProp parentObject k <> VUndefined) ->
  forall ov props,
    (forall k, k ∈ names -> assoc k ov = None /\ assoc k props = None) ->
    mergeProperties recurse parentObject currentObject m configured names ov props
    = Return ((ov ++ map (fun k => (k, recordedOriginal parentObject k)) names)%list,
              (props ++ map (fun k => (k, getProp parentObject k)) names)%list).
Proof.
  induction names as [| n rest IH]; intros Hnd Hdef ov props Hfresh; simpl.
  - by rewrite !app_nil_r.
  - apply NoDup_cons in Hnd as [Hn Hnd].
    destruct (Hdef n) as [Hc Hp]; [by left |].
    unfold mergeProperty. rewrite Hc.
    apply isUndefined_false in Hp as Hp'. rewrite Hp'. simpl.
    unfold useParentPropertyValue. rewrite (getPropertyOriginalValue_recorded _ _ Hp). simpl.
    destruct (Hfresh n) as [Hov Hprops]; [by left |].
    rewrite (setProp_fresh _ _ _ Hov), (setProp_fresh _ _ _ Hprops).
    rewrite IH; [by rewrite <- !app_assoc | done | intros k Hk; apply Hdef; by right |].
    intros k Hk. assert (Hne : k <> n) by (intros ->; done).
    destruct (Hfresh k) as [Hkov Hkprops]; [by right |].
    rewrite !assoc_app, Hkov, Hkprops. simpl.
    destruct (String.eqb n k) eqn:Heq; [apply String.eqb_eq in Heq; congruence | done].
Qed.

Lemma assoc_of_names {A : Type} (g : string -> A) (names : list string) (k : string) :
  assoc k (map (fun n => (n, g n)) names) = if decide (k ∈ names) then Some (g k) else None.
Proof.
  induction names as [| n rest IH]; simpl; [done |].
  destruct (String.eqb n k) eqn:Heq.
  - apply String.eqb_eq in Heq. subst n. rewrite decide_True; [done | by left].
  - assert (Hne : n <> k) by (intros ->; by rewrite String.eqb_refl in Heq).
    rewrite IH. destruct (decide (k ∈ rest)) as [Hin | Hout].
    + rewrite decide_True; [done | by right].
    + rewrite decide_False; [done |]. rewrite elem_of_cons. intros [-> | Hin]; done.
Qed.

(** X11.  A child whose own names are all ignored, such as a file made of
    [extends] alone, on a parent whose properties all hold a defined value,
    as the properties of a JSON document do, and none of which the child
    defines: the merge goes through, and every property holds the parent's
    value and the parent's recorded original value, whatever the
    inheritance declarations are.  (A property of the parent that holds
    [undefined] is not covered: it is merged under the inheritance in force,
    which may throw.) *)
Theorem child_of_ignored_names_inherits_everything :
  forall (parentObject currentObject : value) (path : string)
         (configured : option IPropertiesInheritance) (ignore : option (gset string)),
    (forall k, k ∈ ownKeys currentObject -> isIgnored ignore k = true) ->
    (forall k, k ∈ ownKeys parentObject ->
               getProp currentObject k = VUndefined /\ getProp parentObject k <> VUndefined) ->
    exists result,
      _mergeObjects parentObject currentObject path configured ignore = Return result
      /\ (forall k, getProp result k = getProp parentObject k)
      /\ (forall k, k ∈ ownKeys parentObject ->
                    getPropertyOriginalValue result k
                    = getPropertyOriginalValue parentObject k).
Proof.
  intros parentObject currentObject path configured ignore Hign Hdef.
  rewrite mergeObjects_unfold. unfold mergeObjectsStep.
  rewrite (gatherMergeBehaviors_ignored _ _ _ _ Hign). simpl. rewrite app_nil_r.
  assert (Hnames : forall k, k ∈ setOf [] (ownKeys parentObject) <-> k ∈ ownKeys parentObject)
    by (intros k; rewrite setOf_elem; set_solver).
  rewrite (mergeProperties_absent_child _ _ _ _ _ _ (setOf_is_NoDup _ _)); [| | done].
  2:{ intros k Hk. apply Hdef. by apply Hnames. }
  simpl. eexists. split; [done |]. split.
  - intros k. unfold getProp at 1. simpl. rewrite assoc_of_names.
    destruct (decide (k ∈ setOf [] (ownKeys parentObject))) as [Hin | Hout]; [done |].
    rewrite Hnames in Hout. apply assoc_None_not_key in Hout.
    unfold getProp. by rewrite Hout.
  - intros k Hk. simpl. rewrite assoc_of_names.
    rewrite decide_True by (by apply Hnames).
    rewrite getPropertyOriginalValue_recorded; [done |]. by apply Hdef.
Qed.

(** ** Merge directives *)

(** X12.  A property name is a merge directive exactly when it is a dollar
    sign, a target that is not empty and holds no dot, and the suffix
    [.mergeBehavior]; the target is what is between the two. *)
Theorem directive_names_follow_the_pattern :
  forall (propertyName target : string),
    matchMergeBehaviorField propertyName = Some target
    <-> propertyName = "$" ++ target ++ ".mergeBehavior"
        /\ target <> "" /\ hasDot target = false.
Proof. exact matchMergeBehaviorField_spec. Qed.

Lemma behaviorOf_branches (raw : string) (t : InheritanceType.t) :
  behaviorOf raw = Some t ->
  (String.eqb (toLowerCase raw) "append" = true /\ t = InheritanceType.append)
  \/ (String.eqb (toLowerCase raw) "append" = false
      /\ String.eqb (toLowerCase raw) "merge" = true /\ t = InheritanceType.merge)
  \/ (String.eqb (toLowerCase raw) "append" = false
      /\ String.eqb (toLowerCase raw) "merge" = false
      /\ String.eqb (toLowerCase raw) "replace" = true /\ t = InheritanceType.replace).
Proof.
  unfold behaviorOf.
  destruct (String.eqb (toLowerCase raw) "append"); [intros [= <-]; by left |].
  destruct (String.eqb (toLowerCase raw) "merge"); [intros [= <-]; right; by left |].
  destruct (String.eqb (toLowerCase raw) "replace"); [intros [= <-]; right; by right | done].
Qed.

(** The step of the first pass on a well-formed directive. *)
Lemma gatherMergeBehaviors_directive (currentObject : value) (ignore : option (gset string))
    (all rest : list string) (propertyName target raw : string) (t : InheritanceType.t)
    (m : gmap string IPropertyInheritance) (f : list string) :
  isIgnored ignore propertyName = false ->
  matchMergeBehaviorField propertyName = Some target ->
  inSet target all = true ->
  getProp currentObject propertyName = VStr raw ->
  typeofObject (getProp currentObject target) = true ->
  behaviorOf raw = Some t ->
  gatherMergeBehaviors currentObject ignore all (propertyName :: rest) m f
  = gatherMergeBehaviors currentObject ignore all rest
      (<[target := plainInheritance t]> m) f.
Proof.
  intros Hign Hmatch Hin Hraw Hobj Hb. cbn [gatherMergeBehaviors].
  rewrite Hign, Hmatch, Hin, Hraw, Hobj. cbn [negb]. cbv zeta.
  destruct (behaviorOf_branches _ _ Hb) as [[-> ->] | [(-> & -> & ->) | (-> & -> & -> & ->)]];
    done.
Qed.

Lemma malformedDirective_false (currentObject : value) (propertyName target : string) :
  malformedDirective currentObject propertyName target = false ->
  inSet target (ownKeys currentObject) = true
  /\ exists raw t,
       getProp currentObject propertyName = VStr raw
       /\ typeofObject (getProp currentObject target) = true
       /\ behaviorOf raw = Some t.
Proof.
  unfold malformedDirective. intros H. apply orb_false_iff in H as [Hin H].
  apply negb_false_iff in Hin. split; [done |].
  destruct (getProp currentObject propertyName) as [| | | | raw | |]; try done.
  apply orb_false_iff in H as [Hobj Hb]. apply negb_false_iff in Hobj.
  destruct (behaviorOf raw) as [t |] eqn:Hbeh; [| done]. by exists raw, t.
Qed.

Lemma gatherMergeBehaviors_well_formed (currentObject : value) (ignore : option (gset string))
    (names : list string) :
  (forall propertyName target,
      propertyName ∈ names ->
      isIgnored ignore propertyName = false ->
      matchMergeBehaviorField propertyName = Some target ->
      malformedDirective currentObject propertyName target = false) ->
  forall m f,
    exists m' f',
      gatherMergeBehaviors currentObject ignore (ownKeys currentObject) names m f
      = Return (m', f').
Proof.
  induction names as [| n rest IH]; intros Hwf m f; [by eexists _, _ |].
  assert (Hrest : forall propertyName target,
             propertyName ∈ rest ->
             isIgnored ignore propertyName = false ->
             matchMergeBehaviorField propertyName = Some target ->
             malformedDirective currentObject propertyName target = false)
    by (intros p t Hp; apply Hwf; by right).
  destruct (isIgnored ignore n) eqn:Hign; [simpl; rewrite Hign; by apply IH |].
  destruct (matchMergeBehaviorField n) as [target |] eqn:Hmatch;
    [| simpl; rewrite Hign, Hmatch; by apply IH].
  destruct (malformedDirective_false _ _ _ (Hwf n target ltac:(by left) Hign Hmatch))
    as (Hin & raw & t & Hraw & Hobj & Hb).
  rewrite (gatherMergeBehaviors_directive _ _ _ _ _ _ _ _ _ _ Hign Hmatch Hin Hraw Hobj Hb).
  by apply IH.
Qed.

(** X13.  The first pass of a merge goes through exactly when every merge
    directive of the child that is not ignored is well formed; otherwise
    the merge fails with the error of a directive, whatever the parent
    holds and before any property is merged. *)
Theorem directives_are_checked_before_any_property_is_merged :
  forall (currentObject : value) (ignore : option (gset string)),
    (directivesWellFormed currentObject ignore
     <-> exists m, mergeBehaviorMapOf currentObject ignore = Return m)
    /\ (~ directivesWellFormed currentObject ignore ->
        forall parentObject path configured,
        exists e,
          _mergeObjects parentObject currentObject path configured ignore = Throw e
          /\ isMergeDirectiveError e = true).
Proof.
  intros currentObject ignore.
  assert (Hback : (exists m, mergeBehaviorMapOf currentObject ignore = Return m) ->
                  directivesWellFormed currentObject ignore).
  { intros [m Hm] propertyName target Hin Hign Hmatch.
    destruct (malformedDirective currentObject propertyName target) eqn:Hbad; [| done].
    destruct (gatherMergeBehaviors_malformed currentObject ignore _ _ _
                Hin Hign Hmatch Hbad ∅ []) as (e & He & _).
    unfold mergeBehaviorMapOf in Hm. by rewrite He in Hm. }
  assert (Hforth : directivesWellFormed currentObject ignore ->
                   exists m, mergeBehaviorMapOf currentObject ignore = Return m).
  { intros Hwf. unfold mergeBehaviorMapOf.
    destruct (gatherMergeBehaviors_well_formed currentObject ignore _ Hwf ∅ [])
      as (m & f & ->).
    by exists m. }
  split; [by split |].
  intros Hbad parentObject path configured.
  rewrite mergeObjects_unfold. unfold mergeObjectsStep.
  destruct (gatherMergeBehaviors currentObject ignore _ _ ∅ []) as [g | e | s] eqn:Hg.
  - destruct Hbad. apply Hback. exists (fst g). unfold mergeBehaviorMapOf. by rewrite Hg.
  - exists e. split; [done |]. by apply gatherMergeBehaviors_throws in Hg.
  - by apply gatherMergeBehaviors_not_stuck in Hg.
Qed.

Lemma gatherMergeBehaviors_records (currentObject : value) (ignore : option (gset string))
    (all : list string) (key target raw : string) (t : InheritanceType.t) :
  isIgnored ignore key = false ->
  matchMergeBehaviorField key = Some target ->
  getProp currentObject key = VStr raw ->
  behaviorOf raw = Some t ->
  forall names m f m' f',
    gatherMergeBehaviors currentObject ignore all names m f = Return (m', f') ->
    key ∈ names \/ m !! target = Some (plainInheritance t) ->
    m' !! target = Some (plainInheritance t).
Proof.
  intros Hign Hmatch Hraw Hb.
  induction names as [| n rest IH]; intros m f m' f' Hrun Hor.
  - simpl in Hrun. inversion Hrun; subst. destruct Hor as [Hin | Hm]; [| done].
    by apply elem_of_nil in Hin.
  - assert (Hkeep : n <> key ->
                    key ∈ rest \/ m !! target = Some (plainInheritance t)).
    { intros Hne. destruct Hor as [Hin | Hm]; [| by right].
      apply elem_of_cons in Hin as [-> | Hin]; [done | by left]. }
    simpl in Hrun.
    destruct (isIgnored ignore n) eqn:Hn.
    { apply (IH _ _ _ _ Hrun). apply Hkeep. intros ->. congruence. }
    destruct (matchMergeBehaviorField n) as [target' |] eqn:Hmatch'.
    2:{ apply (IH _ _ _ _ Hrun). apply Hkeep. intros ->. congruence. }
    destruct (negb (inSet target' all)); [done |].
    destruct (getProp currentObject n) as [| | | | raw' | |] eqn:Hraw'; try done.
    destruct (negb (typeofObject (getProp currentObject target'))); [done |].
    assert (Hstep : exists t',
               behaviorOf raw' = Some t'
               /\ gatherMergeBehaviors currentObject ignore all rest
                    (<[target' := plainInheritance t']> m) f = Return (m', f')).
    { unfold behaviorOf.
      destruct (String.eqb (toLowerCase raw') "append"); [by eexists |].
      destruct (String.eqb (toLowerCase raw') "merge"); [by eexists |].
      destruct (String.eqb (toLowerCase raw') "replace"); [by eexists | done]. }
    destruct Hstep as (t' & Hb' & Hrest). apply (IH _ _ _ _ Hrest).
    destruct (decide (target' = target)) as [-> | Hne].
    + right. apply matchMergeBehaviorField_spec in Hmatch as (-> & _ & _).
      apply matchMergeBehaviorField_spec in Hmatch' as (-> & _ & _).
      rewrite Hraw in Hraw'. inversion Hraw'; subst raw'.
      rewrite Hb in Hb'. inversion Hb'; subst t'. by rewrite lookup_insert_eq.
    + rewrite lookup_insert_ne by done. apply Hkeep. intros ->. congruence.
Qed.

Lemma behaviorOf_named (raw : string) (t : InheritanceType.t) :
  toLowerCase raw = inheritanceTypeName t ->
  t <> InheritanceType.custom ->
  behaviorOf raw = Some t.
Proof. unfold behaviorOf. intros -> Ht. by destruct t. Qed.

(** X14.  A directive of the child whose text reads append, merge or
    replace in whatever letter case decides the inheritance of its target,
    whatever the tool declared for that property, a custom inheritance
    function included. *)
Theorem directive_overrides_the_declared_inheritance :
  forall (currentObject : value) (ignore : option (gset string))
         (key target raw : string) (t : InheritanceType.t)
         (m : gmap string IPropertyInheritance),
    key ∈ ownKeys currentObject ->
    isIgnored ignore key = false ->
    matchMergeBehaviorField key = Some target ->
    getProp currentObject key = VStr raw ->
    toLowerCase raw = inheritanceTypeName t ->
    t <> InheritanceType.custom ->
    mergeBehaviorMapOf currentObject ignore = Return m ->
    m !! target = Some (plainInheritance t)
    /\ forall configured propertyValue parentPropertyValue,
         effectiveInheritance m configured target propertyValue parentPropertyValue
         = plainInheritance t.
Proof.
  intros currentObject ignore key target raw t m Hin Hign Hmatch Hraw Hname Ht Hmap.
  pose proof (behaviorOf_named _ _ Hname Ht) as Hb.
  unfold mergeBehaviorMapOf in Hmap.
  apply bind_Return in Hmap as [[m0 f0] [Hg Hret]]. simpl in Hret.
  inversion Hret; subst m0.
  assert (Hm : m !! target = Some (plainInheritance t)).
  { eapply (gatherMergeBehaviors_records _ _ _ _ _ _ _ Hign Hmatch Hraw Hb); [exact Hg |].
    by left. }
  split; [done |].
  intros configured propertyValue parentPropertyValue.
  unfold effectiveInheritance. by rewrite Hm.
Qed.

(** ** What a load does to the instance *)

Section LoaderInvariants.
Context (E : Collaborators) (C : ConfigurationFile) (fs : gmap string fileEntry).

(** A load reads its file and then either completes on its own, or waits
    for one other load, of its parent or of the file of the rig, and
    completes with what that load leaves. *)
Lemma inner_cases (recurse : loader) (path : string) (visited : gset string)
    (rigConfig : option RigConfig) (st : state)
    (r : completion value) (st' : state) (visited' : gset string) :
  _loadConfigurationFileInnerAsync E C fs recurse path visited rigConfig st
    = (r, st', visited') ->
  (st' = recordRead path st /\ visited' = visited
   /\ forall v, r = Return v ->
        exists json, mergeAndValidate E C VUndefined json path = Return v)
  \/ (exists q r0,
        recurse q visited None (recordRead path st) = (r0, st', visited')
        /\ forall v, r = Return v ->
             r0 = Return v
             \/ exists parent json,
                  r0 = Return parent
                  /\ mergeAndValidate E C parent json path = Return v).
Proof.
  unfold _loadConfigurationFileInnerAsync, _tryLoadConfigurationFileInRigAsync.
  destruct (fs !! path) as [[text | message] |].
  - destruct (parseString E text) as [cause | parsed];
      [intros [= <- <- <-]; left; by repeat split |].
    destruct (rewriteJsonPaths E path _) as [e | json];
      [intros [= <- <- <-]; left; by repeat split |].
    destruct (isUndefined json || isNull json);
      [intros [= <- <- <-]; left; by repeat split |].
    destruct (truthy (getProp json "extends")).
    + destruct (resolveModule E _ _) as [e | q];
        [intros [= <- <- <-]; left; by repeat split |].
      destruct (recurse q visited None (recordRead path st))
        as [[[parent | e | s] st2] visited2] eqn:Hrec;
        intros [= <- <- <-]; right; exists q; eexists; (split; [done |]); try done.
      intros v Hv. right. by exists parent, json.
    + intros [= <- <- <-]. left. repeat split; try done. intros v Hv. by exists json.
  - intros [= <- <- <-]. left. by repeat split.
  - destruct rigConfig as [rig |]; [| intros [= <- <- <-]; left; by repeat split].
    destruct (rigFound rig); [| simpl; intros [= <- <- <-]; left; by repeat split].
    destruct (recurse _ visited None (recordRead path st))
      as [[[v | e | s] st2] visited2] eqn:Hrec.
    + destruct (truthy v); intros [= <- <- <-]; right; eexists _, _; (split; [done |]);
        [intros v' [= ->]; by left | done].
    + destruct (isNotExistError e); simpl; intros [= <- <- <-]; right; eexists _, _;
        by (split; [done |]).
    + intros [= <- <- <-]. right. eexists _, _. by (split; [done |]).
Qed.

(** An invariant [I] of the instance and a property [Q] of configurations:
    if the steps of a load keep [I], the cache holds only configurations of
    [Q] and a merge on top of a parent of [Q] gives a configuration of [Q],
    then every load keeps [I] and returns configurations of [Q] only. *)
Lemma load_invariant (I : state -> Prop) (Q : value -> Prop) :
  (forall st path, I st -> _configPromiseCache st !! path = None ->
                   I (recordRead path (cacheSet path Pending st))) ->
  (forall st path r, I st -> (forall v, r = Return v -> Q v) -> I (settle path r st)) ->
  (forall st path v, I st -> _configPromiseCache st !! path = Some (Fulfilled v) -> Q v) ->
  (forall parent json path v,
      parent = VUndefined \/ Q parent ->
      mergeAndValidate E C parent json path = Return v -> Q v) ->
  forall fuel path visited rigConfig st r st' visited',
    I st ->
    _loadConfigurationFileInnerWithCacheAsync E C fs fuel path visited rigConfig st
      = (r, st', visited') ->
    I st' /\ (forall v, r = Return v -> Q v).
Proof.
  intros Hstart Hsettle Hcached Hmerge.
  induction fuel as [| fuel IH]; intros path visited rigConfig st r st' visited' HI; simpl.
  - intros [= <- <- <-]. by split.
  - unfold loadWithCacheStep.
    destruct (_configPromiseCache st !! path) as [entry |] eqn:Hcache.
    + destruct (decide (path ∈ visited)); intros [= <- <- <-]; (split; [done |]); [done |].
      intros v Hv. destruct entry as [| v0 | e]; try done. inversion Hv; subst v0. eauto.
    + assert (Hinner : forall visited0 r0 st2 visited2,
                 _loadConfigurationFileInnerAsync E C fs
                   (_loadConfigurationFileInnerWithCacheAsync E C fs fuel) path visited0
                   rigConfig (cacheSet path Pending st) = (r0, st2, visited2) ->
                 I st2 /\ (forall v, r0 = Return v -> Q v)).
      { intros visited0 r0 st2 visited2 Hrun.
        pose proof (Hstart _ _ HI Hcache) as HI1.
        destruct (inner_cases _ _ _ _ _ _ _ _ Hrun)
          as [(-> & _ & Hret) | (q & r00 & Hrec & Hret)].
        - split; [done |]. intros v Hv. destruct (Hret v Hv) as [json Hjson].
          eapply Hmerge; [by left | exact Hjson].
        - destruct (IH _ _ _ _ _ _ _ HI1 Hrec) as [HI2 HQ]. split; [done |].
          intros v Hv. destruct (Hret v Hv) as [-> | (parent & json & -> & Hjson)];
            [by apply HQ |].
          eapply Hmerge; [right; by apply HQ | exact Hjson]. }
      destruct (decide (path ∈ visited)).
      * destruct (_loadConfigurationFileInnerAsync _ _ _ _ _ _ _ _)
          as [[r0 st2] visited2] eqn:Hrun.
        intros [= <- <- <-]. destruct (Hinner _ _ _ _ Hrun) as [HI2 HQ].
        split; [by apply Hsettle | done].
      * destruct (_loadConfigurationFileInnerAsync _ _ _ _ _ _ _ _)
          as [[r0 st2] visited2] eqn:Hrun.
        intros [= <- <- <-]. destruct (Hinner _ _ _ _ Hrun) as [HI2 HQ].
        split; [by apply Hsettle | done].
Qed.

(** A call changes no entry the cache had when the call started, and reads
    on top of what was read. *)
Lemma load_frame (fuel : nat) :
  forall path visited rigConfig st r st' visited',
    _loadConfigurationFileInnerWithCacheAsync E C fs fuel path visited rigConfig st
      = (r, st', visited') ->
    _configPromiseCache st ⊆ _configPromiseCache st'
    /\ exists reads, readLog st' = (reads ++ readLog st)%list.
Proof.
  induction fuel as [| fuel IH]; intros path visited rigConfig st r st' visited'; simpl.
  - intros [= <- <- <-]. split; [done | by exists []].
  - unfold loadWithCacheStep.
    destruct (_configPromiseCache st !! path) as [entry |] eqn:Hcache.
    + destruct (decide (path ∈ visited)); intros [= <- <- <-]; (split; [done | by exists []]).
    + assert (Hinner : forall visited0 r0 st2 visited2,
                 _loadConfigurationFileInnerAsync E C fs
                   (_loadConfigurationFileInnerWithCacheAsync E C fs fuel) path visited0
                   rigConfig (cacheSet path Pending st) = (r0, st2, visited2) ->
                 _configPromiseCache st ⊆ _configPromiseCache (settle path r0 st2)
                 /\ exists reads, readLog (settle path r0 st2) = (reads ++ readLog st)%list).
      { intros visited0 r0 st2 visited2 Hrun.
        assert (Hsub : <[path := Pending]> (_configPromiseCache st) ⊆ _configPromiseCache st2
                       /\ exists reads, readLog st2 = (reads ++ readLog st)%list).
        { destruct (inner_cases _ _ _ _ _ _ _ _ Hrun)
            as [(-> & _ & _) | (q & r00 & Hrec & _)].
          - split; [done | by exists [path]].
          - destruct (IH _ _ _ _ _ _ _ Hrec) as [Hsub [reads Hreads]].
            split; [done |]. exists (reads ++ [path])%list.
            rewrite Hreads. simpl. by rewrite <- app_assoc. }
        destruct Hsub as [Hsub Hreads].
        assert (Hst : _configPromiseCache st ⊆ _configPromiseCache st2).
        { etransitivity; [| exact Hsub]. by apply insert_subseteq. }
        split; [| by destruct r0].
        rewrite map_subseteq_spec in Hst.
        destruct r0 as [v | e | s]; simpl; [| | by apply map_subseteq_spec];
          apply map_subseteq_spec; intros k x Hk;
          (destruct (decide (k = path)) as [-> | Hne]; [congruence |]);
          rewrite lookup_insert_ne by done; by apply Hst. }
      destruct (decide (path ∈ visited)).
      * destruct (_loadConfigurationFileInnerAsync _ _ _ _ _ _ _ _)
          as [[r0 st2] visited2] eqn:Hrun.
        intros [= <- <- <-]. by apply (Hinner _ _ _ _ Hrun).
      * destruct (_loadConfigurationFileInnerAsync _ _ _ _ _ _ _ _)
          as [[r0 st2] visited2] eqn:Hrun.
        intros [= <- <- <-]. by apply (Hinner _ _ _ _ Hrun).
Qed.

Lemma readsOnce_start (st : state) (path : string) :
  readsOnce st ->
  _configPromiseCache st !! path = None ->
  readsOnce (recordRead path (cacheSet path Pending st)).
Proof.
  intros [Hnd Hdom] Hcache. split; simpl.
  - constructor; [| done]. intros Hin. apply Hdom in Hin as [x Hx]. congruence.
  - intros p Hp. destruct (decide (p = path)) as [-> | Hne].
    + by rewrite lookup_insert_eq.
    + rewrite lookup_insert_ne by done. apply Hdom.
      apply elem_of_cons in Hp as [-> | Hp]; done.
Qed.

Lemma readsOnce_settle (st : state) (path : string) (r : completion value) :
  readsOnce st -> readsOnce (settle path r st).
Proof.
  intros [Hnd Hdom]. destruct r as [v | e | s]; simpl; [| | done].
  - split; [done |]. simpl. intros p Hp. destruct (decide (p = path)) as [-> | Hne].
    + by rewrite lookup_insert_eq.
    + rewrite lookup_insert_ne by done. by apply Hdom.
  - split; [done |]. simpl. intros p Hp. destruct (decide (p = path)) as [-> | Hne].
    + by rewrite lookup_insert_eq.
    + rewrite lookup_insert_ne by done. by apply Hdom.
Qed.

Lemma cacheHolds_start (Q : value -> Prop) (st : state) (path : string) :
  cacheHolds Q st -> cacheHolds Q (recordRead path (cacheSet path Pending st)).
Proof.
  intros HQ p v. simpl. destruct (decide (p = path)) as [-> | Hne].
  - by rewrite lookup_insert_eq.
  - rewrite lookup_insert_ne by done. apply HQ.
Qed.

Lemma cacheHolds_settle (Q : value -> Prop) (st : state) (path : string)
    (r : completion value) :
  cacheHolds Q st -> (forall v, r = Return v -> Q v) -> cacheHolds Q (settle path r st).
Proof.
  intros HQ Hr. destruct r as [v | e | s]; simpl; [| | done]; intros p w; simpl.
  - destruct (decide (p = path)) as [-> | Hne].
    + rewrite lookup_insert_eq. intros [= <-]. by apply Hr.
    + rewrite lookup_insert_ne by done. apply HQ.
  - destruct (decide (p = path)) as [-> | Hne].
    + by rewrite lookup_insert_eq.
    + rewrite lookup_insert_ne by done. apply HQ.
Qed.

(** Every load returns configurations of [Q] only and keeps the cache to
    such configurations, if the merge with a parent of [Q] gives one. *)
Lemma load_returns_only (Q : value -> Prop) :
  (forall parent json path v,
      parent = VUndefined \/ Q parent ->
      mergeAndValidate E C parent json path = Return v -> Q v) ->
  forall projectPath rigConfig st v st',
    cacheHolds Q st ->
    loadConfigurationFileForProjectAsync E C fs projectPath rigConfig st = (Return v, st') ->
    Q v /\ cacheHolds Q st'.
Proof.
  intros Hmerge projectPath rigConfig st v st' HQ.
  unfold loadConfigurationFileForProjectAsync.
  destruct (_loadConfigurationFileInnerWithCacheAsync E C fs (loadFuel fs) _ ∅ rigConfig st)
    as [[r st1] visited1] eqn:Hrun.
  intros [= -> ->].
  destruct (load_invariant (cacheHolds Q) Q
              (fun st0 p H0 _ => cacheHolds_start Q st0 p H0)
              (fun st0 p r0 H0 Hr0 => cacheHolds_settle Q st0 p r0 H0 Hr0)
              (fun st0 p w H0 Hp => H0 p w Hp)
              Hmerge _ _ _ _ _ _ _ _ HQ Hrun) as [HI Hr].
  split; [by apply Hr | done].
Qed.

Lemma mergeAndValidate_Return (parentConfiguration configurationJson : value)
    (path : string) (v : value) :
  mergeAndValidate E C parentConfiguration configurationJson path = Return v ->
  _mergeObjects parentConfiguration configurationJson path
    (Some (_propertyInheritanceTypes C)) (Some {["extends"; "$schema"]}) = Return v
  /\ validateObject E v path = None.
Proof.
  unfold mergeAndValidate, _mergeConfigurationFiles. intros Hrun.
  apply bind_Return in Hrun as [result [Hmerge Hvalid]].
  destruct (validateObject E result path) eqn:Hv; [done |]. by inversion Hvalid; subst.
Qed.

End LoaderInvariants.

Lemma tryLoad_state (E : Collaborators) (C : ConfigurationFile) (fs : gmap string fileEntry)
    (projectPath : string) (rigConfig : option RigConfig) (st : state) :
  (tryLoadConfigurationFileForProjectAsync E C fs projectPath rigConfig st).2
  = (loadConfigurationFileForProjectAsync E C fs projectPath rigConfig st).2.
Proof.
  unfold tryLoadConfigurationFileForProjectAsync.
  destruct (loadConfigurationFileForProjectAsync E C fs projectPath rigConfig st)
    as [[v | e | s] st']; try done.
  by destruct (isNotExistError e).
Qed.

(** X15.  An instance hands no path to the file system twice: whatever was
    loaded before, and whether the call loads or tries to load, the paths
    read so far stay pairwise distinct, each with its promise in the
    cache. *)
Theorem no_file_is_read_twice :
  forall (E : Collaborators) (C : ConfigurationFile) (fs : gmap string fileEntry)
         (projectPath : string) (rigConfig : option RigConfig) (st : state),
    readsOnce st ->
    readsOnce (loadConfigurationFileForProjectAsync E C fs projectPath rigConfig st).2
    /\ readsOnce (tryLoadConfigurationFileForProjectAsync E C fs projectPath rigConfig st).2.
Proof.
  intros E C fs projectPath rigConfig st Hst. rewrite tryLoad_state.
  assert (readsOnce (loadConfigurationFileForProjectAsync E C fs projectPath rigConfig st).2);
    [| done].
  unfold loadConfigurationFileForProjectAsync.
  destruct (_loadConfigurationFileInnerWithCacheAsync E C fs (loadFuel fs) _ ∅ rigConfig st)
    as [[r st1] visited1] eqn:Hrun.
  by destruct (load_invariant E C fs readsOnce (fun _ => True)
                 (fun st0 p H0 Hp => readsOnce_start st0 p H0 Hp)
                 (fun st0 p r0 H0 _ => readsOnce_settle st0 p r0 H0)
                 (fun _ _ _ _ _ => I) (fun _ _ _ _ _ _ => I)
                 _ _ _ _ _ _ _ _ Hst Hrun).
Qed.

(** X16.  A call neither removes nor replaces an entry of the promise
    cache: what the cache held for a path when the call started it holds
    when the call is over, and the paths read during the call come on top
    of those read before. *)
Theorem cache_entries_are_never_replaced :
  forall (E : Collaborators) (C : ConfigurationFile) (fs : gmap string fileEntry)
         (projectPath : string) (rigConfig : option RigConfig) (st : state),
    let st' := (loadConfigurationFileForProjectAsync E C fs projectPath rigConfig st).2 in
    _configPromiseCache st ⊆ _configPromiseCache st'
    /\ exists reads, readLog st' = (reads ++ readLog st)%list.
Proof.
  intros E C fs projectPath rigConfig st. simpl.
  unfold loadConfigurationFileForProjectAsync.
  destruct (_loadConfigurationFileInnerWithCacheAsync E C fs (loadFuel fs) _ ∅ rigConfig st)
    as [[r st1] visited1] eqn:Hrun.
  exact (load_frame E C fs _ _ _ _ _ _ _ _ Hrun).
Qed.

(** X17.  A configuration that was loaded is answered from the cache from
    then on: a later call for the same path returns the same configuration
    and leaves the instance as it is, reading nothing, whatever the file
    system holds by then and whatever rig it is given. *)
Theorem successful_load_is_answered_from_the_cache :
  forall (E : Collaborators) (C : ConfigurationFile) (fs : gmap string fileEntry)
         (projectPath : string) (rigConfig : option RigConfig) (st st' : state) (v : value),
    loadConfigurationFileForProjectAsync E C fs projectPath rigConfig st = (Return v, st') ->
    forall (fs' : gmap string fileEntry) (rigConfig' : option RigConfig)
           (projectPath' : string),
      _getConfigurationFilePathForProject E C projectPath'
      = _getConfigurationFilePathForProject E C projectPath ->
      loadConfigurationFileForProjectAsync E C fs' projectPath' rigConfig' st'
      = (Return v, st').
Proof.
  intros E C fs projectPath rigConfig st st' v Hfirst fs' rigConfig' projectPath' Hsame.
  unfold loadConfigurationFileForProjectAsync in *. rewrite Hsame.
  destruct (_loadConfigurationFileInnerWithCacheAsync E C fs (loadFuel fs) _ ∅ rigConfig st)
    as [[r st1] visited1] eqn:Hrun.
  inversion Hfirst; subst r st1; clear Hfirst.
  destruct (load_settles E C fs _ _ _ _ _ _ _ _ Hrun) as (p & Hcache & Hsettled & Hawait);
    [set_solver | done |].
  destruct p as [| v0 | e0]; try done. simpl in Hawait. inversion Hawait; subst v0.
  unfold loadFuel. simpl. unfold loadWithCacheStep. rewrite Hcache.
  rewrite decide_False by set_solver. done.
Qed.

(** X18.  The rig is consulted only for a file that is missing and not in
    the cache, and only if a rig was found: otherwise the call with the rig
    completes as the call without a rig does, and leaves the same cache and
    the same reads.  (The two differ in a line written to the terminal,
    which is left out here.) *)
Theorem rig_is_consulted_only_for_a_missing_file :
  forall (E : Collaborators) (C : ConfigurationFile) (fs : gmap string fileEntry)
         (projectPath : string) (rig : RigConfig) (st : state),
    let path := _getConfigurationFilePathForProject E C projectPath in
    is_Some (fs !! path) \/ is_Some (_configPromiseCache st !! path) \/ rigFound rig = false ->
    loadConfigurationFileForProjectAsync E C fs projectPath (Some rig) st
    = loadConfigurationFileForProjectAsync E C fs projectPath None st.
Proof.
  intros E C fs projectPath rig st path Hor.
  unfold loadConfigurationFileForProjectAsync, loadFuel. fold path.
  change (2 + size fs) with (S (S (size fs))).
  cbn [_loadConfigurationFileInnerWithCacheAsync]. unfold loadWithCacheStep at 1 3.
  destruct (_configPromiseCache st !! path) as [entry |] eqn:Hcache; [done |].
  rewrite decide_False by set_solver.
  assert (Hinner : forall recurse visited st0,
             _loadConfigurationFileInnerAsync E C fs recurse path visited (Some rig) st0
             = _loadConfigurationFileInnerAsync E C fs recurse path visited None st0).
  { intros recurse visited st0.
    unfold _loadConfigurationFileInnerAsync, _tryLoadConfigurationFileInRigAsync.
    destruct (fs !! path) as [entry |] eqn:Hfile; [done |].
    destruct Hor as [[x Hx] | [[x Hx] | Hrig]]; [done | done |]. by rewrite Hrig. }
  by rewrite Hinner.
Qed.

(** X19.  If the cache holds no configuration with an own property named
    [extends] or [$schema] or naming a merge directive, as is the case of a
    new instance, then no call returns such a configuration, and the cache
    stays so. *)
Theorem loaded_configuration_has_no_meta_keys :
  forall (E : Collaborators) (C : ConfigurationFile) (fs : gmap string fileEntry)
         (projectPath : string) (rigConfig : option RigConfig) (st st' : state) (v : value),
    cacheHolds hasNoMetaKeys st ->
    loadConfigurationFileForProjectAsync E C fs projectPath rigConfig st = (Return v, st') ->
    hasNoMetaKeys v /\ cacheHolds hasNoMetaKeys st'.
Proof.
  intros E C fs projectPath rigConfig st st' v. apply load_returns_only.
  intros parent json path w Hparent Hrun k Hk.
  apply mergeAndValidate_Return in Hrun as [Hmerge _].
  apply mergeObjects_names in Hmerge as [_ Hkeys].
  apply Hkeys in Hk as [Hk | [_ Hk]]; [| done].
  destruct Hparent as [-> | Hclean]; [by apply elem_of_nil in Hk | by apply Hclean].
Qed.

(** X20.  If every configuration of the cache was accepted by the schema
    validator, as is the case of a new instance, then every configuration a
    call returns was accepted by it, and the cache stays so. *)
Theorem loaded_configuration_was_validated :
  forall (E : Collaborators) (C : ConfigurationFile) (fs : gmap string fileEntry)
         (projectPath : string) (rigConfig : option RigConfig) (st st' : state) (v : value),
    cacheHolds (passedValidation E) st ->
    loadConfigurationFileForProjectAsync E C fs projectPath rigConfig st = (Return v, st') ->
    passedValidation E v /\ cacheHolds (passedValidation E) st'.
Proof.
  intros E C fs projectPath rigConfig st st' v. apply load_returns_only.
  intros parent json path w _ Hrun.
  apply mergeAndValidate_Return in Hrun as [_ Hvalid]. by exists path.
Qed.

(** X21.  A file whose parent is in the cache already is read, the parent is
    not read again, and the call completes with the merge of the cached
    parent and the document of the file, validated; that completion is what
    the cache then holds for the file. *)
Theorem child_is_merged_onto_its_cached_parent :
  forall (E : Collaborators) (C : ConfigurationFile) (fs : gmap string fileEntry)
         (projectPath : string) (rigConfig : option RigConfig) (st : state)
         (text : string) (parsed configurationJson : value)
         (parentPath : string) (parentConfiguration : value),
    let path := _getConfigurationFilePathForProject E C projectPath in
    _configPromiseCache st !! path = None ->
    fs !! path = Some (FileText text) ->
    parseString E text = inr parsed ->
    rewriteJsonPaths E path (_annotateProperties path parsed) = inr configurationJson ->
    isUndefined configurationJson || isNull configurationJson = false ->
    truthy (getProp configurationJson "extends") = true ->
    resolveModule E (getProp configurationJson "extends") (dirname E path) = inr parentPath ->
    _configPromiseCache st !! parentPath = Some (Fulfilled parentConfiguration) ->
    let outcome := mergeAndValidate E C parentConfiguration configurationJson path in
    loadConfigurationFileForProjectAsync E C fs projectPath rigConfig st
    = (outcome, settle path outcome (recordRead path (cacheSet path Pending st))).
Proof.
  intros E C fs projectPath rigConfig st text parsed json q parent path
    Hcache Hfile Hparse Hrewrite Hnullish Hextends Hresolve Hparent outcome.
  assert (Hne : q <> path) by (intros ->; congruence).
  unfold loadConfigurationFileForProjectAsync, loadFuel. fold path.
  change (2 + size fs) with (S (S (size fs))).
  cbn [_loadConfigurationFileInnerWithCacheAsync]. unfold loadWithCacheStep at 1.
  rewrite Hcache. rewrite decide_False by set_solver.
  unfold _loadConfigurationFileInnerAsync.
  rewrite Hfile, Hparse, Hrewrite, Hnullish, Hextends, Hresolve.
  unfold loadWithCacheStep. simpl _configPromiseCache.
  rewrite lookup_insert_ne by done. rewrite Hparent.
  rewrite decide_False by set_solver. simpl. by fold outcome.
Qed.

Lemma mergeObjects_is_object (parentObject currentObject : value) (path : string)
    (configured : option IPropertiesInheritance) (ignore : option (gset string))
    (result : value) :
  _mergeObjects parentObject currentObject path configured ignore = Return result ->
  getObjectSourceFilePath result = Return (Some path).
Proof.
  intros Hrun.
  by destruct (mergeObjects_run _ _ _ _ _ _ Hrun) as (m & filtered & ov & props & _ & _ & ->).
Qed.

(** X22.  A file whose parent is known to have failed fails without the
    parent being read again: with the error of the parent, or, if the
    parent was missing, with the error of a broken [extends] reference. *)
Theorem cached_parent_failure_is_the_childs_failure :
  forall (E : Collaborators) (C : ConfigurationFile) (fs : gmap string fileEntry)
         (projectPath : string) (rigConfig : option RigConfig) (st : state)
         (text : string) (parsed configurationJson : value)
         (parentPath : string) (e : error),
    let path := _getConfigurationFilePathForProject E C projectPath in
    _configPromiseCache st !! path = None ->
    fs !! path = Some (FileText text) ->
    parseString E text = inr parsed ->
    rewriteJsonPaths E path (_annotateProperties path parsed) = inr configurationJson ->
    isUndefined configurationJson || isNull configurationJson = false ->
    truthy (getProp configurationJson "extends") = true ->
    resolveModule E (getProp configurationJson "extends") (dirname E path) = inr parentPath ->
    _configPromiseCache st !! parentPath = Some (Rejected e) ->
    let outcome :=
      Throw (if isNotExistError e
             then BrokenExtends path (getProp configurationJson "extends")
             else e) in
    loadConfigurationFileForProjectAsync E C fs projectPath rigConfig st
    = (outcome, settle path outcome (recordRead path (cacheSet path Pending st))).
Proof.
  intros E C fs projectPath rigConfig st text parsed json q e path
    Hcache Hfile Hparse Hrewrite Hnullish Hextends Hresolve Hparent outcome.
  assert (Hne : q <> path) by (intros ->; congruence).
  unfold loadConfigurationFileForProjectAsync, loadFuel. fold path.
  change (2 + size fs) with (S (S (size fs))).
  cbn [_loadConfigurationFileInnerWithCacheAsync]. unfold loadWithCacheStep at 1.
  rewrite Hcache. rewrite decide_False by set_solver.
  unfold _loadConfigurationFileInnerAsync.
  rewrite Hfile, Hparse, Hrewrite, Hnullish, Hextends, Hresolve.
  unfold loadWithCacheStep. simpl _configPromiseCache.
  rewrite lookup_insert_ne by done. rewrite Hparent.
  rewrite decide_False by set_solver. simpl. by fold outcome.
Qed.

(** X23.  If every configuration of the cache reports a file as its
    source, as is the case of a new instance, then every configuration a
    call returns reports one, and the cache stays so. *)
Theorem loaded_configuration_reports_a_source_file :
  forall (E : Collaborators) (C : ConfigurationFile) (fs : gmap string fileEntry)
         (projectPath : string) (rigConfig : option RigConfig) (st st' : state) (v : value),
    cacheHolds reportsSourceFile st ->
    loadConfigurationFileForProjectAsync E C fs projectPath rigConfig st = (Return v, st') ->
    reportsSourceFile v /\ cacheHolds reportsSourceFile st'.
Proof.
  intros E C fs projectPath rigConfig st st' v. apply load_returns_only.
  intros parent json path w _ Hrun.
  apply mergeAndValidate_Return in Hrun as [Hmerge _].
  exists path. by eapply mergeObjects_is_object.
Qed.


(** The load of an uncached file that extends nothing: it is read, merged
    with no parent and validated, and its promise settles. *)
Lemma load_of_a_root_file (E : Collaborators) (C : ConfigurationFile)
    (fs : gmap string fileEntry) (recurse : loader) (path : string) (visited : gset string)
    (st : state) (text : string) (parsed configurationJson : value) :
  _configPromiseCache st !! path = None ->
  path ∉ visited ->
  fs !! path = Some (FileText text) ->
  parseString E text = inr parsed ->
  rewriteJsonPaths E path (_annotateProperties path parsed) = inr configurationJson ->
  isUndefined configurationJson || isNull configurationJson = false ->
  truthy (getProp configurationJson "extends") = false ->
  let outcome := mergeAndValidate E C VUndefined configurationJson path in
  loadWithCacheStep E C fs recurse path visited None st
  = (outcome, settle path outcome (recordRead path (cacheSet path Pending st)),
     {[path]} ∪ visited).
Proof.
  intros Hcache Hnot Hfile Hparse Hrewrite Hnullish Hextends outcome.
  unfold loadWithCacheStep.
  rewrite Hcache. rewrite decide_False by done.
  unfold _loadConfigurationFileInnerAsync.
  by rewrite Hfile, Hparse, Hrewrite, Hnullish, Hextends.
Qed.

(** X25.  The load of an uncached file that extends an uncached file that
    extends nothing reads the file, then its parent; the parent is merged
    with no parent and validated, the file is merged onto that result and
    validated, and each of the two completions is what the cache then holds
    for its path.  A failure of the parent is the failure of the file, a
    missing file being reported as a broken [extends] reference. *)
Theorem extends_loads_the_parent_then_merges :
  forall (E : Collaborators) (C : ConfigurationFile) (fs : gmap string fileEntry)
         (projectPath : string) (rigConfig : option RigConfig) (st : state)
         (text : string) (parsed configurationJson : value) (parentPath : string)
         (parentText : string) (parentParsed parentJson : value),
    let path := _getConfigurationFilePathForProject E C projectPath in
    _configPromiseCache st !! path = None ->
    fs !! path = Some (FileText text) ->
    parseString E text = inr parsed ->
    rewriteJsonPaths E path (_annotateProperties path parsed) = inr configurationJson ->
    isUndefined configurationJson || isNull configurationJson = false ->
    truthy (getProp configurationJson "extends") = true ->
    resolveModule E (getProp configurationJson "extends") (dirname E path) = inr parentPath ->
    parentPath <> path ->
    _configPromiseCache st !! parentPath = None ->
    fs !! parentPath = Some (FileText parentText) ->
    parseString E parentText = inr parentParsed ->
    rewriteJsonPaths E parentPath (_annotateProperties parentPath parentParsed)
      = inr parentJson ->
    isUndefined parentJson || isNull parentJson = false ->
    truthy (getProp parentJson "extends") = false ->
    let parentOutcome := mergeAndValidate E C VUndefined parentJson parentPath in
    let outcome :=
      match parentOutcome with
      | Return parentConfiguration =>
          mergeAndValidate E C parentConfiguration configurationJson path
      | Throw e =>
          Throw (if isNotExistError e
                 then BrokenExtends path (getProp configurationJson "extends")
                 else e)
      | Stuck s => Stuck s
      end in
    loadConfigurationFileForProjectAsync E C fs projectPath rigConfig st
    = (outcome,
       settle path outcome
         (settle parentPath parentOutcome
            (recordRead parentPath
               (cacheSet parentPath Pending
                  (recordRead path (cacheSet path Pending st)))))).
Proof.
  intros E C fs projectPath rigConfig st text parsed json q qtext qparsed qjson path
    Hcache Hfile Hparse Hrewrite Hnullish Hextends Hresolve Hne
    Hqcache Hqfile Hqparse Hqrewrite Hqnullish Hqextends parentOutcome outcome.
  unfold loadConfigurationFileForProjectAsync, loadFuel. fold path.
  change (2 + size fs) with (S (S (size fs))).
  cbn [_loadConfigurationFileInnerWithCacheAsync]. unfold loadWithCacheStep at 1.
  rewrite Hcache. rewrite decide_False by set_solver.
  unfold _loadConfigurationFileInnerAsync at 1.
  rewrite Hfile, Hparse, Hrewrite, Hnullish, Hextends, Hresolve.
  rewrite (load_of_a_root_file E C fs _ q _ _ qtext qparsed qjson);
    [| by simpl; rewrite lookup_insert_ne | set_solver | done ..].
  fold parentOutcome. unfold outcome.
  by destruct parentOutcome as [parentConfiguration | e | s].
Qed.

(** X26.  The load of a missing, uncached project file with a rig that was
    found and that holds an uncached file extending nothing reads the
    project path, then the file of the rig, and completes with the
    configuration of the rig's file: merged with no parent, validated, and
    reporting the file of the rig as its source.  That configuration is what
    the cache then holds for both paths. *)
Theorem rig_file_stands_in_for_a_missing_project_file :
  forall (E : Collaborators) (C : ConfigurationFile) (fs : gmap string fileEntry)
         (projectPath : string) (rig : RigConfig) (st : state)
         (rigText : string) (rigParsed rigJson : value) (configuration : value),
    let path := _getConfigurationFilePathForProject E C projectPath in
    let rigPath :=
      resolve E (getResolvedProfileFolderAsync rig) (projectRelativeFilePath C) in
    _configPromiseCache st !! path = None ->
    fs !! path = None ->
    rigFound rig = true ->
    rigPath <> path ->
    _configPromiseCache st !! rigPath = None ->
    fs !! rigPath = Some (FileText rigText) ->
    parseString E rigText = inr rigParsed ->
    rewriteJsonPaths E rigPath (_annotateProperties rigPath rigParsed) = inr rigJson ->
    isUndefined rigJson || isNull rigJson = false ->
    truthy (getProp rigJson "extends") = false ->
    mergeAndValidate E C VUndefined rigJson rigPath = Return configuration ->
    let st' := (loadConfigurationFileForProjectAsync E C fs projectPath (Some rig) st).2 in
    (loadConfigurationFileForProjectAsync E C fs projectPath (Some rig) st).1
    = Return configuration
    /\ getObjectSourceFilePath configuration = Return (Some rigPath)
    /\ _configPromiseCache st' !! path = Some (Fulfilled configuration)
    /\ _configPromiseCache st' !! rigPath = Some (Fulfilled configuration)
    /\ readLog st' = rigPath :: path :: readLog st.
Proof.
  intros E C fs projectPath rig st rigText rigParsed rigJson configuration path rigPath
    Hcache Hfile Hfound Hne Hrcache Hrfile Hrparse Hrrewrite Hrnullish Hrextends Hmerge.
  assert (Hsource : getObjectSourceFilePath configuration = Return (Some rigPath)).
  { apply mergeAndValidate_Return in Hmerge as [Hmerge _].
    by eapply mergeObjects_is_object. }
  assert (Htruthy : truthy configuration = true).
  { apply mergeAndValidate_Return in Hmerge as [Hmerge _].
    by destruct (mergeObjects_run _ _ _ _ _ _ Hmerge)
         as (m & filtered & ov & props & _ & _ & ->). }
  assert (Hload : loadConfigurationFileForProjectAsync E C fs projectPath (Some rig) st
                  = (Return configuration,
                     settle path (Return configuration)
                       (settle rigPath (Return configuration)
                          (recordRead rigPath
                             (cacheSet rigPath Pending
                                (recordRead path (cacheSet path Pending st))))))).
  { unfold loadConfigurationFileForProjectAsync, loadFuel. fold path.
    change (2 + size fs) with (S (S (size fs))).
    cbn [_loadConfigurationFileInnerWithCacheAsync]. unfold loadWithCacheStep at 1.
    rewrite Hcache. rewrite decide_False by set_solver.
    rewrite (inner_falls_back_to_rig E C fs _ _ _ _ _ Hfile Hfound). fold rigPath.
    rewrite (load_of_a_root_file E C fs _ rigPath _ _ rigText rigParsed rigJson);
      [| by simpl; rewrite lookup_insert_ne | set_solver | done ..].
    by rewrite Hmerge, Htruthy. }
  rewrite Hload. simpl.
  rewrite lookup_insert_eq, lookup_insert_ne by done. by rewrite lookup_insert_eq.
Qed.

(** ** Path resolution *)

(** X27.  The custom resolver and the name of the property matter to the
    custom method only: under any other method, and with no method, the
    resolved path is the same whatever the two are. *)
Theorem custom_resolver_serves_the_custom_method_only :
  forall (E : Collaborators) (tryGetPackageFolderFor : string -> option string)
         (configurationFilePath propertyValue : string)
         (method : option PathResolutionMethod.t)
         (propertyName propertyName' : string)
         (resolver resolver' : option (string -> string -> string -> error + string)),
    method <> Some PathResolutionMethod.custom ->
    _resolvePathProperty E tryGetPackageFolderFor configurationFilePath propertyName
      propertyValue {| customResolver := resolver; pathResolutionMethod := method |}
    = _resolvePathProperty E tryGetPackageFolderFor configurationFilePath propertyName'
        propertyValue {| customResolver := resolver'; pathResolutionMethod := method |}.
Proof.
  intros E tryGetPackageFolderFor configurationFilePath propertyValue method
    propertyName propertyName' resolver resolver' Hmethod.
  unfold _resolvePathProperty. simpl. by destruct method as [[] |].
Qed.

(** ** Further properties at work on the sample documents *)

(** X1 on the settings of the sample parent, one level below the root. *)
Lemma every_node_reports_its_file_witness :
  getObjectSourceFilePath (getProp Sample.parentSettings "settings")
  = Return (Some "/parent.json").
Proof.
  apply (every_node_reports_its_file "/parent.json"
           (Sample.object [("settings", Sample.object [("a", VNum 1); ("b", VNum 2)])])).
  - apply nodeOf_property. apply nodeOf_root.
  - reflexivity.
Defined.

(** X2 on a property of the settings of the sample parent. *)
Lemma fresh_annotation_records_current_values_witness :
  getPropertyOriginalValue (getProp Sample.parentSettings "settings") "b"
  = Return (VNum 2).
Proof.
  apply (fresh_annotation_records_current_values "/parent.json"
           (Sample.object [("settings", Sample.object [("a", VNum 1); ("b", VNum 2)])])
           (getProp Sample.parentSettings "settings") "b").
  - apply nodeOf_property. apply nodeOf_root.
  - reflexivity.
Defined.

(** X4 on a parent that holds options and a child that holds tags and a
    directive for them. *)
Lemma merged_names_are_the_parents_and_the_childs_own_witness :
  exists result,
    _mergeObjects Sample.parentOptions Sample.childTags "/child.json" (Some [])
      Sample.ignoreProperties = Return result
    /\ NoDup (ownKeys result)
    /\ forall k,
         k ∈ ownKeys result
         <-> k ∈ ownKeys Sample.parentOptions
             \/ (k ∈ ownKeys Sample.childTags
                 /\ isMergedName Sample.ignoreProperties k = true).
Proof.
  eexists. split; [vm_compute; reflexivity |].
  apply (merged_names_are_the_parents_and_the_childs_own Sample.parentOptions
           Sample.childTags "/child.json" (Some []) Sample.ignoreProperties).
  vm_compute. reflexivity.
Defined.

(** X5 on the same two documents. *)
Lemma merged_object_reports_the_loaded_file_witness :
  exists result,
    _mergeObjects Sample.parentOptions Sample.childTags "/child.json" (Some [])
      Sample.ignoreProperties = Return result
    /\ getObjectSourceFilePath result = Return (Some "/child.json")
    /\ isArray result = false
    /\ isAnnotatable result = true.
Proof.
  eexists. split; [vm_compute; reflexivity |].
  apply (merged_object_reports_the_loaded_file Sample.parentOptions
           Sample.childTags "/child.json" (Some []) Sample.ignoreProperties).
  vm_compute. reflexivity.
Defined.

(** X6 on the two lists of the specification, declared to append. *)
Lemma append_goes_through_only_on_arrays_witness :
  exists result,
    _mergeObjects Sample.parentList Sample.childList "/child.json"
      Sample.appendList Sample.ignoreProperties = Return result
    /\ exists childAnnotation childItems parentAnnotation parentItems,
         getProp Sample.childList "list" = VArr (Some childAnnotation) childItems
         /\ getProp Sample.parentList "list" = VArr (Some parentAnnotation) parentItems
         /\ getProp result "list"
            = VArr (Some (mkAnnotation None
                            (spread (originalValues parentAnnotation)
                                    (originalValues childAnnotation))))
                   (parentItems ++ childItems)%list
         /\ getPropertyOriginalValue result "list" = Return VUndefined.
Proof.
  eexists. split; [vm_compute; reflexivity |].
  apply (append_goes_through_only_on_arrays Sample.parentList Sample.childList
           "/child.json" Sample.appendList Sample.ignoreProperties ["list"] ∅ _ "list").
  - vm_compute. reflexivity.
  - vm_compute. reflexivity.
  - vm_compute. reflexivity.
  - apply (bool_decide_unpack _). vm_compute. exact I.
  - vm_compute. reflexivity.
  - vm_compute. discriminate.
  - vm_compute. discriminate.
Defined.

(** X7 on three files that each hold a list. *)
Lemma append_accumulates_along_the_chain_witness :
  exists inherited result,
    _mergeObjects Sample.parentList Sample.childList "/child.json"
      Sample.appendList Sample.ignoreProperties = Return inherited
    /\ _mergeObjects inherited Scenario.grandchildList "/grandchild.json"
         Sample.appendList Sample.ignoreProperties = Return result
    /\ isArray (getProp result "list") = true
    /\ itemsOf (getProp result "list")
       = (itemsOf (getProp Sample.parentList "list")
          ++ itemsOf (getProp Sample.childList "list")
          ++ itemsOf (getProp Scenario.grandchildList "list"))%list.
Proof.
  eexists _, _. split; [vm_compute; reflexivity |]. split; [vm_compute; reflexivity |].
  eapply (append_accumulates_along_the_chain Sample.parentList Sample.childList
           Scenario.grandchildList "/child.json" "/grandchild.json" Sample.appendList
           Sample.ignoreProperties ["list"] ["list"] ∅ ∅ _ _ "list").
  - vm_compute. reflexivity.
  - vm_compute. reflexivity.
  - vm_compute. reflexivity.
  - apply (bool_decide_unpack _). vm_compute. exact I.
  - vm_compute. reflexivity.
  - vm_compute. discriminate.
  - vm_compute. discriminate.
  - vm_compute. reflexivity.
  - vm_compute. reflexivity.
  - vm_compute. reflexivity.
  - apply (bool_decide_unpack _). vm_compute. exact I.
  - vm_compute. reflexivity.
  - vm_compute. discriminate.
Defined.

(** X8 on two settings objects nothing is declared for. *)
Lemma undeclared_property_appends_arrays_and_replaces_the_rest_witness :
  exists result,
    _mergeObjects Sample.parentSettings Sample.childSettings "/child.json" (Some [])
      Sample.ignoreProperties = Return result
    /\ getProp result "settings" = getProp Sample.childSettings "settings"
    /\ getPropertyOriginalValue result "settings"
       = getPropertyOriginalValue Sample.childSettings "settings".
Proof.
  eexists. split; [vm_compute; reflexivity |].
  apply (undeclared_property_appends_arrays_and_replaces_the_rest Sample.parentSettings
           Sample.childSettings "/child.json" (Some []) Sample.ignoreProperties
           ["settings"] ∅ _ "settings").
  - vm_compute. reflexivity.
  - vm_compute. reflexivity.
  - vm_compute. reflexivity.
  - apply (bool_decide_unpack _). vm_compute. exact I.
  - reflexivity.
  - reflexivity.
  - vm_compute. discriminate.
  - vm_compute. discriminate.
Defined.

(** X9 on two settings objects declared to merge. *)
Lemma merge_inheritance_recurses_without_declarations_witness :
  exists result,
    _mergeObjects Sample.parentSettings Sample.childSettings "/child.json"
      Sample.mergeSettings Sample.ignoreProperties = Return result
    /\ _mergeObjects (getProp Sample.parentSettings "settings")
         (getProp Sample.childSettings "settings") "/child.json" None None
       = Return (getProp result "settings")
    /\ getPropertyOriginalValue result "settings" = Return VUndefined.
Proof.
  eexists. split; [vm_compute; reflexivity |].
  apply (merge_inheritance_recurses_without_declarations Sample.parentSettings
           Sample.childSettings "/child.json" Sample.mergeSettings Sample.ignoreProperties
           ["settings"] ∅ _ "settings"
           (Some (mkAnnotation (Some "/child.json") [("b", VNum 3); ("c", VNum 4)]))
           (Some (mkAnnotation (Some "/parent.json") [("a", VNum 1); ("b", VNum 2)]))
           [("b", VNum 3); ("c", VNum 4)] [("a", VNum 1); ("b", VNum 2)]).
  - vm_compute. reflexivity.
  - vm_compute. reflexivity.
  - vm_compute. reflexivity.
  - apply (bool_decide_unpack _). vm_compute. exact I.
  - vm_compute. reflexivity.
  - vm_compute. reflexivity.
  - vm_compute. reflexivity.
Defined.

(** X10 on an inheritance function that keeps the parent's value. *)
Lemma custom_inheritance_takes_child_then_parent_witness :
  exists result,
    _mergeObjects Sample.parentSettings Sample.childSettings "/child.json"
      Scenario.customSettings Sample.ignoreProperties = Return result
    /\ exists f,
         inheritanceFunction
           (effectiveInheritance ∅ Scenario.customSettings "settings"
              (getProp Sample.childSettings "settings")
              (getProp Sample.parentSettings "settings")) = Some f
         /\ f (getProp Sample.childSettings "settings")
              (getProp Sample.parentSettings "settings")
            = inr (getProp result "settings")
         /\ getPropertyOriginalValue result "settings" = Return VUndefined.
Proof.
  eexists. split; [vm_compute; reflexivity |].
  apply (custom_inheritance_takes_child_then_parent Sample.parentSettings
           Sample.childSettings "/child.json" Scenario.customSettings
           Sample.ignoreProperties ["settings"] ∅ _ "settings").
  - vm_compute. reflexivity.
  - vm_compute. reflexivity.
  - vm_compute. reflexivity.
  - apply (bool_decide_unpack _). vm_compute. exact I.
  - vm_compute. reflexivity.
  - vm_compute. discriminate.
  - vm_compute. discriminate.
Defined.

(** X11 on a child that holds [extends] only and a parent that holds
    settings. *)
Lemma child_of_ignored_names_inherits_everything_witness :
  exists result,
    _mergeObjects Sample.parentSettings Scenario.onlyExtends "/child.json"
      Sample.mergeSettings Sample.ignoreProperties = Return result
    /\ (forall k, getProp result k = getProp Sample.parentSettings k)
    /\ (forall k, k ∈ ownKeys Sample.parentSettings ->
                  getPropertyOriginalValue result k
                  = getPropertyOriginalValue Sample.parentSettings k).
Proof.
  apply (child_of_ignored_names_inherits_everything Sample.parentSettings
           Scenario.onlyExtends "/child.json" Sample.mergeSettings Sample.ignoreProperties).
  - intros k Hk. apply list_elem_of_singleton in Hk. subst k. vm_compute. reflexivity.
  - intros k Hk. apply list_elem_of_singleton in Hk. subst k.
    split; [reflexivity | vm_compute; discriminate].
Defined.

(** X14 on a directive written in capitals. *)
Lemma directive_overrides_the_declared_inheritance_witness :
  exists m,
    mergeBehaviorMapOf Sample.childTagsCapitals Sample.ignoreProperties = Return m
    /\ m !! "tags" = Some (plainInheritance InheritanceType.append)
    /\ forall configured propertyValue parentPropertyValue,
         effectiveInheritance m configured "tags" propertyValue parentPropertyValue
         = plainInheritance InheritanceType.append.
Proof.
  eexists. split; [vm_compute; reflexivity |].
  apply (directive_overrides_the_declared_inheritance Sample.childTagsCapitals
           Sample.ignoreProperties "$tags.mergeBehavior" "tags" "APPEND"
           InheritanceType.append).
  - apply (bool_decide_unpack _). vm_compute. exact I.
  - vm_compute. reflexivity.
  - vm_compute. reflexivity.
  - vm_compute. reflexivity.
  - vm_compute. reflexivity.
  - discriminate.
  - vm_compute. reflexivity.
Defined.

(** X15 on a new instance and two files that extend each other. *)
Lemma no_file_is_read_twice_witness :
  readsOnce (loadConfigurationFileForProjectAsync Sample.collaborators Sample.tool
               Sample.loopFiles "/proj" None initialState).2
  /\ readsOnce (tryLoadConfigurationFileForProjectAsync Sample.collaborators Sample.tool
                  Sample.loopFiles "/proj" None initialState).2.
Proof.
  apply (no_file_is_read_twice Sample.collaborators Sample.tool Sample.loopFiles
           "/proj" None initialState).
  split; [constructor |]. intros path Hpath. simpl in Hpath. inversion Hpath.
Defined.

(** X17 on a file that is deleted after it was loaded. *)
Lemma successful_load_is_answered_from_the_cache_witness :
  let first :=
    loadConfigurationFileForProjectAsync Sample.collaborators Sample.tool
      Sample.plainFiles "/proj" None initialState in
  loadConfigurationFileForProjectAsync Sample.collaborators Sample.tool
    Sample.noFiles "/proj" (Some Sample.rig) first.2
  = (Return (_annotateProperties Sample.toolPath Sample.plain), first.2).
Proof.
  apply (successful_load_is_answered_from_the_cache Sample.collaborators Sample.tool
           Sample.plainFiles "/proj" None initialState).
  - vm_compute. reflexivity.
  - reflexivity.
Defined.

(** X18 on a project that has the file. *)
Lemma rig_is_consulted_only_for_a_missing_file_witness :
  loadConfigurationFileForProjectAsync Sample.collaborators Sample.tool
    Sample.plainFiles "/proj" (Some Sample.rig) initialState
  = loadConfigurationFileForProjectAsync Sample.collaborators Sample.tool
      Sample.plainFiles "/proj" None initialState.
Proof.
  apply (rig_is_consulted_only_for_a_missing_file Sample.collaborators Sample.tool
           Sample.plainFiles "/proj" Sample.rig initialState).
  left. exists (FileText "plain"). vm_compute. reflexivity.
Defined.

(** X19 on a file that carries a [$schema]. *)
Lemma loaded_configuration_has_no_meta_keys_witness :
  exists v st',
    loadConfigurationFileForProjectAsync Sample.collaborators Sample.tool
      Sample.schemaFiles "/proj" None initialState = (Return v, st')
    /\ hasNoMetaKeys v /\ cacheHolds hasNoMetaKeys st'.
Proof.
  eexists _, _. split; [vm_compute; reflexivity |].
  apply (loaded_configuration_has_no_meta_keys Sample.collaborators Sample.tool
           Sample.schemaFiles "/proj" None initialState).
  - intros path v Hpath. simpl in Hpath. rewrite lookup_empty in Hpath. discriminate Hpath.
  - vm_compute. reflexivity.
Defined.

(** X20 on a file that extends nothing. *)
Lemma loaded_configuration_was_validated_witness :
  exists v st',
    loadConfigurationFileForProjectAsync Sample.collaborators Sample.tool
      Sample.plainFiles "/proj" None initialState = (Return v, st')
    /\ passedValidation Sample.collaborators v
    /\ cacheHolds (passedValidation Sample.collaborators) st'.
Proof.
  eexists _, _. split; [vm_compute; reflexivity |].
  apply (loaded_configuration_was_validated Sample.collaborators Sample.tool
           Sample.plainFiles "/proj" None initialState).
  - intros path v Hpath. simpl in Hpath. rewrite lookup_empty in Hpath. discriminate Hpath.
  - vm_compute. reflexivity.
Defined.

(** X21 on a project file whose parent has been loaded. *)
Lemma child_is_merged_onto_its_cached_parent_witness :
  let outcome :=
    mergeAndValidate Sample.collaborators Sample.tool Scenario.loadedParent
      (_annotateProperties Sample.toolPath Sample.extendsB) Sample.toolPath in
  loadConfigurationFileForProjectAsync Sample.collaborators Sample.tool
    Scenario.childFiles "/proj" None Scenario.parentLoaded
  = (outcome,
     settle Sample.toolPath outcome
       (recordRead Sample.toolPath (cacheSet Sample.toolPath Pending Scenario.parentLoaded))).
Proof.
  apply (child_is_merged_onto_its_cached_parent Sample.collaborators Sample.tool
           Scenario.childFiles "/proj" None Scenario.parentLoaded
           "extends-b" Sample.extendsB
           (_annotateProperties Sample.toolPath Sample.extendsB)
           "/cfg/b.json" Scenario.loadedParent).
  - vm_compute. reflexivity.
  - vm_compute. reflexivity.
  - reflexivity.
  - reflexivity.
  - reflexivity.
  - reflexivity.
  - reflexivity.
  - vm_compute. reflexivity.
Defined.

(** X22 on a project file whose parent did not match the schema. *)
Lemma cached_parent_failure_is_the_childs_failure_witness :
  let outcome : completion value := Throw (SchemaMismatch "y is not a string") in
  loadConfigurationFileForProjectAsync Sample.collaborators Sample.tool
    Scenario.childFiles "/proj" None Scenario.parentFailed
  = (outcome,
     settle Sample.toolPath outcome
       (recordRead Sample.toolPath (cacheSet Sample.toolPath Pending Scenario.parentFailed))).
Proof.
  apply (cached_parent_failure_is_the_childs_failure Sample.collaborators Sample.tool
           Scenario.childFiles "/proj" None Scenario.parentFailed
           "extends-b" Sample.extendsB
           (_annotateProperties Sample.toolPath Sample.extendsB)
           "/cfg/b.json" (SchemaMismatch "y is not a string")).
  - vm_compute. reflexivity.
  - vm_compute. reflexivity.
  - reflexivity.
  - reflexivity.
  - reflexivity.
  - reflexivity.
  - reflexivity.
  - vm_compute. reflexivity.
Defined.

(** X23 on a configuration that comes from the rig. *)
Lemma loaded_configuration_reports_a_source_file_witness :
  exists v st',
    loadConfigurationFileForProjectAsync Sample.collaborators Sample.tool
      Sample.rigFiles "/proj" (Some Sample.rig) initialState = (Return v, st')
    /\ reportsSourceFile v /\ cacheHolds reportsSourceFile st'.
Proof.
  eexists _, _. split; [vm_compute; reflexivity |].
  apply (loaded_configuration_reports_a_source_file Sample.collaborators Sample.tool
           Sample.rigFiles "/proj" (Some Sample.rig) initialState).
  - intros path v Hpath. simpl in Hpath. rewrite lookup_empty in Hpath. discriminate Hpath.
  - vm_compute. reflexivity.
Defined.


(** X25 on a project file that extends [/cfg/b.json], on a new instance. *)
Lemma extends_loads_the_parent_then_merges_witness :
  let parentOutcome :=
    mergeAndValidate Sample.collaborators Sample.tool VUndefined
      (_annotateProperties "/cfg/b.json" Sample.plain) "/cfg/b.json" in
  let outcome :=
    match parentOutcome with
    | Return parentConfiguration =>
        mergeAndValidate Sample.collaborators Sample.tool parentConfiguration
          (_annotateProperties Sample.toolPath Sample.extendsB) Sample.toolPath
    | Throw e =>
        Throw (if isNotExistError e
               then BrokenExtends Sample.toolPath
                      (getProp (_annotateProperties Sample.toolPath Sample.extendsB) "extends")
               else e)
    | Stuck s => Stuck s
    end in
  loadConfigurationFileForProjectAsync Sample.collaborators Sample.tool
    Scenario.familyFiles "/proj" None initialState
  = (outcome,
     settle Sample.toolPath outcome
       (settle "/cfg/b.json" parentOutcome
          (recordRead "/cfg/b.json"
             (cacheSet "/cfg/b.json" Pending
                (recordRead Sample.toolPath
                   (cacheSet Sample.toolPath Pending initialState)))))).
Proof.
  apply (extends_loads_the_parent_then_merges Sample.collaborators Sample.tool
           Scenario.familyFiles "/proj" None initialState
           "extends-b" Sample.extendsB
           (_annotateProperties Sample.toolPath Sample.extendsB) "/cfg/b.json"
           "plain" Sample.plain (_annotateProperties "/cfg/b.json" Sample.plain)).
  - reflexivity.
  - vm_compute. reflexivity.
  - reflexivity.
  - reflexivity.
  - reflexivity.
  - reflexivity.
  - reflexivity.
  - vm_compute. discriminate.
  - reflexivity.
  - vm_compute. reflexivity.
  - reflexivity.
  - reflexivity.
  - reflexivity.
  - reflexivity.
Defined.

(** X26 on a project without the file and a rig that has it. *)
Lemma rig_file_stands_in_for_a_missing_project_file_witness :
  let configuration := _annotateProperties "/rig/profiles/default/tool.json" Sample.plain in
  let st' :=
    (loadConfigurationFileForProjectAsync Sample.collaborators Sample.tool
       Sample.rigFiles "/proj" (Some Sample.rig) initialState).2 in
  (loadConfigurationFileForProjectAsync Sample.collaborators Sample.tool
     Sample.rigFiles "/proj" (Some Sample.rig) initialState).1 = Return configuration
  /\ getObjectSourceFilePath configuration = Return (Some "/rig/profiles/default/tool.json")
  /\ _configPromiseCache st' !! Sample.toolPath = Some (Fulfilled configuration)
  /\ _configPromiseCache st' !! "/rig/profiles/default/tool.json"
     = Some (Fulfilled configuration)
  /\ readLog st' = ["/rig/profiles/default/tool.json"; Sample.toolPath].
Proof.
  apply (rig_file_stands_in_for_a_missing_project_file Sample.collaborators Sample.tool
           Sample.rigFiles "/proj" Sample.rig initialState
           "plain" Sample.plain
           (_annotateProperties "/rig/profiles/default/tool.json" Sample.plain)).
  - reflexivity.
  - vm_compute. reflexivity.
  - reflexivity.
  - vm_compute. discriminate.
  - reflexivity.
  - vm_compute. reflexivity.
  - reflexivity.
  - reflexivity.
  - reflexivity.
  - reflexivity.
  - vm_compute. reflexivity.
Defined.

(** X27 on a property resolved as a module. *)
Lemma custom_resolver_serves_the_custom_method_only_witness :
  _resolvePathProperty Sample.collaborators (fun _ => None) Sample.toolPath
    "$.main" "/lib/index.js" Scenario.asModule
  = _resolvePathProperty Sample.collaborators (fun _ => None) Sample.toolPath
      "$.types" "/lib/index.js" Scenario.asModuleBare.
Proof.
  apply (custom_resolver_serves_the_custom_method_only Sample.collaborators (fun _ => None)
           Sample.toolPath "/lib/index.js" (Some PathResolutionMethod.NodeResolve)).
  discriminate.
Defined.
